(** * OOP_Homework: students, lecturers and reviewers rating each other

    A shallow embedding of [main.py].  Python objects live in a heap indexed
    by object identity; methods are heap transformers that either return a
    Python value or raise.  Every list and dictionary of the program is
    created by a constructor or by a rating and is reachable from one object
    only, so an object holds its collections by value.  Grade dictionaries
    are insertion-ordered association lists, as Python's [dict] is.  The
    quotient [sum / len] is Python's true division of two integers: the
    IEEE-754 binary64 number nearest to the exact quotient, or
    [OverflowError] when that number is out of range. *)

From Stdlib Require Import ZArith QArith Qabs Qpower Qfield Lia.
From Stdlib Require Import Floats.SpecFloat.
From stdpp Require Import gmap strings list pretty.

Local Open Scope string_scope.
Local Open Scope list_scope.
Local Open Scope Z_scope.

(** ** Python values and outcomes *)

(** Object identity ([id(x)]). *)
Definition loc := nat.

Inductive pyval :=
| VNone
| VBool (b : bool)
| VInt (z : Z)
| VFloat (f : spec_float)
| VStr (s : string)
| VObj (l : loc).

Inductive exn :=
| AttributeError
| OverflowError
| ZeroDivisionError.

Inductive outcome (A : Type) :=
| Return (a : A)
| Raise (e : exn).
Arguments Return {A} a.
Arguments Raise {A} e.

(** Truth value testing ([bool(x)]): no class of the program defines
    [__bool__] or [__len__], so its instances are true. *)
Definition truthy (v : pyval) : bool :=
  match v with
  | VNone => false
  | VBool b => b
  | VInt z => negb (z =? 0)
  | VFloat (S754_zero _) => false
  | VFloat _ => true
  | VStr s => negb (String.eqb s "")
  | VObj _ => true
  end.

(** ** Numbers *)

Module Float64.

Definition prec : Z := 53.
Definition emax : Z := 1024.

Definition div := SFdiv prec emax.
Definition eqb := SFeqb.
Definition ltb := SFltb.

(** An integer as the (unrounded) significand of a float with exponent 0. *)
Definition of_int_exact (z : Z) : spec_float :=
  match z with
  | Z0 => S754_zero false
  | Zpos p => S754_finite false p 0
  | Zneg p => S754_finite true p 0
  end.

(** Exact comparison of a float with an integer (Python compares an [int]
    with a [float] without rounding the [int]). *)
Definition compare_int (f : spec_float) (z : Z) : option comparison :=
  match f with
  | S754_nan => None
  | S754_infinity s => Some (if s then Lt else Gt)
  | S754_zero _ => Some (0 ?= z)
  | S754_finite s m e =>
      let sm := if s then Zneg m else Zpos m in
      Some (if 0 <=? e then (sm * 2 ^ e ?= z) else (sm ?= z * 2 ^ (- e)))
  end.

End Float64.

(** [a / b] on two [int]s. *)
Definition int_true_div (a b : Z) : outcome pyval :=
  if b =? 0 then Raise ZeroDivisionError
  else if a =? 0 then Return (VFloat (S754_zero (b <? 0)))
  else
    match Float64.div (Float64.of_int_exact a) (Float64.of_int_exact b) with
    | S754_infinity _ => Raise OverflowError
    | q => Return (VFloat q)
    end.

(** [x == y] and [x < y] on the numbers the program compares. *)
Definition num_eq (x y : pyval) : bool :=
  match x, y with
  | VInt a, VInt b => a =? b
  | VFloat f, VFloat g => Float64.eqb f g
  | VFloat f, VInt b =>
      match Float64.compare_int f b with Some Eq => true | _ => false end
  | VInt a, VFloat g =>
      match Float64.compare_int g a with Some Eq => true | _ => false end
  | _, _ => false
  end.

Definition num_lt (x y : pyval) : bool :=
  match x, y with
  | VInt a, VInt b => a <? b
  | VFloat f, VFloat g => Float64.ltb f g
  | VFloat f, VInt b =>
      match Float64.compare_int f b with Some Lt => true | _ => false end
  | VInt a, VFloat g =>
      match Float64.compare_int g a with Some Gt => true | _ => false end
  | _, _ => false
  end.

(** [sum(l)] and [len(l)]. *)
Definition sum (l : list Z) : Z := fold_left Z.add l 0.
Definition len {A} (l : list A) : Z := Z.of_nat (length l).

(** ** Grade dictionaries

    A [dict] from course name to list of grades, in insertion order. *)

Definition grades_dict := list (string * list Z).

(** [d.get(k)]: [None] when [k not in d]. *)
Fixpoint dict_get (k : string) (d : grades_dict) : option (list Z) :=
  match d with
  | [] => None
  | (k', v) :: d' => if decide (k = k') then Some v else dict_get k d'
  end.

(** [d[k] = v]: an existing key keeps its position, a new key goes last. *)
Fixpoint dict_set (k : string) (v : list Z) (d : grades_dict) : grades_dict :=
  match d with
  | [] => [(k, v)]
  | (k', v') :: d' =>
      if decide (k = k') then (k', v) :: d' else (k', v') :: dict_set k v d'
  end.

(** [d.values()]. *)
Definition dict_values (d : grades_dict) : list (list Z) := d.*2.

(** The shared body of both rating methods:
    [if course in d: d[course] += [grade] else: d[course] = [grade]]. *)
Definition record_grade (course : string) (grade : Z) (d : grades_dict)
  : grades_dict :=
  match dict_get course d with
  | Some grades => dict_set course (grades ++ [grade]) d
  | None => dict_set course [grade] d
  end.

(** ** Entities *)

(** [Student]: [s_grades] is the attribute [grades]. *)
Record Student := mkStudent {
  s_name : string;
  s_surname : string;
  s_gender : string;
  finished_courses : list string;
  courses_in_progress : list string;
  s_grades : grades_dict
}.

Record Mentor := mkMentor {
  m_name : string;
  m_surname : string;
  courses_attached : list string
}.

(** Assignments to one attribute. *)
Definition with_finished_courses (s : Student) (l : list string) : Student :=
  mkStudent (s_name s) (s_surname s) (s_gender s)
    l (courses_in_progress s) (s_grades s).

Definition with_courses_in_progress (s : Student) (l : list string) : Student :=
  mkStudent (s_name s) (s_surname s) (s_gender s)
    (finished_courses s) l (s_grades s).

Definition with_grades (s : Student) (g : grades_dict) : Student :=
  mkStudent (s_name s) (s_surname s) (s_gender s)
    (finished_courses s) (courses_in_progress s) g.

Definition with_courses_attached (m : Mentor) (l : list string) : Mentor :=
  mkMentor (m_name m) (m_surname m) l.

(** An object of one of the four classes.  [Lecturer] and [Reviewer] inherit
    the fields of [Mentor]; [Lecturer] adds the attribute [grades]. *)
Inductive obj :=
| OStudent (s : Student)
| OMentor (m : Mentor)
| OLecturer (m : Mentor) (grades : grades_dict)
| OReviewer (m : Mentor).

Definition mentor_of (o : obj) : option Mentor :=
  match o with
  | OMentor m | OLecturer m _ | OReviewer m => Some m
  | OStudent _ => None
  end.

Definition with_mentor (o : obj) (m : Mentor) : obj :=
  match o with
  | OMentor _ => OMentor m
  | OLecturer _ g => OLecturer m g
  | OReviewer _ => OReviewer m
  | OStudent s => OStudent s
  end.

(** The attribute [grades], which students and lecturers have. *)
Definition grades_of (o : obj) : option grades_dict :=
  match o with
  | OStudent s => Some (s_grades s)
  | OLecturer _ g => Some g
  | OMentor _ | OReviewer _ => None
  end.

(** ** The heap and the monad of methods *)

Abbreviation heap := (gmap loc obj).

Definition M (A : Type) : Type := heap -> outcome A * heap.

Definition ret {A} (a : A) : M A := fun h => (Return a, h).

Definition bind {A B} (m : M A) (k : A -> M B) : M B :=
  fun h =>
    match m h with
    | (Return a, h') => k a h'
    | (Raise e, h') => (Raise e, h')
    end.

Definition raise {A} (e : exn) : M A := fun h => (Raise e, h).

Definition lift {A} (r : outcome A) : M A := fun h => (r, h).

Definition get_obj (l : loc) : M obj :=
  fun h =>
    match h !! l with
    | Some o => (Return o, h)
    | None => (Raise AttributeError, h)
    end.

Definition get_heap : M heap := fun h => (Return h, h).

Definition set_obj (l : loc) (o : obj) : M unit :=
  fun h => (Return tt, <[l := o]> h).

#[global] Instance M_ret : MRet M := @ret.
#[global] Instance M_bind : MBind M := fun A B k m => bind m k.

(** The receiver of a [Student] method. *)
Definition get_student (self : loc) : M Student :=
  o ← get_obj self;
  match o with
  | OStudent s => ret s
  | _ => raise AttributeError
  end.

(** The receiver of a [Reviewer] method. *)
Definition get_reviewer (self : loc) : M Mentor :=
  o ← get_obj self;
  match o with
  | OReviewer m => ret m
  | _ => raise AttributeError
  end.

(** [isinstance(v, Student)], with the student when it holds. *)
Definition as_Student (v : pyval) : M (option (loc * Student)) :=
  fun h =>
    match v with
    | VObj l =>
        match h !! l with
        | Some (OStudent s) => (Return (Some (l, s)), h)
        | _ => (Return None, h)
        end
    | _ => (Return None, h)
    end.

(** [isinstance(v, Lecturer)], with the lecturer when it holds. *)
Definition as_Lecturer (v : pyval) : M (option (loc * Mentor * grades_dict)) :=
  fun h =>
    match v with
    | VObj l =>
        match h !! l with
        | Some (OLecturer m g) => (Return (Some (l, m, g)), h)
        | _ => (Return None, h)
        end
    | _ => (Return None, h)
    end.

(** ** Constructors *)

Definition alloc (o : obj) : M loc :=
  fun h => let l := fresh (dom h) in (Return l, <[l := o]> h).

Definition new_Student (name surname gender : string) : M loc :=
  alloc (OStudent (mkStudent name surname gender [] [] [])).

Definition new_Mentor (name surname : string) : M loc :=
  alloc (OMentor (mkMentor name surname [])).

Definition new_Lecturer (name surname : string) : M loc :=
  alloc (OLecturer (mkMentor name surname []) []).

Definition new_Reviewer (name surname : string) : M loc :=
  alloc (OReviewer (mkMentor name surname [])).

(** ** Methods of [Student] *)

Definition add_finished_course (self : loc) (course : string) : M pyval :=
  s ← get_student self;
  if decide (course ∉ finished_courses s) then
    set_obj self
      (OStudent (with_finished_courses s (finished_courses s ++ [course])));;
    ret VNone
  else ret (VStr "add_finished_course ERROR").

Definition add_courses_in_progress (self : loc) (course : string) : M pyval :=
  s ← get_student self;
  if decide (course ∉ courses_in_progress s) then
    set_obj self
      (OStudent
         (with_courses_in_progress s (courses_in_progress s ++ [course])));;
    ret VNone
  else ret (VStr "add_courses_in_progress ERROR").

Definition rate_lecture (self : loc) (lecturer : pyval) (course : string)
    (grade : Z) : M pyval :=
  s ← get_student self;
  lec ← as_Lecturer lecturer;
  match lec with
  | Some (l, m, grades) =>
      if bool_decide (course ∈ courses_attached m)
         && bool_decide (course ∈ courses_in_progress s)
         && (0 <=? grade) && (grade <=? 10)
      then set_obj l (OLecturer m (record_grade course grade grades));;
           ret VNone
      else ret (VStr "ERROR!")
  | None => ret (VStr "ERROR!")
  end.

(** ** Methods of [Mentor] and [Reviewer] *)

Definition mentor_add_course (self : loc) (course : string) : M pyval :=
  o ← get_obj self;
  match mentor_of o with
  | Some m =>
      if decide (course ∉ courses_attached m) then
        set_obj self
          (with_mentor o
             (with_courses_attached m (courses_attached m ++ [course])));;
        ret VNone
      else ret (VStr "mentor_add_course ERROR")
  | None => raise AttributeError
  end.

Definition rate_hw (self : loc) (student : pyval) (course : string)
    (grade : Z) : M pyval :=
  r ← get_reviewer self;
  st ← as_Student student;
  match st with
  | Some (l, s) =>
      if bool_decide (course ∈ courses_attached r)
         && bool_decide (course ∈ courses_in_progress s)
      then set_obj l
             (OStudent
                (with_grades s (record_grade course grade (s_grades s))));;
           ret VNone
      else ret (VStr "rate_hw function ERROR")
  | None => ret (VStr "rate_hw function ERROR")
  end.

(** ** Aggregation functions *)

(** [for grades_list in grades_dict.values(): all_grades.extend(grades_list)] *)
Definition extend_all (all_grades : list Z) (lists : list (list Z)) : list Z :=
  fold_left (fun acc grades_list => acc ++ grades_list) lists all_grades.

Definition own_average_grade (grades : grades_dict) : outcome pyval :=
  let all_grades := extend_all [] (dict_values grades) in
  match all_grades with
  | _ :: _ => int_true_div (sum all_grades) (len all_grades)
  | [] => Return (VInt 0)
  end.

(** [x.grades] for an arbitrary value [x]. *)
Definition getattr_grades (h : heap) (x : pyval) : outcome grades_dict :=
  match x with
  | VObj l =>
      match h !! l ≫= grades_of with
      | Some g => Return g
      | None => Raise AttributeError
      end
  | _ => Raise AttributeError
  end.

(** The loop shared by the two course averages:
    [for x in xs: if course in x.grades: all_grades.extend(x.grades[course])]. *)
Fixpoint extend_course (h : heap) (course : string) (xs : list pyval)
    (all_grades : list Z) : outcome (list Z) :=
  match xs with
  | [] => Return all_grades
  | x :: xs' =>
      match getattr_grades h x with
      | Return g =>
          match dict_get course g with
          | Some grades => extend_course h course xs' (all_grades ++ grades)
          | None => extend_course h course xs' all_grades
          end
      | Raise e => Raise e
      end
  end.

Definition students_average_grade (h : heap) (students_list : list pyval)
    (course : string) : outcome pyval :=
  match extend_course h course students_list [] with
  | Return all_grades =>
      match all_grades with
      | _ :: _ => int_true_div (sum all_grades) (len all_grades)
      | [] => Return (VFloat (S754_zero false))
      end
  | Raise e => Raise e
  end.

Definition mentors_average_grade (h : heap) (lecturers_list : list pyval)
    (course : string) : outcome pyval :=
  match extend_course h course lecturers_list [] with
  | Return all_grades =>
      match all_grades with
      | _ :: _ => int_true_div (sum all_grades) (len all_grades)
      | [] => Return (VFloat (S754_zero false))
      end
  | Raise e => Raise e
  end.

(** ** Comparisons *)

(** [own_average_grade(a) OP own_average_grade(b)], left operand first. *)
Definition compare_averages (op : pyval -> pyval -> bool)
    (a b : grades_dict) : M pyval :=
  x ← lift (own_average_grade a);
  y ← lift (own_average_grade b);
  ret (VBool (op x y)).

Definition Student_eq (self : loc) (other : pyval) : M pyval :=
  s ← get_student self;
  o ← as_Student other;
  match o with
  | None => ret (VStr "COMPARE ERROR")
  | Some (_, s') => compare_averages num_eq (s_grades s) (s_grades s')
  end.

Definition Student_lt (self : loc) (other : pyval) : M pyval :=
  s ← get_student self;
  o ← as_Student other;
  match o with
  | None => ret (VStr "COMPARE ERROR")
  | Some (_, s') => compare_averages num_lt (s_grades s) (s_grades s')
  end.

(** The receiver of a [Lecturer] method. *)
Definition get_lecturer (self : loc) : M (Mentor * grades_dict) :=
  o ← get_obj self;
  match o with
  | OLecturer m g => ret (m, g)
  | _ => raise AttributeError
  end.

Definition Lecturer_eq (self : loc) (other : pyval) : M pyval :=
  l ← get_lecturer self;
  o ← as_Lecturer other;
  match o with
  | None => ret (VStr "COMPARE ERROR")
  | Some (_, _, g') => compare_averages num_eq (snd l) g'
  end.

Definition Lecturer_lt (self : loc) (other : pyval) : M pyval :=
  l ← get_lecturer self;
  o ← as_Lecturer other;
  match o with
  | None => ret (VStr "COMPARE ERROR")
  | Some (_, _, g') => compare_averages num_lt (snd l) g'
  end.

(** The comparison methods the classes do not define themselves:
    [__ne__] is inherited from [object], the other three are filled in by
    [functools.total_ordering] from [__lt__].  No [__eq__] or [__lt__] of
    the program returns [NotImplemented], so that branch never runs. *)
Section total_ordering.
Variables eq lt : loc -> pyval -> M pyval.

(** [object.__ne__]: the negated truth value of [__eq__]. *)
Definition ne_from_eq (self : loc) (other : pyval) : M pyval :=
  r ← eq self other;
  ret (VBool (negb (truthy r))).

(** [return not op_result and self != other] *)
Definition gt_from_lt (self : loc) (other : pyval) : M pyval :=
  op_result ← lt self other;
  if negb (truthy op_result) then ne_from_eq self other
  else ret (VBool false).

(** [return op_result or self == other] *)
Definition le_from_lt (self : loc) (other : pyval) : M pyval :=
  op_result ← lt self other;
  if truthy op_result then ret op_result
  else eq self other.

(** [return not op_result] *)
Definition ge_from_lt (self : loc) (other : pyval) : M pyval :=
  op_result ← lt self other;
  ret (VBool (negb (truthy op_result))).
End total_ordering.

Definition Student_ne := ne_from_eq Student_eq.
Definition Student_gt := gt_from_lt Student_eq Student_lt.
Definition Student_le := le_from_lt Student_eq Student_lt.
Definition Student_ge := ge_from_lt Student_lt.

Definition Lecturer_ne := ne_from_eq Lecturer_eq.
Definition Lecturer_gt := gt_from_lt Lecturer_eq Lecturer_lt.
Definition Lecturer_le := le_from_lt Lecturer_eq Lecturer_lt.
Definition Lecturer_ge := ge_from_lt Lecturer_lt.


(** * Vocabulary of the specification *)

(** The grade list of a course, empty when the course has no entry. *)
Definition course_grades (course : string) (d : grades_dict) : list Z :=
  default [] (dict_get course d).

(** The four conditions of [rate_lecture]: the argument is a lecturer, the
    course is attached to the lecturer, the rating student takes the course,
    and the grade is between 0 and 10. *)
Definition lecture_gate (h : heap) (s : Student) (lecturer : pyval)
    (course : string) (grade : Z) : Prop :=
  ∃ l m g, lecturer = VObj l ∧ h !! l = Some (OLecturer m g)
    ∧ course ∈ courses_attached m
    ∧ course ∈ courses_in_progress s
    ∧ 0 <= grade <= 10.

(** The three conditions of [rate_hw]: the argument is a student, the
    course is attached to the reviewer, and the student takes the course. *)
Definition hw_gate (h : heap) (r : Mentor) (student : pyval)
    (course : string) : Prop :=
  ∃ l s, student = VObj l ∧ h !! l = Some (OStudent s)
    ∧ course ∈ courses_attached r
    ∧ course ∈ courses_in_progress s.

(** ** Doubles as rational numbers *)

(** The least magnitude that rounds to [2^1024]: half a unit in the last
    place above the largest double. *)
Definition overflow_threshold : Z := 2 ^ 1024 - 2 ^ 970.

Definition float_value (f : spec_float) : Q :=
  match f with
  | S754_finite s m e => (inject_Z (if s then Zneg m else Zpos m) * 2 ^ e)%Q
  | _ => 0%Q
  end.

(** Half the distance between [f] and the next double of its binade. *)
Definition half_ulp (f : spec_float) : Q :=
  match f with
  | S754_finite _ _ e => (2 ^ (e - 1))%Q
  | _ => (2 ^ (-1075))%Q
  end.

(** A binary64 number: zero, or finite with a canonical significand and an
    exponent in range. *)
Definition is_double (f : spec_float) : Prop :=
  match f with
  | S754_zero _ => True
  | S754_finite _ m e => bounded 53 1024 m e = true
  | _ => False
  end.

(** [f] is a double within half a unit in the last place of [x]. *)
Definition rounds_to (x : Q) (f : spec_float) : Prop :=
  is_double f ∧ (Qabs (float_value f - x) <= half_ulp f)%Q.

(** [x] is below the magnitude from which rounding overflows. *)
Definition in_double_range (x : Q) : Prop :=
  (Qabs x < inject_Z overflow_threshold)%Q.

(** The value of a number, and the numbers [own_average_grade] returns. *)
Definition num_value (v : pyval) : Q :=
  match v with
  | VInt z => inject_Z z
  | VFloat f => float_value f
  | _ => 0%Q
  end.

Definition is_number (v : pyval) : Prop :=
  match v with
  | VInt _ => True
  | VFloat f => is_double f
  | _ => False
  end.

(** ** The rounding of a quotient, step by step

    [SFdiv] divides with a remainder, shifts the quotient right while it
    tracks where the dropped part lies, and rounds half to even.  The
    definitions below name the intermediate results for two positive
    integers [n] and [d]. *)

(** Where the fraction [r / D] lies between 0, one half and 1. *)
Definition loc_of_frac (r D : Z) : location :=
  if r =? 0 then loc_Exact else loc_Inexact (2 * r ?= D).

Definition frac_record (m r D : Z) : shr_record :=
  shr_record_of_loc m (loc_of_frac r D).

(** The record after [k] right shifts of the integer [m] followed by the
    fraction [r / D]. *)
Definition shifted (m r D k : Z) : shr_record :=
  frac_record (m / 2 ^ k) (m mod 2 ^ k * D + r) (2 ^ k * D).

(** Round half to even of the quotient [N / D]. *)
Definition rhe (N D : Z) : Z :=
  round_nearest_even (N / D) (loc_of_frac (N mod D) D).

(** [SFdiv] on integer significands with its helpers unfolded. *)
Definition div_closed (s : bool) (n d : Z) : spec_float :=
  let e' := Z.min (fexp 53 1024 (Zdigits2 n - Zdigits2 d)) 0 in
  let N := n * 2 ^ (- e') in
  let e1 := e' + Z.max 0 (fexp 53 1024 (Zdigits2 (N / d) + e') - e') in
  let mr := rhe N (2 ^ (e1 - e') * d) in
  let n2 := Z.max 0 (fexp 53 1024 (Zdigits2 mr + e1) - e1) in
  match mr / 2 ^ n2 with
  | Z0 => S754_zero s
  | Zpos m => if e1 + n2 <=? 1024 - 53 then S754_finite s m (e1 + n2)
              else S754_infinity s
  | Zneg _ => S754_nan
  end.

(** The exponent of the truncated quotient, the scaled dividend, the number
    of bits dropped, the exponent of the result and the rounded
    significand. *)
Definition div_e' (n d : Z) : Z :=
  Z.min (Z.max (Zdigits2 n - Zdigits2 d - 53) (-1074)) 0.

Definition div_N (n d : Z) : Z := n * 2 ^ (- div_e' n d).

Definition div_n1 (n d : Z) : Z := Z.max 0 (Zdigits2 (div_N n d / d) - 53).

Definition div_e1 (n d : Z) : Z := div_e' n d + div_n1 n d.

Definition div_mr (n d : Z) : Z := rhe (div_N n d) (2 ^ div_n1 n d * d).

(** The rounded quotient: zero, a double, or infinity. *)
Definition div_result (s : bool) (n d : Z) : spec_float :=
  let mr := div_mr n d in
  let e1 := div_e1 n d in
  if mr =? 0 then S754_zero s
  else if mr =? 2 ^ 53 then
    if e1 + 1 <=? 971 then S754_finite s (Z.to_pos (2 ^ 52)) (e1 + 1)
    else S754_infinity s
  else
    if e1 <=? 971 then S754_finite s (Z.to_pos mr) e1
    else S754_infinity s.

(** The value of the rounded quotient of [a] by a positive [b], whether or
    not it is in the range of doubles. *)
Definition rounded_quotient (a b : Z) : Q :=
  if a =? 0 then 0%Q
  else
    let v := (inject_Z (div_mr (Z.abs a) b) * 2 ^ div_e1 (Z.abs a) b)%Q in
    if a <? 0 then (- v)%Q else v.

(** ** Means *)

(** All grades of a grade map in one list, course after course. *)
Definition all_grades_of (d : grades_dict) : list Z := concat (dict_values d).

(** The mean of a list of grades as Python computes it: the quotient of the
    sum by the count, and [empty] when there is nothing to average. *)
Definition mean_or (empty : pyval) (grades : list Z) : outcome pyval :=
  match grades with
  | [] => Return empty
  | _ :: _ => int_true_div (sum grades) (len grades)
  end.

(** The exact arithmetic mean, a rational number. *)
Definition exact_mean (grades : list Z) : Q :=
  Qmake (sum grades) (Pos.of_nat (length grades)).

(** [v] is what averaging [grades] gives: the integer 0 for no grades, else
    a double within half a unit in the last place of the exact mean. *)
Definition rounded_mean (grades : list Z) (v : pyval) : Prop :=
  match grades with
  | [] => v = VInt 0
  | _ :: _ => ∃ f, v = VFloat f ∧ rounds_to (exact_mean grades) f
  end.

(** The grade list for [course] of [x], when [x] has an entry for it. *)
Definition course_entry (h : heap) (course : string) (x : pyval)
  : option (list Z) :=
  match x with
  | VObj l =>
      match h !! l ≫= grades_of with
      | Some g => dict_get course g
      | None => None
      end
  | _ => None
  end.

(** The grade lists for [course] of those members of [xs] that have an
    entry for it; a member without an entry contributes nothing. *)
Definition course_entries (h : heap) (course : string) (xs : list pyval)
  : list (list Z) :=
  omap (course_entry h course) xs.

(** Two means compared, the left one computed first. *)
Definition compare_means (op : pyval -> pyval -> bool)
    (grades1 grades2 : list Z) : outcome pyval :=
  match mean_or (VInt 0) grades1 with
  | Return x =>
      match mean_or (VInt 0) grades2 with
      | Return y => Return (VBool (op x y))
      | Raise e => Raise e
      end
  | Raise e => Raise e
  end.

(** [v] is a student, respectively a lecturer, of the heap. *)
Definition is_Student (h : heap) (v : pyval) : Prop :=
  ∃ l s, v = VObj l ∧ h !! l = Some (OStudent s).

Definition is_Lecturer (h : heap) (v : pyval) : Prop :=
  ∃ l m g, v = VObj l ∧ h !! l = Some (OLecturer m g).

(** ** Unique course lists and append-only grade maps *)

(** No course name occurs twice in a course list of the object. *)
Definition obj_unique (o : obj) : Prop :=
  match o with
  | OStudent s => NoDup (finished_courses s) ∧ NoDup (courses_in_progress s)
  | OMentor m | OLecturer m _ | OReviewer m => NoDup (courses_attached m)
  end.

Definition courses_unique (h : heap) : Prop :=
  ∀ l o, h !! l = Some o -> obj_unique o.

(** Every entry of [d] is still in [d'], with grades appended at most. *)
Definition dict_extends (d d' : grades_dict) : Prop :=
  ∀ c old, dict_get c d = Some old ->
    ∃ added, dict_get c d' = Some (old ++ added).

Definition obj_extends (o o' : obj) : Prop :=
  ∀ d, grades_of o = Some d ->
    ∃ d', grades_of o' = Some d' ∧ dict_extends d d'.

(** Every object is still there, and no grade map lost an entry or a grade. *)
Definition append_only (h h' : heap) : Prop :=
  ∀ l o, h !! l = Some o -> ∃ o', h' !! l = Some o' ∧ obj_extends o o'.

(** One call either leaves the heap alone, or allocates an object, or
    replaces one object by an extension of it that keeps lists unique. *)
Inductive heap_step (h : heap) : heap -> Prop :=
| step_same : heap_step h h
| step_alloc l o :
    h !! l = None -> obj_unique o -> heap_step h (<[l := o]> h)
| step_update l o o' :
    h !! l = Some o -> (obj_unique o -> obj_unique o') -> obj_extends o o' ->
    heap_step h (<[l := o']> h).

(** The public operations: the constructors and the five mutating methods. *)
Inductive call :=
| Call_Student (name surname gender : string)
| Call_Mentor (name surname : string)
| Call_Lecturer (name surname : string)
| Call_Reviewer (name surname : string)
| Call_add_finished_course (self : loc) (course : string)
| Call_add_courses_in_progress (self : loc) (course : string)
| Call_mentor_add_course (self : loc) (course : string)
| Call_rate_lecture (self : loc) (lecturer : pyval) (course : string)
    (grade : Z)
| Call_rate_hw (self : loc) (student : pyval) (course : string) (grade : Z).

Definition is_constructor (c : call) : bool :=
  match c with
  | Call_Student _ _ _ | Call_Mentor _ _ | Call_Lecturer _ _
  | Call_Reviewer _ _ => true
  | _ => false
  end.

Definition run (c : call) : M pyval :=
  match c with
  | Call_Student name surname gender =>
      l ← new_Student name surname gender; ret (VObj l)
  | Call_Mentor name surname => l ← new_Mentor name surname; ret (VObj l)
  | Call_Lecturer name surname => l ← new_Lecturer name surname; ret (VObj l)
  | Call_Reviewer name surname => l ← new_Reviewer name surname; ret (VObj l)
  | Call_add_finished_course self course => add_finished_course self course
  | Call_add_courses_in_progress self course =>
      add_courses_in_progress self course
  | Call_mentor_add_course self course => mentor_add_course self course
  | Call_rate_lecture self lecturer course grade =>
      rate_lecture self lecturer course grade
  | Call_rate_hw self student course grade =>
      rate_hw self student course grade
  end.

(** The heap after a sequence of calls, whatever each of them returned. *)
Definition run_all (cs : list call) (h : heap) : heap :=
  fold_left (fun h c => snd (run c h)) cs h.

(** ** A small world to run the methods in *)

Module Demo.

Definition ivan : Student :=
  mkStudent "Ivan" "Ivanov" "M" ["GIT"] ["Python"; "JavaScript"]
    [("Python", [9]); ("JavaScript", [10])].

Definition oleg : Mentor := mkMentor "Oleg" "Bulygin" ["Python"; "C++"].

Definition vladimir : Mentor :=
  mkMentor "Vladimir" "Smirnov" ["Python"; "JavaScript"].

Definition st : loc := 0%nat.
Definition lec : loc := 1%nat.
Definition rev : loc := 2%nat.

Definition world : heap :=
  <[st := OStudent ivan]>
    (<[lec := OLecturer oleg [("Python", [8])]]>
       (<[rev := OReviewer vladimir]> ∅)).

(** A grade beyond the range of doubles, and two grades that round to the
    same double. *)
Definition huge : Z := 2 ^ 1024.
Definition big_even : Z := 2 ^ 53.
Definition big_odd : Z := 2 ^ 53 + 1.

Definition anna : Student :=
  mkStudent "Anna" "Petrova" "F" [] ["Python"] [("Python", [big_even])].

Definition boris : Student :=
  mkStudent "Boris" "Sidorov" "M" [] ["Python"] [("Python", [big_odd])].

Definition clara : Student :=
  mkStudent "Clara" "Orlova" "F" [] ["Python"] [("Python", [huge])].

Definition maria : Student :=
  mkStudent "Maria" "Kozlova" "F" [] ["Python"] [("Python", [9; 8])].

Definition nikita : Student :=
  mkStudent "Nikita" "Volkov" "M" [] ["GIT"] [("GIT", [7])].

Definition ma : loc := 6%nat.
Definition ni : loc := 7%nat.

Definition an : loc := 3%nat.
Definition bo : loc := 4%nat.
Definition cl : loc := 5%nat.

Definition big_world : heap :=
  <[an := OStudent anna]>
    (<[bo := OStudent boris]>
       (<[cl := OStudent clara]>
          (<[ma := OStudent maria]> (<[ni := OStudent nikita]> world)))).

(** The examples of the specification, run from the empty heap: a student
    rates a lecturer with 8 and then with 12, a reviewer rates the
    student's homework with 9 and 8, and a second student has no grade. *)
Definition session : M (list pyval) :=
  s ← new_Student "Ivan" "Ivanov" "M";
  s' ← new_Student "Petr" "Petrov" "M";
  l ← new_Lecturer "Oleg" "Bulygin";
  r ← new_Reviewer "Vladimir" "Smirnov";
  add_courses_in_progress s "Python";;
  mentor_add_course l "Python";;
  mentor_add_course r "Python";;
  r1 ← rate_lecture s (VObj l) "Python" 8;
  r2 ← rate_lecture s (VObj l) "Python" 12;
  r3 ← rate_hw r (VObj s) "Python" 9;
  r4 ← rate_hw r (VObj s) "Python" 8;
  h ← get_heap;
  hw ← lift (getattr_grades h (VObj s));
  own ← lift (own_average_grade hw);
  avg ← lift (students_average_grade h [VObj s; VObj s'] "Python");
  lec ← lift (getattr_grades h (VObj l));
  ret [r1; r2; r3; r4; own; avg; VInt (len (course_grades "Python" lec))].

End Demo.

(** * The rest of the program *)

(** ** Read-only properties *)

(** [Student.name], [Student.surname] and [Student.gender]. *)
Definition Student_name (self : loc) : M pyval :=
  s ← get_student self; ret (VStr (s_name s)).

Definition Student_surname (self : loc) : M pyval :=
  s ← get_student self; ret (VStr (s_surname s)).

Definition Student_gender (self : loc) : M pyval :=
  s ← get_student self; ret (VStr (s_gender s)).

(** The receiver of a [Mentor] method: a mentor, a lecturer or a reviewer. *)
Definition get_mentor (self : loc) : M Mentor :=
  o ← get_obj self;
  match mentor_of o with
  | Some m => ret m
  | None => raise AttributeError
  end.

(** [Mentor.name] and [Mentor.surname], which [Lecturer] and [Reviewer]
    inherit. *)
Definition Mentor_name (self : loc) : M pyval :=
  m ← get_mentor self; ret (VStr (m_name m)).

Definition Mentor_surname (self : loc) : M pyval :=
  m ← get_mentor self; ret (VStr (m_surname m)).

(** ** [__str__]

    The f-strings of the three [__str__] methods are written over several
    source lines joined by a backslash: the twelve blanks that start each
    continuation line belong to the string and come before the ["\n"] that
    follows them.  Strings are sequences of UTF-8 bytes. *)

Definition nl : string := String (Ascii.ascii_of_nat 10) EmptyString.

Definition continuation : string := "            ".

(** [', '.join(l)] *)
Definition join (l : list string) : string := String.concat ", " l.

Section str.

(** [str(x)] for a float [x], the shortest decimal numeral that reads back
    as [x]: a builtin of the language, left open here. *)
Variable float_str : spec_float -> string.

(** The text a replacement field [{v}] of an f-string contributes. *)
Definition format_field (v : pyval) : string :=
  match v with
  | VNone => "None"
  | VBool b => if b then "True" else "False"
  | VInt z => pretty z
  | VFloat f => float_str f
  | VStr s => s
  | VObj _ => ""
  end.

Definition Student_str (self : loc) : M pyval :=
  s ← get_student self;
  average ← lift (own_average_grade (s_grades s));
  ret (VStr ("Имя: " +:+ s_name s +:+ continuation +:+ nl
             +:+ "Фамилия: " +:+ s_surname s +:+ continuation +:+ nl
             +:+ "Средняя оценка за домашние задания: "
             +:+ format_field average +:+ continuation +:+ nl
             +:+ "Курсы в процессе изучения: "
             +:+ join (courses_in_progress s) +:+ continuation +:+ nl
             +:+ "Завершенные курсы: " +:+ join (finished_courses s))).

Definition Lecturer_str (self : loc) : M pyval :=
  l ← get_lecturer self;
  average ← lift (own_average_grade (snd l));
  ret (VStr ("Имя: " +:+ m_name (fst l) +:+ continuation +:+ nl
             +:+ "Фамилия: " +:+ m_surname (fst l) +:+ continuation +:+ nl
             +:+ "Средняя оценка за лекции: " +:+ format_field average)).

Definition Reviewer_str (self : loc) : M pyval :=
  r ← get_reviewer self;
  ret (VStr ("Имя: " +:+ m_name r +:+ continuation +:+ nl
             +:+ "Фамилия: " +:+ m_surname r)).

End str.

(** ** The script at the end of the module

    The part of the [__main__] block that builds the objects: two students,
    two lecturers and two reviewers, their courses, four homework ratings
    and four lecture ratings. *)

Module Main.

Record entities := mkEntities {
  student1 : loc; student2 : loc;
  lecturer1 : loc; lecturer2 : loc;
  reviewer1 : loc; reviewer2 : loc
}.

Definition setup : M entities :=
  student1 ← new_Student "Иван" "Иванов" "М";
  student2 ← new_Student "Пётр" "Петров" "М";
  add_courses_in_progress student1 "Python";;
  add_courses_in_progress student1 "JavaScript";;
  add_courses_in_progress student2 "Python";;
  add_courses_in_progress student2 "GIT";;
  add_finished_course student1 "GIT";;
  add_finished_course student2 "JavaScript";;
  lecturer1 ← new_Lecturer "Олег" "Булыгин";
  lecturer2 ← new_Lecturer "Тимур" "Анвартдинов";
  mentor_add_course lecturer1 "Python";;
  mentor_add_course lecturer1 "C++";;
  mentor_add_course lecturer2 "Python";;
  mentor_add_course lecturer2 "JavaScript";;
  reviewer1 ← new_Reviewer "Владимир" "Смирнов";
  reviewer2 ← new_Reviewer "Елена" "Сидорова";
  mentor_add_course reviewer1 "Python";;
  mentor_add_course reviewer1 "JavaScript";;
  mentor_add_course reviewer2 "Python";;
  mentor_add_course reviewer2 "GIT";;
  rate_hw reviewer1 (VObj student1) "Python" 9;;
  rate_hw reviewer1 (VObj student1) "JavaScript" 10;;
  rate_hw reviewer2 (VObj student2) "Python" 8;;
  rate_hw reviewer2 (VObj student2) "GIT" 9;;
  rate_lecture student1 (VObj lecturer1) "Python" 8;;
  rate_lecture student1 (VObj lecturer1) "C++" 7;;
  rate_lecture student2 (VObj lecturer2) "Python" 10;;
  rate_lecture student2 (VObj lecturer2) "JavaScript" 9;;
  ret (mkEntities student1 student2 lecturer1 lecturer2 reviewer1 reviewer2).

(** The objects of the script and the heap it leaves. *)
Definition names : entities := mkEntities 0%nat 1%nat 2%nat 3%nat 4%nat 5%nat.

Definition world : heap := snd (setup ∅).

(** The same calls as a list, the objects named by their identities. *)
Definition calls : list call :=
  [Call_Student "Иван" "Иванов" "М";
   Call_Student "Пётр" "Петров" "М";
   Call_add_courses_in_progress 0%nat "Python";
   Call_add_courses_in_progress 0%nat "JavaScript";
   Call_add_courses_in_progress 1%nat "Python";
   Call_add_courses_in_progress 1%nat "GIT";
   Call_add_finished_course 0%nat "GIT";
   Call_add_finished_course 1%nat "JavaScript";
   Call_Lecturer "Олег" "Булыгин";
   Call_Lecturer "Тимур" "Анвартдинов";
   Call_mentor_add_course 2%nat "Python";
   Call_mentor_add_course 2%nat "C++";
   Call_mentor_add_course 3%nat "Python";
   Call_mentor_add_course 3%nat "JavaScript";
   Call_Reviewer "Владимир" "Смирнов";
   Call_Reviewer "Елена" "Сидорова";
   Call_mentor_add_course 4%nat "Python";
   Call_mentor_add_course 4%nat "JavaScript";
   Call_mentor_add_course 5%nat "Python";
   Call_mentor_add_course 5%nat "GIT";
   Call_rate_hw 4%nat (VObj 0%nat) "Python" 9;
   Call_rate_hw 4%nat (VObj 0%nat) "JavaScript" 10;
   Call_rate_hw 5%nat (VObj 1%nat) "Python" 8;
   Call_rate_hw 5%nat (VObj 1%nat) "GIT" 9;
   Call_rate_lecture 0%nat (VObj 2%nat) "Python" 8;
   Call_rate_lecture 0%nat (VObj 2%nat) "C++" 7;
   Call_rate_lecture 1%nat (VObj 3%nat) "Python" 10;
   Call_rate_lecture 1%nat (VObj 3%nat) "JavaScript" 9].

(** The values the script prints after the four headers: the two
    comparisons, the four own averages and the two course averages. *)
Definition report : M (list pyval) :=
  e ← setup;
  lecturers ← Lecturer_gt (lecturer1 e) (VObj (lecturer2 e));
  h ← get_heap;
  l1 ← lift (getattr_grades h (VObj (lecturer1 e)));
  l2 ← lift (getattr_grades h (VObj (lecturer2 e)));
  al1 ← lift (own_average_grade l1);
  al2 ← lift (own_average_grade l2);
  students ← Student_gt (student1 e) (VObj (student2 e));
  s1 ← lift (getattr_grades h (VObj (student1 e)));
  s2 ← lift (getattr_grades h (VObj (student2 e)));
  as1 ← lift (own_average_grade s1);
  as2 ← lift (own_average_grade s2);
  hw ← lift (students_average_grade h
               [VObj (student1 e); VObj (student2 e)] "Python");
  lectures ← lift (mentors_average_grade h
                     [VObj (lecturer1 e); VObj (lecturer2 e)] "Python");
  ret [lecturers; al1; al2; students; as1; as2; hw; lectures].

End Main.

(** * Vocabulary of the further properties *)

(** ** What one call can do to one object *)

(** The objects the four constructors make. *)
Inductive new_obj : obj -> Prop :=
| new_student name surname gender :
    new_obj (OStudent (mkStudent name surname gender [] [] []))
| new_mentor name surname : new_obj (OMentor (mkMentor name surname []))
| new_lecturer name surname : new_obj (OLecturer (mkMentor name surname []) [])
| new_reviewer name surname : new_obj (OReviewer (mkMentor name surname [])).

(** The changes the five mutating methods make to the object they write. *)
Inductive obj_update : obj -> obj -> Prop :=
| update_finished s course :
    course ∉ finished_courses s ->
    obj_update (OStudent s)
      (OStudent (with_finished_courses s (finished_courses s ++ [course])))
| update_in_progress s course :
    course ∉ courses_in_progress s ->
    obj_update (OStudent s)
      (OStudent
         (with_courses_in_progress s (courses_in_progress s ++ [course])))
| update_attached o m course :
    mentor_of o = Some m -> course ∉ courses_attached m ->
    obj_update o
      (with_mentor o (with_courses_attached m (courses_attached m ++ [course])))
| update_lecture m g course grade :
    course ∈ courses_attached m -> 0 <= grade <= 10 ->
    obj_update (OLecturer m g) (OLecturer m (record_grade course grade g))
| update_hw s course grade :
    course ∈ courses_in_progress s ->
    obj_update (OStudent s)
      (OStudent (with_grades s (record_grade course grade (s_grades s)))).

(** A property of objects that holds throughout a heap. *)
Definition heap_all (P : obj -> Prop) (h : heap) : Prop :=
  ∀ l o, h !! l = Some o -> P o.

(** Every object of [h] is still in [h'], related by [R] to what it was. *)
Definition heap_rel (R : obj -> obj -> Prop) (h h' : heap) : Prop :=
  ∀ l o, h !! l = Some o -> ∃ o', h' !! l = Some o' ∧ R o o'.

(** ** Invariants of objects *)

(** All grades lie between [lo] and [hi]. *)
Definition grades_within (lo hi : Z) (grades : list Z) : Prop :=
  Forall (fun x => lo <= x <= hi) grades.

(** The grades a lecturer received lie between 0 and 10. *)
Definition lecture_grades_in_range (o : obj) : Prop :=
  match o with
  | OLecturer _ g => grades_within 0 10 (all_grades_of g)
  | _ => True
  end.

(** Every entry of [d] is for one of [courses] and has at least one grade. *)
Definition entries_known (courses : list string) (d : grades_dict) : Prop :=
  ∀ c l, (c, l) ∈ d -> c ∈ courses ∧ l ≠ [].

(** A student has grades only for courses in progress and a lecturer only
    for attached courses, and no grade list is empty. *)
Definition graded_courses_known (o : obj) : Prop :=
  match o with
  | OStudent s => entries_known (courses_in_progress s) (s_grades s)
  | OLecturer m g => entries_known (courses_attached m) g
  | _ => True
  end.

(** [o'] is [o] later: the same class, the same name, surname and gender,
    and every course list continued. *)
Definition obj_grows (o o' : obj) : Prop :=
  match o, o' with
  | OStudent s, OStudent s' =>
      s_name s' = s_name s ∧ s_surname s' = s_surname s
      ∧ s_gender s' = s_gender s
      ∧ finished_courses s `prefix_of` finished_courses s'
      ∧ courses_in_progress s `prefix_of` courses_in_progress s'
  | OMentor m, OMentor m' | OLecturer m _, OLecturer m' _
  | OReviewer m, OReviewer m' =>
      m_name m' = m_name m ∧ m_surname m' = m_surname m
      ∧ courses_attached m `prefix_of` courses_attached m'
  | _, _ => False
  end.

(** [x] has the attribute [grades]: it is a student or a lecturer. *)
Definition has_grades (h : heap) (x : pyval) : Prop :=
  is_Student h x ∨ is_Lecturer h x.

(** The grades of an object as one list; empty for an object without. *)
Definition obj_grades (o : obj) : list Z :=
  match grades_of o with
  | Some g => all_grades_of g
  | None => []
  end.

(** The course a rating call is for. *)
Definition rated_course (c : call) : option string :=
  match c with
  | Call_rate_lecture _ _ course _ | Call_rate_hw _ _ course _ => Some course
  | _ => None
  end.
(** * Properties *)

(** ** Dictionaries *)

Lemma dict_get_set_eq k v d : dict_get k (dict_set k v d) = Some v.
Proof.
  induction d as [|[k' v'] d IH]; simpl.
  - by rewrite decide_True.
  - destruct (decide (k = k')) as [->|Hne]; simpl.
    + by rewrite decide_True.
    + by rewrite decide_False.
Qed.

Lemma dict_get_set_ne k k' v d :
  k' ≠ k -> dict_get k' (dict_set k v d) = dict_get k' d.
Proof.
  intros Hne. induction d as [|[k1 v1] d IH]; simpl.
  - by rewrite decide_False.
  - destruct (decide (k = k1)) as [->|Hk]; simpl.
    + by rewrite !decide_False.
    + destruct (decide (k' = k1)); [done | apply IH].
Qed.

Lemma record_grade_eq course grade d :
  dict_get course (record_grade course grade d)
  = Some (course_grades course d ++ [grade]).
Proof.
  unfold record_grade, course_grades.
  destruct (dict_get course d); simpl; apply dict_get_set_eq.
Qed.

Lemma record_grade_ne course grade d c :
  c ≠ course -> dict_get c (record_grade course grade d) = dict_get c d.
Proof.
  intros Hne. unfold record_grade.
  destruct (dict_get course d); by apply dict_get_set_ne.
Qed.

(** ** Running a method *)

Ltac run_method :=
  unfold get_student, get_reviewer, get_lecturer;
  unfold mbind, M_bind, bind, get_obj, set_obj, ret, raise, lift,
    as_Student, as_Lecturer;
  simpl.

(** ** Adding courses *)

Lemma add_finished_course_run h self s course :
  h !! self = Some (OStudent s) ->
  add_finished_course self course h =
    if decide (course ∈ finished_courses s)
    then (Return (VStr "add_finished_course ERROR"), h)
    else (Return VNone,
          <[self := OStudent
              (with_finished_courses s (finished_courses s ++ [course]))]> h).
Proof.
  intros Hs. unfold add_finished_course. run_method. rewrite Hs.
  destruct (decide (course ∈ finished_courses s)).
  - by rewrite decide_False by tauto.
  - by rewrite decide_True.
Qed.

Lemma add_courses_in_progress_run h self s course :
  h !! self = Some (OStudent s) ->
  add_courses_in_progress self course h =
    if decide (course ∈ courses_in_progress s)
    then (Return (VStr "add_courses_in_progress ERROR"), h)
    else (Return VNone,
          <[self := OStudent
              (with_courses_in_progress s
                 (courses_in_progress s ++ [course]))]> h).
Proof.
  intros Hs. unfold add_courses_in_progress. run_method. rewrite Hs.
  destruct (decide (course ∈ courses_in_progress s)).
  - by rewrite decide_False by tauto.
  - by rewrite decide_True.
Qed.

Lemma mentor_add_course_run h self o m course :
  h !! self = Some o ->
  mentor_of o = Some m ->
  mentor_add_course self course h =
    if decide (course ∈ courses_attached m)
    then (Return (VStr "mentor_add_course ERROR"), h)
    else (Return VNone,
          <[self := with_mentor o
              (with_courses_attached m (courses_attached m ++ [course]))]> h).
Proof.
  intros Ho Hm. unfold mentor_add_course. run_method. rewrite Ho, Hm.
  destruct (decide (course ∈ courses_attached m)).
  - by rewrite decide_False by tauto.
  - by rewrite decide_True.
Qed.

(** C4: on each of the three unique-course lists, adding a course that is
    already there leaves the heap (hence the list) unchanged and returns the
    operation's error string; adding an absent course returns [None] and
    stores an object whose list is the old list followed by the course,
    with every other attribute as it was. *)
Theorem add_course_once (h : heap) (self : loc) (course : string) :
  (∀ s, h !! self = Some (OStudent s) ->
     (course ∈ finished_courses s ->
      add_finished_course self course h
      = (Return (VStr "add_finished_course ERROR"), h))
     ∧ (course ∉ finished_courses s ->
        ∃ s', add_finished_course self course h
              = (Return VNone, <[self := OStudent s']> h)
          ∧ finished_courses s' = finished_courses s ++ [course]
          ∧ courses_in_progress s' = courses_in_progress s
          ∧ s_grades s' = s_grades s
          ∧ s_name s' = s_name s ∧ s_surname s' = s_surname s
          ∧ s_gender s' = s_gender s)
     ∧ (course ∈ courses_in_progress s ->
        add_courses_in_progress self course h
        = (Return (VStr "add_courses_in_progress ERROR"), h))
     ∧ (course ∉ courses_in_progress s ->
        ∃ s', add_courses_in_progress self course h
              = (Return VNone, <[self := OStudent s']> h)
          ∧ courses_in_progress s' = courses_in_progress s ++ [course]
          ∧ finished_courses s' = finished_courses s
          ∧ s_grades s' = s_grades s
          ∧ s_name s' = s_name s ∧ s_surname s' = s_surname s
          ∧ s_gender s' = s_gender s))
  /\ (∀ o m, h !! self = Some o -> mentor_of o = Some m ->
     (course ∈ courses_attached m ->
      mentor_add_course self course h
      = (Return (VStr "mentor_add_course ERROR"), h))
     ∧ (course ∉ courses_attached m ->
        ∃ o' m', mentor_add_course self course h
                 = (Return VNone, <[self := o']> h)
          ∧ mentor_of o' = Some m'
          ∧ courses_attached m' = courses_attached m ++ [course]
          ∧ m_name m' = m_name m ∧ m_surname m' = m_surname m
          ∧ grades_of o' = grades_of o
          ∧ obj_grows o o')).
Proof.
  split.
  - intros s Hs.
    rewrite (add_finished_course_run h self s course Hs).
    rewrite (add_courses_in_progress_run h self s course Hs).
    split; [|split; [|split]].
    + intros Hin. by rewrite decide_True.
    + intros Hnot. rewrite decide_False by done.
      by exists (with_finished_courses s (finished_courses s ++ [course])).
    + intros Hin. by rewrite decide_True.
    + intros Hnot. rewrite decide_False by done.
      by exists (with_courses_in_progress s
                   (courses_in_progress s ++ [course])).
  - intros o m Ho Hm.
    rewrite (mentor_add_course_run h self o m course Ho Hm). split.
    + intros Hin. by rewrite decide_True.
    + intros Hnot. rewrite decide_False by done.
      eexists _, (with_courses_attached m (courses_attached m ++ [course])).
      split; [reflexivity|].
      destruct o as [s|m0|m0 g|m0]; simplify_eq/=;
        repeat split; by apply prefix_app_r.
Qed.

Lemma add_course_once_witness :
  add_finished_course Demo.st "GIT" Demo.world
    = (Return (VStr "add_finished_course ERROR"), Demo.world)
  /\ (∃ s', add_courses_in_progress Demo.st "GIT" Demo.world
            = (Return VNone, <[Demo.st := OStudent s']> Demo.world)
        ∧ courses_in_progress s' = ["Python"; "JavaScript"; "GIT"]
        ∧ finished_courses s' = ["GIT"]
        ∧ s_grades s' = [("Python", [9]); ("JavaScript", [10])])
  /\ mentor_add_course Demo.rev "Python" Demo.world
    = (Return (VStr "mentor_add_course ERROR"), Demo.world)
  /\ (∃ o' m', mentor_add_course Demo.rev "GIT" Demo.world
               = (Return VNone, <[Demo.rev := o']> Demo.world)
        ∧ mentor_of o' = Some m'
        ∧ courses_attached m' = ["Python"; "JavaScript"; "GIT"]
        ∧ m_name m' = "Vladimir").
Proof.
  assert (Hs : Demo.world !! Demo.st = Some (OStudent Demo.ivan))
    by reflexivity.
  assert (Hr : Demo.world !! Demo.rev = Some (OReviewer Demo.vladimir))
    by reflexivity.
  destruct (proj1 (add_course_once Demo.world Demo.st "GIT") _ Hs)
    as (Hdup & _ & _ & Hadd).
  destruct (proj2 (add_course_once Demo.world Demo.rev "Python") _ _ Hr
              eq_refl) as (Hdup' & _).
  destruct (proj2 (add_course_once Demo.world Demo.rev "GIT") _ _ Hr
              eq_refl) as (_ & Hadd').
  split; [|split; [|split]].
  - apply Hdup. by apply (bool_decide_unpack _).
  - destruct Hadd as (s' & Hrun & Hp & Hf & Hg & _);
      [by apply (bool_decide_unpack _)|].
    exists s'. by rewrite Hrun, Hp, Hf, Hg.
  - apply Hdup'. by apply (bool_decide_unpack _).
  - destruct Hadd' as (o' & m' & Hrun & Hm & Ha & Hn & _);
      [by apply (bool_decide_unpack _)|].
    exists o', m'. by rewrite Hrun, Hm, Ha, Hn.
Defined.

(** ** Rating a lecture *)

(** C1: [rate_lecture] appends the grade to the lecturer's list for the
    course exactly when its four conditions hold; when one of them fails it
    returns the error string and the heap, hence the student and the
    lecturer, is unchanged. *)
Theorem rate_lecture_all_or_nothing (h : heap) (self : loc) (s : Student)
    (lecturer : pyval) (course : string) (grade : Z) :
  h !! self = Some (OStudent s) ->
  (lecture_gate h s lecturer course grade
   /\ (∃ l m g, lecturer = VObj l ∧ h !! l = Some (OLecturer m g)
        ∧ rate_lecture self lecturer course grade h
          = (Return VNone,
             <[l := OLecturer m (record_grade course grade g)]> h)
        ∧ dict_get course (record_grade course grade g)
          = Some (course_grades course g ++ [grade])))
  \/ (¬ lecture_gate h s lecturer course grade
      /\ rate_lecture self lecturer course grade h
         = (Return (VStr "ERROR!"), h)).
Proof.
  intros Hs. unfold rate_lecture, lecture_gate. run_method. rewrite Hs.
  destruct lecturer as [| | | | |l];
    try (right; split; [by intros (?&?&?&?&?)|done]).
  destruct (h !! l) as [[| |m g|]|] eqn:Hl;
    try (right; split;
         [intros (?&?&?&[= <-]&?&?); congruence|done]).
  destruct (decide (course ∈ courses_attached m)) as [Ha|Ha];
    [rewrite (bool_decide_eq_true_2 _ Ha)
    |rewrite (bool_decide_eq_false_2 _ Ha)]; simpl.
  2: { right. split; [|done].
       intros (l'&m'&g'&[= <-]&Hl'&Hin&_).
       rewrite Hl in Hl'. by injection Hl' as <- <-. }
  destruct (decide (course ∈ courses_in_progress s)) as [Hp|Hp];
    [rewrite (bool_decide_eq_true_2 _ Hp)
    |rewrite (bool_decide_eq_false_2 _ Hp)]; simpl.
  2: { right. split; [|done]. intros (?&?&?&?&?&?&?&?). done. }
  destruct (0 <=? grade) eqn:H0; simpl.
  2: { right. split; [|done]. intros (?&?&?&?&?&?&?&?). lia. }
  destruct (grade <=? 10) eqn:H10; simpl.
  2: { right. split; [|done]. intros (?&?&?&?&?&?&?&?). lia. }
  left. split.
  - exists l, m, g. repeat split; [done..|lia|lia].
  - exists l, m, g. repeat split; [done|]. apply record_grade_eq.
Qed.

Lemma rate_lecture_all_or_nothing_witness :
  Demo.world !! Demo.st = Some (OStudent Demo.ivan)
  /\ rate_lecture Demo.st (VObj Demo.lec) "Python" 7 Demo.world
     = (Return VNone,
        <[Demo.lec := OLecturer Demo.oleg [("Python", [8; 7])]]> Demo.world)
  /\ rate_lecture Demo.st (VObj Demo.lec) "Python" 12 Demo.world
     = (Return (VStr "ERROR!"), Demo.world).
Proof.
  assert (Hs : Demo.world !! Demo.st = Some (OStudent Demo.ivan))
    by reflexivity.
  split; [exact Hs|]. split.
  - destruct (rate_lecture_all_or_nothing Demo.world Demo.st Demo.ivan
                (VObj Demo.lec) "Python" 7 Hs)
      as [(_ & l & m & g & Hl & Hg & Hrun & _)|[Hno _]].
    + injection Hl as <-. rewrite Hrun.
      assert (Hlec : Demo.world !! Demo.lec
                     = Some (OLecturer Demo.oleg [("Python", [8])]))
        by reflexivity.
      rewrite Hlec in Hg. injection Hg as <- <-. reflexivity.
    + exfalso. apply Hno.
      exists Demo.lec, Demo.oleg, [("Python", [8])].
      repeat split; try reflexivity; try lia; repeat constructor.
  - destruct (rate_lecture_all_or_nothing Demo.world Demo.st Demo.ivan
                (VObj Demo.lec) "Python" 12 Hs)
      as [((l & m & g & _ & _ & _ & _ & _ & Hgr) & _)|[_ Hrun]].
    + exfalso. lia.
    + exact Hrun.
Defined.

(** ** Rating homework *)

(** C2: [rate_hw] appends the grade as given, whatever its value, to the
    student's homework list for the course exactly when its three conditions
    hold: the student stored afterwards has the old list of the course
    followed by the grade, every other entry of the grade map and every
    other attribute as before.  When one of the conditions fails the call
    returns the error string and the heap, hence the student's grade map,
    is unchanged. *)
Theorem rate_hw_all_or_nothing (h : heap) (self : loc) (r : Mentor)
    (student : pyval) (course : string) (grade : Z) :
  h !! self = Some (OReviewer r) ->
  (hw_gate h r student course
   /\ (∃ l s s', student = VObj l ∧ h !! l = Some (OStudent s)
        ∧ rate_hw self student course grade h
          = (Return VNone, <[l := OStudent s']> h)
        ∧ dict_get course (s_grades s')
          = Some (course_grades course (s_grades s) ++ [grade])
        ∧ (∀ c, c ≠ course ->
             dict_get c (s_grades s') = dict_get c (s_grades s))
        ∧ s_name s' = s_name s ∧ s_surname s' = s_surname s
        ∧ s_gender s' = s_gender s
        ∧ finished_courses s' = finished_courses s
        ∧ courses_in_progress s' = courses_in_progress s))
  \/ (¬ hw_gate h r student course
      /\ rate_hw self student course grade h
         = (Return (VStr "rate_hw function ERROR"), h)).
Proof.
  intros Hr. unfold rate_hw, hw_gate. run_method. rewrite Hr.
  destruct student as [| | | | |l];
    try (right; split; [by intros (?&?&?&?)|done]).
  destruct (h !! l) as [[s| | |]|] eqn:Hl;
    try (right; split; [intros (?&?&[= <-]&?&?); congruence|done]).
  destruct (decide (course ∈ courses_attached r)) as [Ha|Ha];
    [rewrite (bool_decide_eq_true_2 _ Ha)
    |rewrite (bool_decide_eq_false_2 _ Ha)]; simpl.
  2: { right. split; [|done]. by intros (?&?&?&?&?&?). }
  destruct (decide (course ∈ courses_in_progress s)) as [Hp|Hp];
    [rewrite (bool_decide_eq_true_2 _ Hp)
    |rewrite (bool_decide_eq_false_2 _ Hp)]; simpl.
  2: { right. split; [|done].
       intros (l'&s'&[= <-]&Hl'&_&Hin).
       rewrite Hl in Hl'. by injection Hl' as <-. }
  left. split.
  - by exists l, s.
  - exists l, s, (with_grades s (record_grade course grade (s_grades s))).
    do 3 (split; [done|]). simpl.
    split; [apply record_grade_eq|].
    split; [intros c Hc; by apply record_grade_ne|]. done.
Qed.

Lemma rate_hw_all_or_nothing_witness :
  Demo.world !! Demo.rev = Some (OReviewer Demo.vladimir)
  /\ (∃ s', rate_hw Demo.rev (VObj Demo.st) "Python" 12 Demo.world
            = (Return VNone, <[Demo.st := OStudent s']> Demo.world)
        ∧ dict_get "Python" (s_grades s') = Some [9; 12]
        ∧ dict_get "JavaScript" (s_grades s') = Some [10]
        ∧ courses_in_progress s' = ["Python"; "JavaScript"]
        ∧ finished_courses s' = ["GIT"]
        ∧ s_name s' = "Ivan")
  /\ rate_hw Demo.rev (VObj Demo.lec) "Python" 9 Demo.world
     = (Return (VStr "rate_hw function ERROR"), Demo.world).
Proof.
  assert (Hr : Demo.world !! Demo.rev = Some (OReviewer Demo.vladimir))
    by reflexivity.
  split; [exact Hr|]. split.
  - destruct (rate_hw_all_or_nothing Demo.world Demo.rev Demo.vladimir
                (VObj Demo.st) "Python" 12 Hr)
      as [(_ & l & s & s' & Hl & Hs & Hrun & Hc & Ho & Hn & _ & _ & Hf & Hp)
         |[Hno _]].
    + injection Hl as <-.
      assert (Hst : Demo.world !! Demo.st = Some (OStudent Demo.ivan))
        by reflexivity.
      rewrite Hst in Hs. injection Hs as <-.
      exists s'. rewrite Hrun, Hc, Hf, Hp, Hn.
      rewrite (Ho "JavaScript") by discriminate. by repeat split.
    + exfalso. apply Hno. exists Demo.st, Demo.ivan.
      repeat split; try reflexivity; repeat constructor.
  - destruct (rate_hw_all_or_nothing Demo.world Demo.rev Demo.vladimir
                (VObj Demo.lec) "Python" 9 Hr)
      as [((l & s & Hl & Hs & _) & _)|[_ Hrun]].
    + exfalso. injection Hl as <-.
      assert (Hlec : Demo.world !! Demo.lec
                     = Some (OLecturer Demo.oleg [("Python", [8])]))
        by reflexivity.
      rewrite Hlec in Hs. discriminate Hs.
    + exact Hrun.
Defined.

(** C9: neither add operation of a student looks at the other list.  A
    course the student is taking and has not finished can be added to the
    finished courses, and a course the student has finished and is not
    taking can be added to the courses in progress: either call returns
    [None], appends the course to its own list, leaves the other list as
    it was, and afterwards the course is in both lists of the student. *)
Theorem finished_and_in_progress (h : heap) (self : loc) (s : Student)
    (course : string) :
  h !! self = Some (OStudent s) ->
  (course ∈ courses_in_progress s ->
   course ∉ finished_courses s ->
   ∃ s', add_finished_course self course h
         = (Return VNone, <[self := OStudent s']> h)
     ∧ finished_courses s' = finished_courses s ++ [course]
     ∧ courses_in_progress s' = courses_in_progress s
     ∧ course ∈ finished_courses s'
     ∧ course ∈ courses_in_progress s')
  /\ (course ∈ finished_courses s ->
      course ∉ courses_in_progress s ->
      ∃ s', add_courses_in_progress self course h
            = (Return VNone, <[self := OStudent s']> h)
        ∧ courses_in_progress s' = courses_in_progress s ++ [course]
        ∧ finished_courses s' = finished_courses s
        ∧ course ∈ finished_courses s'
        ∧ course ∈ courses_in_progress s').
Proof.
  intros Hs. split; intros Hin Hnot.
  - exists (with_finished_courses s (finished_courses s ++ [course])).
    rewrite (add_finished_course_run h self s course Hs).
    rewrite decide_False by done.
    repeat split; [|done].
    simpl. apply elem_of_app. right. constructor.
  - exists (with_courses_in_progress s (courses_in_progress s ++ [course])).
    rewrite (add_courses_in_progress_run h self s course Hs).
    rewrite decide_False by done.
    repeat split; [done|].
    simpl. apply elem_of_app. right. constructor.
Qed.

Lemma finished_and_in_progress_witness :
  Demo.world !! Demo.st = Some (OStudent Demo.ivan)
  /\ (∃ s', add_finished_course Demo.st "Python" Demo.world
            = (Return VNone, <[Demo.st := OStudent s']> Demo.world)
        ∧ finished_courses s' = ["GIT"; "Python"]
        ∧ courses_in_progress s' = ["Python"; "JavaScript"]
        ∧ "Python" ∈ finished_courses s'
        ∧ "Python" ∈ courses_in_progress s')
  /\ (∃ s', add_courses_in_progress Demo.st "GIT" Demo.world
            = (Return VNone, <[Demo.st := OStudent s']> Demo.world)
        ∧ courses_in_progress s' = ["Python"; "JavaScript"; "GIT"]
        ∧ finished_courses s' = ["GIT"]
        ∧ "GIT" ∈ finished_courses s'
        ∧ "GIT" ∈ courses_in_progress s').
Proof.
  assert (Hs : Demo.world !! Demo.st = Some (OStudent Demo.ivan))
    by reflexivity.
  split; [exact Hs|]. split.
  - apply (proj1 (finished_and_in_progress Demo.world Demo.st Demo.ivan
                    "Python" Hs)); by apply (bool_decide_unpack _).
  - apply (proj2 (finished_and_in_progress Demo.world Demo.st Demo.ivan
                    "GIT" Hs)); by apply (bool_decide_unpack _).
Defined.

(** ** What a successful rating touches *)

Lemma rate_lecture_success h self lecturer course grade h' :
  rate_lecture self lecturer course grade h = (Return VNone, h') ->
  ∃ s l m g, h !! self = Some (OStudent s) ∧ lecturer = VObj l
    ∧ h !! l = Some (OLecturer m g)
    ∧ h' = <[l := OLecturer m (record_grade course grade g)]> h.
Proof.
  unfold rate_lecture. run_method.
  destruct (h !! self) as [[s| | |]|] eqn:Hs; try done.
  destruct lecturer as [| | | | |l]; try done.
  destruct (h !! l) as [[| |m g|]|] eqn:Hl; try done.
  destruct (_ && _); [|done].
  intros [= <-]. by exists s, l, m, g.
Qed.

Lemma rate_hw_success h self student course grade h' :
  rate_hw self student course grade h = (Return VNone, h') ->
  ∃ r l s, h !! self = Some (OReviewer r) ∧ student = VObj l
    ∧ h !! l = Some (OStudent s)
    ∧ h' = <[l := OStudent
               (with_grades s (record_grade course grade (s_grades s)))]> h.
Proof.
  unfold rate_hw. run_method.
  destruct (h !! self) as [[| | |r]|] eqn:Hr; try done.
  destruct student as [| | | | |l]; try done.
  destruct (h !! l) as [[s| | |]|] eqn:Hl; try done.
  destruct (_ && _); [|done].
  intros [= <-]. by exists r, l, s.
Qed.

(** C10: a successful [rate_lecture] replaces the lecturer by a lecturer with
    the same mentor fields whose grade map differs only at the course; every
    other object of the heap, the rating student among them, is the same
    object as before.  A successful [rate_hw] does the same to the student:
    name, surname, gender and both course lists of the student stored
    afterwards are those of the student before, the grade map differs only
    at the course, where the grade is appended, and every other object is
    untouched. *)
Theorem rating_frame (h : heap) (self : loc) (course : string) (grade : Z) :
  (∀ lecturer h',
      rate_lecture self lecturer course grade h = (Return VNone, h') ->
      ∃ l m g g',
        lecturer = VObj l ∧ h !! l = Some (OLecturer m g)
        ∧ h' !! l = Some (OLecturer m g')
        ∧ (∀ c, c ≠ course -> dict_get c g' = dict_get c g)
        ∧ (∀ l', l' ≠ l -> h' !! l' = h !! l')
        ∧ h' !! self = h !! self)
  /\ (∀ student h',
      rate_hw self student course grade h = (Return VNone, h') ->
      ∃ l s s',
        student = VObj l ∧ h !! l = Some (OStudent s)
        ∧ h' !! l = Some (OStudent s')
        ∧ s_name s' = s_name s ∧ s_surname s' = s_surname s
        ∧ s_gender s' = s_gender s
        ∧ finished_courses s' = finished_courses s
        ∧ courses_in_progress s' = courses_in_progress s
        ∧ dict_get course (s_grades s')
          = Some (course_grades course (s_grades s) ++ [grade])
        ∧ (∀ c, c ≠ course ->
             dict_get c (s_grades s') = dict_get c (s_grades s))
        ∧ (∀ l', l' ≠ l -> h' !! l' = h !! l')
        ∧ h' !! self = h !! self).
Proof.
  split.
  - intros lecturer h' H1.
    apply rate_lecture_success in H1 as (s & l & m & g & Hs & -> & Hl & ->).
    exists l, m, g, (record_grade course grade g).
    repeat split; [done| |..].
    + by rewrite lookup_insert_eq.
    + intros c Hc. by apply record_grade_ne.
    + intros l' Hl'. by rewrite lookup_insert_ne.
    + rewrite lookup_insert_ne; [done|]. intros ->. congruence.
  - intros student h' H2.
    apply rate_hw_success in H2 as (r & l & s & Hr & -> & Hl & ->).
    exists l, s, (with_grades s (record_grade course grade (s_grades s))).
    split; [done|]. split; [done|].
    split; [by rewrite lookup_insert_eq|].
    do 5 (split; [done|]). simpl.
    split; [apply record_grade_eq|].
    split; [intros c Hc; by apply record_grade_ne|].
    split; [intros l' Hl'; by rewrite lookup_insert_ne|].
    rewrite lookup_insert_ne; [done|]. intros ->. congruence.
Qed.

Lemma rating_frame_witness :
  (∃ h', rate_lecture Demo.st (VObj Demo.lec) "Python" 7 Demo.world
         = (Return VNone, h')
     ∧ h' !! Demo.st = Demo.world !! Demo.st
     ∧ h' !! Demo.rev = Demo.world !! Demo.rev)
  /\ (∃ h' s', rate_hw Demo.rev (VObj Demo.st) "Python" 12 Demo.world
         = (Return VNone, h')
     ∧ h' !! Demo.st = Some (OStudent s')
     ∧ s_name s' = "Ivan" ∧ s_surname s' = "Ivanov" ∧ s_gender s' = "M"
     ∧ finished_courses s' = ["GIT"]
     ∧ courses_in_progress s' = ["Python"; "JavaScript"]
     ∧ dict_get "Python" (s_grades s') = Some [9; 12]
     ∧ dict_get "JavaScript" (s_grades s') = Some [10]
     ∧ h' !! Demo.rev = Demo.world !! Demo.rev
     ∧ h' !! Demo.lec = Demo.world !! Demo.lec).
Proof.
  split.
  - eexists. split; [reflexivity|].
    destruct (proj1 (rating_frame Demo.world Demo.st "Python" 7)
                (VObj Demo.lec) _ eq_refl)
      as (l & m & g & g' & Hl & _ & _ & _ & Hother & Hself).
    injection Hl as <-. split; [exact Hself|].
    apply Hother. discriminate.
  - destruct (proj2 (rating_frame Demo.world Demo.rev "Python" 12)
                (VObj Demo.st) _ eq_refl)
      as (l & s & s' & Hl & Hs & Hs' & Hn & Hsn & Hg & Hf & Hp & Hc & Ho
          & Hother & Hself).
    injection Hl as <-.
    assert (Hst : Demo.world !! Demo.st = Some (OStudent Demo.ivan))
      by reflexivity.
    rewrite Hst in Hs. injection Hs as <-.
    eexists _, s'. split; [reflexivity|]. split; [exact Hs'|].
    rewrite Hn, Hsn, Hg, Hf, Hp, Hc, (Ho "JavaScript") by discriminate.
    do 7 (split; [reflexivity|]). split; [exact Hself|].
    apply Hother. discriminate.
Defined.

(** ** Unique course lists, append-only grade maps *)

Lemma NoDup_append (l : list string) (c : string) :
  NoDup l -> c ∉ l -> NoDup (l ++ [c]).
Proof.
  intros Hl Hc. apply NoDup_app. repeat split; [done| |apply NoDup_singleton].
  intros x Hx Hx'. apply list_elem_of_singleton in Hx'. by subst.
Qed.

Lemma dict_extends_refl d : dict_extends d d.
Proof. intros c old H. exists []. by rewrite app_nil_r. Qed.

Lemma dict_extends_trans d1 d2 d3 :
  dict_extends d1 d2 -> dict_extends d2 d3 -> dict_extends d1 d3.
Proof.
  intros H12 H23 c old H.
  destruct (H12 c old H) as [a1 H1].
  destruct (H23 c _ H1) as [a2 H2].
  exists (a1 ++ a2). by rewrite app_assoc.
Qed.

Lemma dict_extends_record course grade d :
  dict_extends d (record_grade course grade d).
Proof.
  intros c old H. destruct (decide (c = course)) as [->|Hne].
  - exists [grade]. rewrite record_grade_eq. unfold course_grades.
    by rewrite H.
  - exists []. rewrite record_grade_ne by done. by rewrite app_nil_r.
Qed.

Lemma obj_extends_refl o : obj_extends o o.
Proof. intros d H. exists d. split; [done | apply dict_extends_refl]. Qed.

Lemma obj_extends_same_grades o o' :
  grades_of o' = grades_of o -> obj_extends o o'.
Proof.
  intros Heq d H. exists d. split; [congruence | apply dict_extends_refl].
Qed.

Lemma obj_extends_trans o1 o2 o3 :
  obj_extends o1 o2 -> obj_extends o2 o3 -> obj_extends o1 o3.
Proof.
  intros H12 H23 d H.
  destruct (H12 d H) as (d2 & Hd2 & He2).
  destruct (H23 d2 Hd2) as (d3 & Hd3 & He3).
  exists d3. split; [done|]. by eapply dict_extends_trans.
Qed.

Lemma append_only_refl h : append_only h h.
Proof. intros l o H. exists o. split; [done | apply obj_extends_refl]. Qed.

Lemma append_only_trans h1 h2 h3 :
  append_only h1 h2 -> append_only h2 h3 -> append_only h1 h3.
Proof.
  intros H12 H23 l o H.
  destruct (H12 l o H) as (o2 & Ho2 & He2).
  destruct (H23 l o2 Ho2) as (o3 & Ho3 & He3).
  exists o3. split; [done|]. by eapply obj_extends_trans.
Qed.

Lemma heap_step_unique h h' :
  heap_step h h' -> courses_unique h -> courses_unique h'.
Proof.
  intros [|l o Hl Ho|l o o' Hl Ho He] Hh; [done|..];
    intros l' o1; rewrite lookup_insert; case_decide; subst.
  - by intros [= <-].
  - apply Hh.
  - intros [= <-]. apply Ho. by eapply Hh.
  - apply Hh.
Qed.

Lemma heap_step_append_only h h' : heap_step h h' -> append_only h h'.
Proof.
  intros [|l o Hl Ho|l o o' Hl Ho He]; [apply append_only_refl|..];
    intros l' o1 Hl'; rewrite lookup_insert; case_decide; simplify_eq.
  - exists o1. split; [done | apply obj_extends_refl].
  - by exists o'.
  - exists o1. split; [done | apply obj_extends_refl].
Qed.

Lemma rate_lecture_heap h self lecturer course grade :
  snd (rate_lecture self lecturer course grade h) = h
  ∨ ∃ l m g, h !! l = Some (OLecturer m g)
      ∧ snd (rate_lecture self lecturer course grade h)
        = <[l := OLecturer m (record_grade course grade g)]> h.
Proof.
  unfold rate_lecture. run_method.
  destruct (h !! self) as [[s| | |]|] eqn:Hs; try by left.
  destruct lecturer as [| | | | |l]; try by left.
  destruct (h !! l) as [[| |m g|]|] eqn:Hl; try by left.
  destruct (_ && _); [|by left].
  right. by exists l, m, g.
Qed.

Lemma rate_hw_heap h self student course grade :
  snd (rate_hw self student course grade h) = h
  ∨ ∃ l s, h !! l = Some (OStudent s)
      ∧ snd (rate_hw self student course grade h)
        = <[l := OStudent
              (with_grades s (record_grade course grade (s_grades s)))]> h.
Proof.
  unfold rate_hw. run_method.
  destruct (h !! self) as [[| | |r]|] eqn:Hr; try by left.
  destruct student as [| | | | |l]; try by left.
  destruct (h !! l) as [[s| | |]|] eqn:Hl; try by left.
  destruct (_ && _); [|by left].
  right. by exists l, s.
Qed.

Lemma alloc_fresh (h : heap) : h !! fresh (dom h) = None.
Proof. apply not_elem_of_dom. apply is_fresh. Qed.

Lemma run_heap_step c h : heap_step h (snd (run c h)).
Proof.
  destruct c as [n s g|n s|n s|n s|self c|self c|self c|self v c g|self v c g];
    simpl.
  - apply step_alloc; [apply alloc_fresh|]. split; apply NoDup_nil_2.
  - apply step_alloc; [apply alloc_fresh|]. apply NoDup_nil_2.
  - apply step_alloc; [apply alloc_fresh|]. apply NoDup_nil_2.
  - apply step_alloc; [apply alloc_fresh|]. apply NoDup_nil_2.
  - destruct (h !! self) as [[s| | |]|] eqn:Hs;
      try (unfold add_finished_course; run_method; rewrite Hs; constructor).
    rewrite (add_finished_course_run _ _ _ _ Hs).
    case_decide; [constructor|]. simpl.
    eapply step_update; [done| |by apply obj_extends_same_grades].
    intros [Hf Hp]. split; [by apply NoDup_append | done].
  - destruct (h !! self) as [[s| | |]|] eqn:Hs;
      try (unfold add_courses_in_progress; run_method; rewrite Hs;
           constructor).
    rewrite (add_courses_in_progress_run _ _ _ _ Hs).
    case_decide; [constructor|]. simpl.
    eapply step_update; [done| |by apply obj_extends_same_grades].
    intros [Hf Hp]. split; [done | by apply NoDup_append].
  - destruct (h !! self) as [o|] eqn:Ho;
      [|unfold mentor_add_course; run_method; rewrite Ho; constructor].
    destruct (mentor_of o) as [m|] eqn:Hm;
      [|unfold mentor_add_course; run_method; rewrite Ho, Hm; constructor].
    rewrite (mentor_add_course_run _ _ _ _ _ Ho Hm).
    case_decide; [constructor|]. simpl.
    eapply step_update; [done|..].
    + destruct o; simplify_eq/=; intros Hu; by apply NoDup_append.
    + apply obj_extends_same_grades. by destruct o.
  - destruct (rate_lecture_heap h self v c g) as [->|(l & m & d & Hl & ->)];
      [constructor|].
    eapply step_update; [done|done|].
    intros d' [= <-]. eexists. split; [done|]. apply dict_extends_record.
  - destruct (rate_hw_heap h self v c g) as [->|(l & s & Hl & ->)];
      [constructor|].
    eapply step_update; [done|done|].
    intros d' [= <-]. eexists. split; [done|]. apply dict_extends_record.
Qed.

Lemma run_all_app cs cs' h : run_all (cs ++ cs') h = run_all cs' (run_all cs h).
Proof. unfold run_all. by rewrite fold_left_app. Qed.

Lemma run_all_unique cs h : courses_unique h -> courses_unique (run_all cs h).
Proof.
  revert h. induction cs as [|c cs IH]; intros h Hh; [done|].
  simpl. apply IH. eapply heap_step_unique; [apply run_heap_step | done].
Qed.

Lemma run_all_append_only cs h : append_only h (run_all cs h).
Proof.
  revert h. induction cs as [|c cs IH]; intros h; [apply append_only_refl|].
  simpl. eapply append_only_trans; [|apply IH].
  apply heap_step_append_only, run_heap_step.
Qed.

(** C8: a freshly constructed entity has duplicate-free (empty) course lists
    and an empty grade map; every public operation keeps all course lists
    duplicate-free and only appends to grade maps (no object, entry or grade
    is removed); hence the same holds along every sequence of operations
    from the empty heap. *)
Theorem unique_courses_append_only_grades :
  (∀ c h, is_constructor c = true ->
     ∃ l o, run c h = (Return (VObj l), <[l := o]> h) ∧ h !! l = None
       ∧ obj_unique o ∧ (∀ d, grades_of o = Some d -> d = []))
  /\ (∀ c h,
       (courses_unique h -> courses_unique (snd (run c h)))
       ∧ append_only h (snd (run c h)))
  /\ (∀ cs cs',
       courses_unique (run_all cs ∅)
       ∧ append_only (run_all cs ∅) (run_all (cs ++ cs') ∅)).
Proof.
  split; [|split].
  - intros c h Hc. destruct c; try discriminate Hc; simpl;
      eexists _, _; (split; [reflexivity|]); (split; [apply alloc_fresh|]);
      simpl; (split; [repeat split; apply NoDup_nil_2|]);
      intros d; by intros [= <-].
  - intros c h. split.
    + apply heap_step_unique, run_heap_step.
    + apply heap_step_append_only, run_heap_step.
  - intros cs cs'. split.
    + apply run_all_unique. intros l o. by rewrite lookup_empty.
    + rewrite run_all_app. apply run_all_append_only.
Qed.

Lemma demo_world_unique : courses_unique Demo.world.
Proof.
  intros l o. unfold Demo.world.
  rewrite !lookup_insert. repeat case_decide; try rewrite lookup_empty;
    intros [= <-]; simpl; repeat split;
    by apply (bool_decide_unpack _).
Qed.

Lemma unique_courses_append_only_grades_witness :
  courses_unique Demo.world
  /\ courses_unique
       (snd (run (Call_add_courses_in_progress Demo.st "GIT") Demo.world))
  /\ append_only Demo.world
       (snd (run (Call_rate_hw Demo.rev (VObj Demo.st) "Python" 12)
               Demo.world))
  /\ (∃ l o, run (Call_Lecturer "Timur" "Anvartdinov") Demo.world
             = (Return (VObj l), <[l := o]> Demo.world)
         ∧ Demo.world !! l = None
         ∧ obj_unique o
         ∧ (∀ d, grades_of o = Some d -> d = [])).
Proof.
  pose proof unique_courses_append_only_grades as (Hnew & Hstep & _).
  split; [exact demo_world_unique|]. split; [|split].
  - exact (proj1 (Hstep _ Demo.world) demo_world_unique).
  - exact (proj2 (Hstep _ Demo.world)).
  - exact (Hnew (Call_Lecturer "Timur" "Anvartdinov") Demo.world eq_refl).
Defined.

(** ** Comparing with a value of another type *)

Lemma Student_eq_mismatch h self s other :
  h !! self = Some (OStudent s) ->
  as_Student other h = (Return None, h) ->
  Student_eq self other h = (Return (VStr "COMPARE ERROR"), h).
Proof.
  intros Hs Ho. unfold Student_eq. run_method. rewrite Hs.
  revert Ho. unfold as_Student.
  destruct other as [| | | | |l]; try done.
  by destruct (h !! l) as [[]|].
Qed.

Lemma Student_lt_mismatch h self s other :
  h !! self = Some (OStudent s) ->
  as_Student other h = (Return None, h) ->
  Student_lt self other h = (Return (VStr "COMPARE ERROR"), h).
Proof.
  intros Hs Ho. unfold Student_lt. run_method. rewrite Hs.
  revert Ho. unfold as_Student.
  destruct other as [| | | | |l]; try done.
  by destruct (h !! l) as [[]|].
Qed.

Lemma Lecturer_eq_mismatch h self m g other :
  h !! self = Some (OLecturer m g) ->
  as_Lecturer other h = (Return None, h) ->
  Lecturer_eq self other h = (Return (VStr "COMPARE ERROR"), h).
Proof.
  intros Hs Ho. unfold Lecturer_eq. run_method. rewrite Hs.
  revert Ho. unfold as_Lecturer.
  destruct other as [| | | | |l]; try done.
  by destruct (h !! l) as [[]|].
Qed.

Lemma Lecturer_lt_mismatch h self m g other :
  h !! self = Some (OLecturer m g) ->
  as_Lecturer other h = (Return None, h) ->
  Lecturer_lt self other h = (Return (VStr "COMPARE ERROR"), h).
Proof.
  intros Hs Ho. unfold Lecturer_lt. run_method. rewrite Hs.
  revert Ho. unfold as_Lecturer.
  destruct other as [| | | | |l]; try done.
  by destruct (h !! l) as [[]|].
Qed.

(** What the six comparison methods return when [__eq__] and [__lt__]
    return the error string: the string is a true value, so [not] of it is
    [False]. *)
Lemma total_ordering_mismatch (eq lt : loc -> pyval -> M pyval) h self other :
  eq self other h = (Return (VStr "COMPARE ERROR"), h) ->
  lt self other h = (Return (VStr "COMPARE ERROR"), h) ->
  le_from_lt eq lt self other h = (Return (VStr "COMPARE ERROR"), h)
  ∧ ne_from_eq eq self other h = (Return (VBool false), h)
  ∧ gt_from_lt eq lt self other h = (Return (VBool false), h)
  ∧ ge_from_lt lt self other h = (Return (VBool false), h).
Proof.
  intros Heq Hlt.
  unfold le_from_lt, ne_from_eq, gt_from_lt, ge_from_lt.
  unfold mbind, M_bind, bind, ret. by rewrite Heq, Hlt.
Qed.

Lemma compare_mismatch h self other :
  (∀ s, h !! self = Some (OStudent s) ->
     as_Student other h = (Return None, h) ->
     Student_eq self other h = (Return (VStr "COMPARE ERROR"), h)
     ∧ Student_lt self other h = (Return (VStr "COMPARE ERROR"), h)
     ∧ Student_le self other h = (Return (VStr "COMPARE ERROR"), h)
     ∧ Student_ne self other h = (Return (VBool false), h)
     ∧ Student_gt self other h = (Return (VBool false), h)
     ∧ Student_ge self other h = (Return (VBool false), h))
  /\ (∀ m g, h !! self = Some (OLecturer m g) ->
     as_Lecturer other h = (Return None, h) ->
     Lecturer_eq self other h = (Return (VStr "COMPARE ERROR"), h)
     ∧ Lecturer_lt self other h = (Return (VStr "COMPARE ERROR"), h)
     ∧ Lecturer_le self other h = (Return (VStr "COMPARE ERROR"), h)
     ∧ Lecturer_ne self other h = (Return (VBool false), h)
     ∧ Lecturer_gt self other h = (Return (VBool false), h)
     ∧ Lecturer_ge self other h = (Return (VBool false), h)).
Proof.
  split.
  - intros s Hs Ho.
    pose proof (Student_eq_mismatch _ _ _ _ Hs Ho) as Heq.
    pose proof (Student_lt_mismatch _ _ _ _ Hs Ho) as Hlt.
    repeat split; try done;
      by apply (total_ordering_mismatch Student_eq Student_lt).
  - intros m g Hs Ho.
    pose proof (Lecturer_eq_mismatch _ _ _ _ _ Hs Ho) as Heq.
    pose proof (Lecturer_lt_mismatch _ _ _ _ _ Hs Ho) as Hlt.
    repeat split; try done;
      by apply (total_ordering_mismatch Lecturer_eq Lecturer_lt).
Qed.

(** C7: compared with the integer 5, a student returns the error string
    from [==], [<] and [<=], but the boolean [False] from [!=], [>] and
    [>=]; a lecturer compared with a student does the same. *)
Theorem compare_mismatch_not_always_error :
  Student_eq Demo.st (VInt 5) Demo.world
    = (Return (VStr "COMPARE ERROR"), Demo.world)
  /\ Student_lt Demo.st (VInt 5) Demo.world
    = (Return (VStr "COMPARE ERROR"), Demo.world)
  /\ Student_le Demo.st (VInt 5) Demo.world
    = (Return (VStr "COMPARE ERROR"), Demo.world)
  /\ Student_ne Demo.st (VInt 5) Demo.world
    = (Return (VBool false), Demo.world)
  /\ Student_gt Demo.st (VInt 5) Demo.world
    = (Return (VBool false), Demo.world)
  /\ Student_ge Demo.st (VInt 5) Demo.world
    = (Return (VBool false), Demo.world)
  /\ Lecturer_lt Demo.lec (VObj Demo.st) Demo.world
    = (Return (VStr "COMPARE ERROR"), Demo.world)
  /\ Lecturer_gt Demo.lec (VObj Demo.st) Demo.world
    = (Return (VBool false), Demo.world).
Proof.
  destruct (compare_mismatch Demo.world Demo.st (VInt 5)) as [HS _].
  destruct (HS Demo.ivan eq_refl eq_refl) as (?&?&?&?&?&?).
  destruct (compare_mismatch Demo.world Demo.lec (VObj Demo.st)) as [_ HL].
  destruct (HL Demo.oleg _ eq_refl eq_refl) as (?&?&?&?&?&?).
  repeat split; assumption.
Qed.

(** ** Division of integers in binary64 *)

Lemma digits2_pos_size p : digits2_pos p = Pos.size p.
Proof. induction p; simpl; congruence. Qed.

Lemma Zdigits2_log2 n : 0 < n -> Zdigits2 n = Z.log2 n + 1.
Proof.
  destruct n as [|p|p]; try lia. intros _. simpl.
  rewrite digits2_pos_size. destruct p; simpl; lia.
Qed.

Lemma Zdigits2_bounds n : 0 < n -> 2 ^ (Zdigits2 n - 1) <= n < 2 ^ Zdigits2 n.
Proof.
  intros H. rewrite Zdigits2_log2 by done.
  replace (Z.log2 n + 1 - 1) with (Z.log2 n) by lia.
  replace (Z.log2 n + 1) with (Z.succ (Z.log2 n)) by lia.
  by apply Z.log2_spec.
Qed.

(** The location [SFdiv] computes from a remainder, for an even and for an
    odd divisor, is where the fraction [r / d] lies. *)
Lemma new_location_frac d r :
  0 < d -> 0 <= r < d -> new_location d r = loc_of_frac r d.
Proof.
  intros Hd Hr.
  unfold new_location, new_location_even, new_location_odd, loc_of_frac.
  destruct (Z.even d) eqn:He; [reflexivity|].
  destruct (r =? 0); [reflexivity|]. f_equal.
  assert (Ho : Z.odd d = true) by (rewrite <- Z.negb_even, He; reflexivity).
  apply Z.odd_spec in Ho as [k ->].
  destruct (Z.compare_spec (2 * r + 1) (2 * k + 1));
    destruct (Z.compare_spec (2 * r) (2 * k + 1)); try reflexivity; lia.
Qed.

(** The round bit and the sticky bit of a fraction. *)
Lemma frac_record_bits m r D : 0 < D -> 0 <= r < D ->
  frac_record m r D
  = Build_shr_record m (D <=? 2 * r) (negb (r =? 0) && negb (2 * r =? D)).
Proof.
  intros HD Hr. unfold frac_record, loc_of_frac.
  remember (2 * r) as t eqn:Ht.
  destruct (Z.eqb_spec r 0) as [->|Hr0];
    destruct (Z.compare_spec t D); destruct (Z.leb_spec D t);
    destruct (Z.eqb_spec t D); try lia; reflexivity.
Qed.

Lemma shr_1_bits m r s : 0 <= m ->
  shr_1 (Build_shr_record m r s) = Build_shr_record (m / 2) (Z.odd m) (r || s).
Proof.
  intros Hm. destruct m as [|[p|p|]|p]; try lia; simpl; try done.
  - f_equal. rewrite Pos2Z.inj_xI. apply Z.div_unique with 1; lia.
  - f_equal. rewrite Pos2Z.inj_xO. apply Z.div_unique with 0; lia.
Qed.

(** One right shift moves the last bit of [m] in front of the fraction. *)
Lemma shr_1_frac m r D : 0 <= m -> 0 < D -> 0 <= r < D ->
  shr_1 (frac_record m r D) = frac_record (m / 2) (m mod 2 * D + r) (2 * D).
Proof.
  intros Hm HD Hr.
  assert (Hmod : 0 <= m mod 2 < 2) by (apply Z.mod_pos_bound; lia).
  rewrite !frac_record_bits by nia.
  rewrite shr_1_bits by done.
  rewrite Zmod_odd in *.
  remember (Z.odd m) as o eqn:Ho. clear Ho.
  f_equal.
  - destruct o; symmetry; [apply Z.leb_le | apply Z.leb_gt]; lia.
  - destruct o;
    repeat match goal with
      | |- context [Z.eqb ?a ?b] => destruct (Z.eqb_spec a b)
      | |- context [Z.leb ?a ?b] => destruct (Z.leb_spec a b)
      end; simpl; try done; try lia.
Qed.

Lemma iter_pos_nat {A} (f : A -> A) p x :
  SpecFloat.iter_pos f p x = Nat.iter (Pos.to_nat p) f x.
Proof.
  revert x. induction p as [p IH|p IH|]; intros x; simpl SpecFloat.iter_pos.
  - rewrite !IH, Pos2Nat.inj_xI. simpl.
    rewrite <- Nat.iter_swap, <- Nat.iter_add. f_equal. lia.
  - rewrite !IH, Pos2Nat.inj_xO, <- Nat.iter_add. f_equal. lia.
  - reflexivity.
Qed.

Lemma shifted_0 m r D : shifted m r D 0 = frac_record m r D.
Proof.
  unfold shifted. rewrite Z.pow_0_r, Z.div_1_r, Z.mod_1_r. f_equal; lia.
Qed.

Lemma shr_1_shifted m r D k :
  0 <= m -> 0 < D -> 0 <= r < D -> 0 <= k ->
  shr_1 (shifted m r D k) = shifted m r D (k + 1).
Proof.
  intros Hm HD Hr Hk. unfold shifted.
  assert (0 < 2 ^ k) by (apply Z.pow_pos_nonneg; lia).
  assert (0 <= m mod 2 ^ k < 2 ^ k) by (apply Z.mod_pos_bound; lia).
  rewrite shr_1_frac; [|apply Z.div_pos; lia|nia|nia].
  rewrite Z.pow_add_r, Z.pow_1_r by lia.
  rewrite Z.div_div by lia.
  rewrite (Z.rem_mul_r m (2 ^ k) 2) by lia.
  f_equal; lia.
Qed.

Lemma iter_shr_1_shifted m r D k n :
  0 <= m -> 0 < D -> 0 <= r < D -> 0 <= k ->
  Nat.iter n shr_1 (shifted m r D k) = shifted m r D (k + Z.of_nat n).
Proof.
  intros Hm HD Hr Hk. induction n as [|n IH].
  - simpl. f_equal. lia.
  - rewrite Nat.iter_succ, IH, shr_1_shifted by lia. f_equal. lia.
Qed.

(** [shr] by [n] places drops the last [n] bits of [m] into the fraction. *)
Lemma shr_frac m r D e n :
  0 <= m -> 0 < D -> 0 <= r < D ->
  shr (frac_record m r D) e n
  = (shifted m r D (Z.max 0 n), e + Z.max 0 n).
Proof.
  intros Hm HD Hr. unfold shr. destruct n as [|p|p].
  - rewrite shifted_0. f_equal. lia.
  - rewrite iter_pos_nat, <- shifted_0, iter_shr_1_shifted by lia.
    rewrite positive_nat_Z. f_equal.
  - rewrite shifted_0. f_equal. lia.
Qed.

Lemma loc_of_shr_record_of_loc m l :
  loc_of_shr_record (shr_record_of_loc m l) = l.
Proof. by destruct l as [|[]]. Qed.

Lemma shr_m_of_loc m l : shr_m (shr_record_of_loc m l) = m.
Proof. by destruct l as [|[]]. Qed.

(** Rounding moves a quotient by at most one half. *)
Lemma rhe_bounds N D : 0 <= N -> 0 < D ->
  N / D <= rhe N D <= N / D + 1 /\ 2 * Z.abs (rhe N D * D - N) <= D.
Proof.
  intros HN HD. unfold rhe, loc_of_frac, round_nearest_even.
  pose proof (Z.div_mod N D ltac:(lia)) as Hdm.
  pose proof (Z.mod_pos_bound N D HD) as Hmod.
  remember (N / D) as q. remember (N mod D) as r.
  destruct (Z.eqb_spec r 0); [lia|].
  destruct (Z.compare_spec (2 * r) D); [destruct (Z.even q)|..]; lia.
Qed.

Lemma fexp64 x : fexp 53 1024 x = Z.max (x - 53) (-1074).
Proof. reflexivity. Qed.

(** [SFdiv] on two integer significands with exponent 0. *)
Lemma SFdiv_int_closed sx sy (n d : positive) :
  SFdiv 53 1024 (S754_finite sx n 0) (S754_finite sy d 0)
  = div_closed (xorb sx sy) (Zpos n) (Zpos d).
Proof.
  unfold SFdiv, SFdiv_core_binary, div_closed.
  set (e' := Z.min (fexp 53 1024 (Zdigits2 (Z.pos n) + 0
                                  - (Zdigits2 (Z.pos d) + 0))) (0 - 0)).
  replace (Z.min (fexp 53 1024 (Zdigits2 (Z.pos n) - Zdigits2 (Z.pos d))) 0)
    with e' by (unfold e'; f_equal; f_equal; lia).
  assert (He' : e' <= 0) by (unfold e'; lia).
  set (N := Z.pos n * 2 ^ (- e')).
  assert (Hm' : match 0 - 0 - e' with
                | 0 => Z.pos n
                | Z.pos _ => Z.shiftl (Z.pos n) (0 - 0 - e')
                | Z.neg _ => 0
                end = N).
  { unfold N. replace (0 - 0 - e') with (- e') by lia.
    destruct (- e') as [|p|p] eqn:E; try lia.
    - rewrite Z.shiftl_mul_pow2; lia. }
  rewrite Hm'. clear Hm'.
  assert (HN : 0 < N)
    by (unfold N; apply Z.mul_pos_pos; [lia|apply Z.pow_pos_nonneg; lia]).
  pose proof (Z.div_mod N (Zpos d) ltac:(lia)) as Hdm.
  pose proof (Z.mod_pos_bound N (Zpos d) ltac:(lia)) as Hmod.
  destruct (Z.div_eucl N (Zpos d)) as [q r] eqn:Hqr.
  assert (HNq : N / Zpos d = q) by (unfold Z.div; by rewrite Hqr).
  assert (HNr : N mod Zpos d = r) by (unfold Z.modulo; by rewrite Hqr).
  rewrite HNq, HNr in *.
  assert (Hq : 0 <= q) by nia.
  rewrite new_location_frac by lia.
  unfold binary_round_aux, shr_fexp.
  fold (frac_record q r (Zpos d)).
  rewrite shr_frac by lia.
  set (n1 := Z.max 0 (fexp 53 1024 (Zdigits2 q + e') - e')).
  cbv iota beta.
  unfold shifted at 1 2 3 4. unfold frac_record.
  rewrite !loc_of_shr_record_of_loc, !shr_m_of_loc.
  assert (Hn1 : 0 <= n1) by (unfold n1; lia).
  assert (Hp1 : 0 < 2 ^ n1) by (apply Z.pow_pos_nonneg; lia).
  set (mr := round_nearest_even _ _).
  assert (Hmr : mr = rhe N (2 ^ (e' + n1 - e') * Zpos d)).
  { unfold mr, rhe. replace (e' + n1 - e') with n1 by lia.
    rewrite (Z.mul_comm (2 ^ n1)).
    rewrite <- Z.div_div by lia. rewrite HNq.
    rewrite Z.rem_mul_r by lia. rewrite HNq, HNr.
    f_equal. f_equal; lia. }
  rewrite <- Hmr.
  assert (Hmr0 : 0 <= mr).
  { rewrite Hmr. 
    assert (0 < 2 ^ (e' + n1 - e') * Z.pos d)
      by (apply Z.mul_pos_pos; [apply Z.pow_pos_nonneg|]; lia).
    pose proof (rhe_bounds N (2 ^ (e' + n1 - e') * Z.pos d)
                  ltac:(lia) ltac:(lia)) as [[H1 _] _].
    pose proof (Z.div_pos N (2 ^ (e' + n1 - e') * Z.pos d) ltac:(lia)) as H2.
    lia. }
  change (shr_record_of_loc mr loc_Exact) with (frac_record mr 0 1).
  rewrite shr_frac by lia.
  cbv iota beta.
  unfold shifted, frac_record. rewrite shr_m_of_loc.
  reflexivity.
Qed.

Lemma Zdigits2_le_iff n k : 0 < n -> 0 <= k -> Zdigits2 n <= k <-> n < 2 ^ k.
Proof.
  intros Hn Hk. pose proof (Zdigits2_bounds n Hn) as [Hlo Hhi]. split.
  - intros H. eapply Z.lt_le_trans; [exact Hhi|]. apply Z.pow_le_mono_r; lia.
  - intros H. destruct (Z.le_gt_cases (Zdigits2 n) k) as [|Hgt]; [done|].
    assert (2 ^ k <= 2 ^ (Zdigits2 n - 1)) by (apply Z.pow_le_mono_r; lia). lia.
Qed.

Lemma Zdigits2_nonneg n : 0 <= Zdigits2 n.
Proof. destruct n; simpl; lia. Qed.

Lemma Zdigits2_pos n : 0 < n -> 0 < Zdigits2 n.
Proof. destruct n; simpl; lia. Qed.

(** Ranges of the intermediate results, and the rounding error. *)
Lemma div_params n d : 0 < n -> 0 < d ->
  -1074 <= div_e' n d <= 0 /\ 0 < div_N n d /\ 0 <= div_n1 n d
  /\ 0 < 2 ^ div_n1 n d * d
  /\ 0 <= div_mr n d <= 2 ^ 53
  /\ 2 * Z.abs (div_mr n d * (2 ^ div_n1 n d * d) - div_N n d)
     <= 2 ^ div_n1 n d * d.
Proof.
  intros Hn Hd. 
  assert (He : -1074 <= div_e' n d <= 0) by (unfold div_e'; lia).
  assert (HN : 0 < div_N n d).
  { unfold div_N. apply Z.mul_pos_pos; [lia|apply Z.pow_pos_nonneg; lia]. }
  assert (Hn1 : 0 <= div_n1 n d) by (unfold div_n1; lia).
  assert (HD : 0 < 2 ^ div_n1 n d * d).
  { apply Z.mul_pos_pos; [apply Z.pow_pos_nonneg|]; lia. }
  repeat split; try lia.
  - pose proof (rhe_bounds (div_N n d) (2 ^ div_n1 n d * d) ltac:(lia) HD)
      as [[H _] _].
    pose proof (Z.div_pos (div_N n d) (2 ^ div_n1 n d * d) ltac:(lia) HD).
    unfold div_mr. lia.
  - unfold div_mr.
    pose proof (rhe_bounds (div_N n d) (2 ^ div_n1 n d * d) ltac:(lia) HD)
      as [[_ H] _].
    enough (div_N n d / (2 ^ div_n1 n d * d) < 2 ^ 53) by lia.
    rewrite (Z.mul_comm (2 ^ _)), <- Z.div_div
      by (try apply Z.pow_pos_nonneg; lia).
    set (q := div_N n d / d) in *.
    assert (Hq : 0 <= q) by (apply Z.div_pos; lia).
    apply Z.div_lt_upper_bound; [apply Z.pow_pos_nonneg; lia|].
    rewrite <- Z.pow_add_r by lia.
    destruct (Z.eq_dec q 0) as [->|Hq0]; [apply Z.pow_pos_nonneg; lia|].
    apply Zdigits2_le_iff; [lia|lia|]. unfold div_n1. fold q. lia.
  - apply rhe_bounds; [lia|done].
Qed.

(** The result is zero, the rounded significand at its exponent, or
    infinity; a significand rounded up to [2^53] is renormalised. *)
Lemma div_closed_result s n d : 0 < n -> 0 < d ->
  div_closed s n d = div_result s n d.
Proof.
  intros Hn Hd.
  pose proof (div_params n d Hn Hd) as (He' & HN & Hn1 & HD & Hmr & _).
  unfold div_closed, div_result. rewrite !fexp64.
  replace (Z.min (Z.max (Zdigits2 n - Zdigits2 d - 53) (-1074)) 0)
    with (div_e' n d) by reflexivity.
  fold (div_N n d).
  replace (Z.max 0 (Z.max (Zdigits2 (div_N n d / d) + div_e' n d - 53) (-1074)
                    - div_e' n d))
    with (div_n1 n d) by (unfold div_n1; lia).
  fold (div_e1 n d).
  replace (div_e1 n d - div_e' n d) with (div_n1 n d) by (unfold div_e1; lia).
  fold (div_mr n d).
  assert (He1 : -1074 <= div_e1 n d) by (unfold div_e1; lia).
  set (mr := div_mr n d) in *. set (e1 := div_e1 n d) in *.
  replace (Z.max 0 (Z.max (Zdigits2 mr + e1 - 53) (-1074) - e1))
    with (Z.max 0 (Zdigits2 mr - 53)) by lia.
  destruct (Z.eqb_spec mr 0) as [->|Hmr0]; [reflexivity|].
  destruct (Z.eqb_spec mr (2 ^ 53)) as [->|Hmr53].
  - change (Zdigits2 (2 ^ 53)) with 54.
    change (54 - 53) with 1. change (Z.max 0 1) with 1.
    change (2 ^ 53 / 2 ^ 1) with (2 ^ 52).
    change (1024 - 53) with 971. reflexivity.
  - assert (Hdig : Zdigits2 mr <= 53) by (apply Zdigits2_le_iff; lia).
    replace (Z.max 0 (Zdigits2 mr - 53)) with 0 by lia.
    rewrite Z.pow_0_r, Z.div_1_r, Z.add_0_r.
    change (1024 - 53) with 971.
    destruct mr as [|p|p]; try lia. reflexivity.
Qed.

(** ** Order facts about rounding *)

Lemma rhe_cases N D : 0 < D ->
  let q := N / D in let r := N mod D in
  N = D * q + r /\ 0 <= r < D /\
  ((2 * r < D /\ rhe N D = q)
   \/ (2 * r = D /\ rhe N D = (if Z.even q then q else q + 1))
   \/ (D < 2 * r /\ rhe N D = q + 1)).
Proof.
  intros HD q r.
  pose proof (Z.div_mod N D ltac:(lia)) as Hdm.
  pose proof (Z.mod_pos_bound N D HD) as Hmod.
  fold q r in Hdm, Hmod. split; [done|]. split; [done|].
  unfold rhe, loc_of_frac, round_nearest_even. fold q r.
  destruct (Z.eqb_spec r 0) as [Hr|Hr]; [left; lia|].
  destruct (Z.compare_spec (2 * r) D); [right; left|left|right; right]; lia.
Qed.

(** Rounding half to even is monotone in the quotient. *)
Lemma rhe_mono N1 D1 N2 D2 : 0 < D1 -> 0 < D2 ->
  N1 * D2 <= N2 * D1 -> rhe N1 D1 <= rhe N2 D2.
Proof.
  intros HD1 HD2 Hle.
  destruct (rhe_cases N1 D1 HD1) as (E1 & R1 & C1).
  destruct (rhe_cases N2 D2 HD2) as (E2 & R2 & C2).
  set (q1 := N1 / D1) in *. set (r1 := N1 mod D1) in *.
  set (q2 := N2 / D2) in *. set (r2 := N2 mod D2) in *.
  assert (Hq : q1 <= q2).
  { destruct (Z.le_gt_cases q1 q2) as [|Hgt]; [done|]. exfalso.
    assert (D1 * (q2 + 1) <= N1) by nia.
    assert (N2 < D2 * (q2 + 1)) by nia.
    assert (D1 * (q2 + 1) * D2 <= N1 * D2) by nia.
    assert (N2 * D1 < D2 * (q2 + 1) * D1) by nia.
    lia. }
  destruct (Z.eq_dec q1 q2) as [Heq|Hne].
  - assert (Hr : r1 * D2 <= r2 * D1).
    { rewrite E1, E2, Heq in Hle. nia. }
    destruct C1 as [[? ->]|[[? ->]|[? ->]]];
      destruct C2 as [[? ->]|[[? ->]|[? ->]]];
      rewrite <- ?Heq; try destruct (Z.even q1); try lia; nia.
  - assert (q1 + 1 <= q2) by lia.
    destruct C1 as [[? ->]|[[? ->]|[? ->]]];
      destruct C2 as [[? ->]|[[? ->]|[? ->]]];
      try destruct (Z.even q1); try destruct (Z.even q2); lia.
Qed.

Lemma rhe_half_up k D N : 0 < D -> Z.even k = true ->
  (2 * k - 1) * D <= 2 * N -> k <= rhe N D.
Proof.
  intros HD Hk Hle.
  assert (Hh : rhe (2 * k - 1) 2 = k).
  { destruct (rhe_cases (2 * k - 1) 2 ltac:(lia)) as (E & R & C).
    assert (Hq : (2 * k - 1) / 2 = k - 1)
      by (symmetry; apply Z.div_unique with 1; lia).
    rewrite Hq in *.
    assert (Hodd : Z.even (k - 1) = false).
    { rewrite Z.even_sub, Hk. reflexivity. }
    rewrite Hodd in C. lia. }
  rewrite <- Hh. apply rhe_mono; lia.
Qed.

(** ** The truncated quotient has 53 bits unless the result is subnormal *)

Lemma pow2_pos k : 0 <= k -> 0 < 2 ^ k.
Proof. intros. apply Z.pow_pos_nonneg; lia. Qed.

Lemma div_q_normal n d : 0 < n -> 0 < d ->
  -1074 < div_e' n d -> 2 ^ 52 <= div_N n d / d.
Proof.
  intros Hn Hd He.
  pose proof (Zdigits2_bounds n Hn) as [Hnl Hnh].
  pose proof (Zdigits2_bounds d Hd) as [Hdl Hdh].
  pose proof (Zdigits2_pos n Hn). pose proof (Zdigits2_pos d Hd).
  apply Z.div_le_lower_bound; [done|].
  unfold div_N.
  set (E := - div_e' n d).
  assert (HE : 0 <= E /\ Zdigits2 d + 52 <= Zdigits2 n - 1 + E)
    by (unfold E, div_e' in *; lia).
  assert (H1 : d * 2 ^ 52 <= 2 ^ (Zdigits2 d + 52)).
  { rewrite Z.pow_add_r by lia. pose proof (pow2_pos 52). nia. }
  assert (H2 : 2 ^ (Zdigits2 d + 52) <= 2 ^ (Zdigits2 n - 1 + E))
    by (apply Z.pow_le_mono_r; lia).
  assert (H3 : 2 ^ (Zdigits2 n - 1 + E) <= n * 2 ^ E).
  { rewrite Z.pow_add_r by lia. pose proof (pow2_pos E). nia. }
  lia.
Qed.

Lemma div_mr_normal n d : 0 < n -> 0 < d ->
  -1074 < div_e1 n d -> 2 ^ 52 <= div_mr n d.
Proof.
  intros Hn Hd He.
  pose proof (div_params n d Hn Hd) as (He' & HN & Hn1 & HD & Hmr & _).
  pose proof (rhe_bounds (div_N n d) (2 ^ div_n1 n d * d) ltac:(lia) HD)
    as [[Hlo _] _].
  fold (div_mr n d) in Hlo.
  enough (2 ^ 52 <= div_N n d / (2 ^ div_n1 n d * d)) by lia.
  rewrite (Z.mul_comm (2 ^ _)), <- Z.div_div by (try apply pow2_pos; lia).
  set (q := div_N n d / d).
  assert (Hq0 : 0 <= q) by (apply Z.div_pos; lia).
  destruct (Z.eq_dec (div_n1 n d) 0) as [H0|H0].
  - rewrite H0, Z.pow_0_r, Z.div_1_r.
    apply div_q_normal; try done. unfold div_e1 in He. lia.
  - assert (Hdig : Zdigits2 q = div_n1 n d + 53)
      by (unfold div_n1 in *; fold q in H0 |- *; lia).
    assert (Hqpos : 0 < q) by (destruct q; simpl in Hdig; lia).
    pose proof (Zdigits2_bounds q Hqpos) as [Hql _].
    rewrite Hdig in Hql.
    replace (div_n1 n d + 53 - 1) with (52 + div_n1 n d) in Hql by lia.
    rewrite Z.pow_add_r in Hql by lia.
    apply Z.div_le_lower_bound; [apply pow2_pos; lia|]. lia.
Qed.

(** ** Overflow *)

Lemma pow2_split a b : 0 <= a -> 0 <= b -> 2 ^ (a + b) = 2 ^ a * 2 ^ b.
Proof. intros. apply Z.pow_add_r; lia. Qed.

Lemma div_n1_digits n d : 0 < n -> 0 < d -> 0 < div_n1 n d ->
  0 < div_N n d / d /\ Zdigits2 (div_N n d / d) = div_n1 n d + 53.
Proof.
  intros Hn Hd.
  assert (HN : 0 < div_N n d)
    by (unfold div_N; apply Z.mul_pos_pos; [lia|apply Z.pow_pos_nonneg];
        unfold div_e'; lia).
  assert (Hq : 0 <= div_N n d / d) by (apply Z.div_pos; lia).
  unfold div_n1. set (q := div_N n d / d) in *. intros H.
  split; [|lia]. destruct q; simpl in *; lia.
Qed.

Lemma mul_le_cancel c a b : 0 < c -> c * a <= c * b -> a <= b.
Proof. intros Hc H. by apply (Z.mul_le_mono_pos_l a b c). Qed.

(** Below the threshold the exponent of the result is in range. *)
Lemma div_result_in_range n d : 0 < n -> 0 < d ->
  n < overflow_threshold * d ->
  (div_mr n d = 2 ^ 53 -> div_e1 n d + 1 <= 971)
  /\ div_e1 n d <= 971.
Proof.
  intros Hn Hd Hlt.
  pose proof (div_params n d Hn Hd) as (He' & HN & Hn1 & HD & Hmr & Hrnd).
  set (E := - div_e' n d). assert (HE : 0 <= E) by (unfold E; lia).
  assert (HNE : div_N n d = n * 2 ^ E) by reflexivity.
  pose proof (pow2_pos E HE) as HpE.
  assert (H970 : 0 < 2 ^ 970) by (by apply pow2_pos).
  unfold overflow_threshold in Hlt.
  assert (He1 : div_e1 n d <= 971).
  { destruct (Z.le_gt_cases (div_e1 n d) 971) as [|Hgt]; [done|]. exfalso.
    assert (Hn1' : 0 < div_n1 n d) by (unfold div_e1 in Hgt; lia).
    destruct (div_n1_digits n d Hn Hd Hn1') as [Hq Hdig].
    pose proof (Zdigits2_bounds _ Hq) as [Hql _]. rewrite Hdig in Hql.
    replace (div_n1 n d + 53 - 1) with (E + (div_e1 n d + 52)) in Hql
      by (unfold div_e1, E; lia).
    rewrite pow2_split in Hql by lia.
    assert (H1024 : 2 ^ 1024 <= 2 ^ (div_e1 n d + 52))
      by (apply Z.pow_le_mono_r; lia).
    assert (Hqd : div_N n d / d * d <= div_N n d)
      by (rewrite Z.mul_comm; apply Z.mul_div_le; lia).
    remember (div_N n d / d) as q.
    rewrite HNE in Hqd.
    remember (2 ^ 1024) as P. remember (2 ^ 970) as P'.
    remember (2 ^ (div_e1 n d + 52)) as Pe.
    assert (H1 : 2 ^ E * P <= 2 ^ E * Pe)
      by (apply Z.mul_le_mono_nonneg_l; lia).
    assert (H2 : 2 ^ E * P * d <= q * d)
      by (apply Z.mul_le_mono_nonneg_r; lia).
    assert (H3 : 2 ^ E * (P * d) <= 2 ^ E * n) by lia.
    apply mul_le_cancel in H3; [|done].
    assert (P' * d > 0) by (apply Z.lt_gt, Z.mul_pos_pos; lia).
    lia. }
  split; [|done].
  intros H53.
  destruct (Z.le_gt_cases (div_e1 n d + 1) 971) as [|Hgt]; [done|]. exfalso.
  assert (He971 : div_e1 n d = 971) by lia.
  assert (Hn1E : div_n1 n d = 971 + E) by (unfold div_e1, E in *; lia).
  rewrite H53, Hn1E, HNE in Hrnd.
  rewrite pow2_split in Hrnd by lia.
  replace (2 ^ 1024) with (2 ^ 54 * 2 ^ 970) in Hlt
    by (rewrite <- pow2_split by lia; reflexivity).
  replace (2 ^ 971) with (2 * 2 ^ 970) in Hrnd
    by (rewrite <- (Z.pow_succ_r 2 970) by lia; reflexivity).
  remember (2 ^ 970) as P.
  change (2 ^ 53) with 9007199254740992 in Hrnd.
  change (2 ^ 54) with 18014398509481984 in Hlt.
  assert (Hr' : 2 ^ E * ((18014398509481984 - 1) * P * d) <= 2 ^ E * n) by lia.
  apply mul_le_cancel in Hr'; [|done]. lia.
Qed.

(** From the threshold on the result is infinity. *)
Lemma div_result_overflow s n d : 0 < n -> 0 < d ->
  overflow_threshold * d <= n -> div_result s n d = S754_infinity s.
Proof.
  intros Hn Hd Hge.
  pose proof (div_params n d Hn Hd) as (He' & HN & Hn1 & HD & Hmr & Hrnd).
  pose proof (Zdigits2_bounds n Hn) as [_ Hnh].
  pose proof (Zdigits2_bounds d Hd) as [Hdl _].
  pose proof (Zdigits2_pos d Hd) as Hdd.
  assert (H970 : 0 < 2 ^ 970) by (by apply pow2_pos).
  assert (HT : 2 ^ 1023 <= overflow_threshold).
  { unfold overflow_threshold.
    replace (2 ^ 1024) with (2 * 2 ^ 1023)
      by (rewrite <- (Z.pow_succ_r 2 1023) by lia; reflexivity).
    assert (2 ^ 970 <= 2 ^ 1023) by (apply Z.pow_le_mono_r; lia). lia. }
  assert (HTpos : 0 < overflow_threshold)
    by (pose proof (pow2_pos 1023); lia).
  (* the exponent of the truncated quotient is 0 *)
  assert (Hk : 1023 <= Zdigits2 n - Zdigits2 d).
  { assert (H1 : 2 ^ 1023 * 2 ^ (Zdigits2 d - 1) <= overflow_threshold * d)
      by (apply Z.mul_le_mono_nonneg; try apply Z.pow_nonneg; lia).
    rewrite <- pow2_split in H1 by lia.
    assert (H2 : 2 ^ (1023 + (Zdigits2 d - 1)) < 2 ^ Zdigits2 n) by lia.
    apply Z.pow_lt_mono_r_iff in H2; [lia|lia|apply Zdigits2_nonneg]. }
  assert (He0 : div_e' n d = 0) by (unfold div_e'; lia).
  assert (HN0 : div_N n d = n) by (unfold div_N; rewrite He0; simpl; lia).
  assert (Hq : overflow_threshold <= div_N n d / d).
  { rewrite HN0. apply Z.div_le_lower_bound; lia. }
  assert (Hdig : 1024 <= Zdigits2 (div_N n d / d)).
  { destruct (Z.le_gt_cases 1024 (Zdigits2 (div_N n d / d))) as [|Hlt];
      [done|exfalso].
    assert (Zdigits2 (div_N n d / d) <= 1023) as Hle by lia.
    apply Zdigits2_le_iff in Hle; lia. }
  assert (Hn1' : div_n1 n d = Zdigits2 (div_N n d / d) - 53)
    by (unfold div_n1; lia).
  assert (He1 : div_e1 n d = div_n1 n d) by (unfold div_e1; lia).
  pose proof (div_mr_normal n d Hn Hd ltac:(lia)) as Hmr52.
  assert (H52 : 0 < 2 ^ 52) by (by apply pow2_pos).
  unfold div_result.
  destruct (Z.eqb_spec (div_mr n d) 0) as [H0|_]; [lia|].
  destruct (Z.le_gt_cases 972 (div_e1 n d)) as [Hbig|Hsmall].
  - destruct (Z.eqb_spec (div_mr n d) (2 ^ 53)) as [_|_].
    + destruct (Z.leb_spec (div_e1 n d + 1) 971); [lia|done].
    + destruct (Z.leb_spec (div_e1 n d) 971); [lia|done].
  - assert (Hn971 : div_n1 n d = 971) by lia.
    assert (H53 : div_mr n d = 2 ^ 53).
    { apply Z.le_antisymm; [lia|].
      unfold div_mr. rewrite Hn971, HN0.
      apply rhe_half_up; [apply Z.mul_pos_pos; [by apply pow2_pos|lia]|done|].
      unfold overflow_threshold in Hge.
      replace (2 ^ 1024) with (2 ^ 54 * 2 ^ 970) in Hge
        by (rewrite <- pow2_split by lia; reflexivity).
      replace (2 ^ 971) with (2 * 2 ^ 970)
        by (rewrite <- (Z.pow_succ_r 2 970) by lia; reflexivity).
      change (2 ^ 53) with 9007199254740992.
      change (2 ^ 54) with 18014398509481984 in Hge.
      remember (2 ^ 970) as P. lia. }
    destruct (Z.eqb_spec (div_mr n d) (2 ^ 53)) as [_|]; [|done].
    destruct (Z.leb_spec (div_e1 n d + 1) 971); [lia|done].
Qed.

Lemma inject_Z_pos_neq0 z : 0 < z -> ~ (inject_Z z == 0)%Q.
Proof. intros Hz H. unfold Qeq in H. simpl in H. lia. Qed.

Lemma inject_Z_pos z : 0 < z -> (0 < inject_Z z)%Q.
Proof. intros Hz. unfold Qlt. simpl. lia. Qed.

(** An error bound between integers, read between rationals. *)
Lemma scaled_error (m P S n d : Z) :
  0 < S -> 0 < d ->
  2 * Z.abs (m * (P * d) - n * S) <= P * d ->
  (Qabs (inject_Z m * (inject_Z P / inject_Z S) - inject_Z n / inject_Z d)
   <= inject_Z P / inject_Z S / 2)%Q.
Proof.
  intros HS Hd Hb.
  pose proof (inject_Z_pos_neq0 S HS) as HS0.
  pose proof (inject_Z_pos_neq0 d Hd) as Hd0.
  pose proof (inject_Z_pos S HS) as HSp.
  pose proof (inject_Z_pos d Hd) as Hdp.
  assert (Hden : (0 < 2 * inject_Z S * inject_Z d)%Q).
  { apply Qmult_lt_0_compat; [apply Qmult_lt_0_compat|]; done. }
  apply Qabs_Qle_condition. split.
  - apply Qle_minus_iff.
    assert (Heq : (inject_Z m * (inject_Z P / inject_Z S)
                   - inject_Z n / inject_Z d
                   + - - (inject_Z P / inject_Z S / 2)
                   == inject_Z (P * d + 2 * (m * (P * d) - n * S))
                      / (2 * inject_Z S * inject_Z d))%Q).
    { unfold Z.sub.
      repeat rewrite ?inject_Z_plus, ?inject_Z_mult, ?inject_Z_opp.
      change (inject_Z 2) with 2%Q. field. split; done. }
    rewrite Heq. apply Qle_shift_div_l; [done|].
    rewrite Qmult_0_l. change 0%Q with (inject_Z 0). rewrite <- Zle_Qle. lia.
  - apply Qle_minus_iff.
    assert (Heq : (inject_Z P / inject_Z S / 2
                   + - (inject_Z m * (inject_Z P / inject_Z S)
                        - inject_Z n / inject_Z d)
                   == inject_Z (P * d - 2 * (m * (P * d) - n * S))
                      / (2 * inject_Z S * inject_Z d))%Q).
    { unfold Z.sub.
      repeat rewrite ?inject_Z_plus, ?inject_Z_mult, ?inject_Z_opp.
      change (inject_Z 2) with 2%Q. field. split; done. }
    rewrite Heq. apply Qle_shift_div_l; [done|].
    rewrite Qmult_0_l. change 0%Q with (inject_Z 0). rewrite <- Zle_Qle. lia.
Qed.

Lemma Qpow2_sub a b : 0 <= a -> 0 <= b ->
  (2 ^ (a - b) == inject_Z (2 ^ a) / inject_Z (2 ^ b))%Q.
Proof.
  intros Ha Hb. rewrite Qpower_minus by done.
  rewrite !Zpower_Qpower by done. reflexivity.
Qed.

Lemma Qpow2_pos e : (0 < 2 ^ e)%Q.
Proof. by apply Qpower_0_lt. Qed.

Lemma Qpow2_succ e : (2 ^ (e + 1) == 2 * 2 ^ e)%Q.
Proof. rewrite Qpower_plus by done. rewrite Qmult_comm. reflexivity. Qed.

Lemma Qpow2_pred e : (2 ^ (e - 1) == 2 ^ e / 2)%Q.
Proof. rewrite Qpower_minus by done. reflexivity. Qed.

(** ** The value of the rounded quotient *)

Lemma div_value_unsigned n d : 0 < n -> 0 < d ->
  (Qabs (inject_Z (div_mr n d) * 2 ^ div_e1 n d - inject_Z n / inject_Z d)
   <= 2 ^ (div_e1 n d - 1))%Q.
Proof.
  intros Hn Hd.
  pose proof (div_params n d Hn Hd) as (He' & HN & Hn1 & HD & Hmr & Hrnd).
  set (E := - div_e' n d). assert (HE : 0 <= E) by (unfold E; lia).
  replace (div_e1 n d) with (div_n1 n d - E) by (unfold div_e1, E; lia).
  rewrite Qpow2_pred, Qpow2_sub by done.
  apply scaled_error; [by apply pow2_pos|done|done].
Qed.

Lemma bounded_to_pos mr e :
  0 < mr < 2 ^ 53 -> -1074 <= e <= 971 ->
  (-1074 < e -> 2 ^ 52 <= mr) ->
  bounded 53 1024 (Z.to_pos mr) e = true.
Proof.
  intros Hmr He Hnorm. unfold bounded, canonical_mantissa.
  apply andb_true_intro. split; [|apply Z.leb_le; simpl; lia].
  apply Z.eqb_eq. rewrite fexp64.
  assert (Hd : Z.pos (digits2_pos (Z.to_pos mr)) = Zdigits2 mr)
    by (destruct mr; simpl; lia).
  rewrite Hd.
  assert (Hle : Zdigits2 mr <= 53) by (apply Zdigits2_le_iff; lia).
  destruct (Z.eq_dec e (-1074)) as [->|Hne]; [lia|].
  assert (53 <= Zdigits2 mr); [|lia].
  destruct (Z.le_gt_cases 53 (Zdigits2 mr)) as [|Hlt]; [done|].
  assert (Zdigits2 mr <= 52) as H52 by lia.
  apply Zdigits2_le_iff in H52; lia.
Qed.

(** Below the threshold the result is a double within half a unit in the
    last place of the exact quotient. *)
Lemma div_result_rounds s n d : 0 < n -> 0 < d ->
  n < overflow_threshold * d ->
  is_double (div_result s n d)
  /\ (Qabs (float_value (div_result s n d)
            - inject_Z (if s then - n else n) / inject_Z d)
      <= half_ulp (div_result s n d))%Q.
Proof.
  intros Hn Hd Hlt.
  pose proof (div_params n d Hn Hd) as (He' & HN & Hn1 & HD & Hmr & Hrnd).
  pose proof (div_result_in_range n d Hn Hd Hlt) as [H53 H971].
  pose proof (div_value_unsigned n d Hn Hd) as Hval.
  pose proof (div_mr_normal n d Hn Hd) as Hnorm.
  assert (He1 : -1074 <= div_e1 n d) by (unfold div_e1; lia).
  assert (Hsign : forall v : Q,
    (Qabs ((if s then - v else v)
           - inject_Z (if s then - n else n) / inject_Z d)
     == Qabs (v - inject_Z n / inject_Z d))%Q).
  { intros v. destruct s; [|reflexivity].
    rewrite <- (Qabs_opp (v - _)). apply Qabs_wd.
    rewrite inject_Z_opp. field. by apply inject_Z_pos_neq0. }
  unfold div_result.
  destruct (Z.eqb_spec (div_mr n d) 0) as [H0|H0].
  - (* the quotient rounds to zero *)
    split; [done|]. simpl.
    assert (He : div_e1 n d = -1074).
    { destruct (Z.eq_dec (div_e1 n d) (-1074)) as [|Hne]; [done|].
      pose proof (pow2_pos 52). specialize (Hnorm ltac:(lia)). lia. }
    rewrite H0, He in Hval.
    specialize (Hsign 0%Q). 
    assert (H00 : ((if s then - 0 else 0) == 0)%Q) by (by destruct s).
    rewrite H00 in Hsign. rewrite Hsign.
    rewrite Qmult_0_l in Hval. exact Hval.
  - destruct (Z.eqb_spec (div_mr n d) (2 ^ 53)) as [E53|N53].
    + specialize (H53 E53).
      destruct (Z.leb_spec (div_e1 n d + 1) 971) as [_|]; [|lia].
      split.
      * simpl. apply (bounded_to_pos (2 ^ 52)); [done|lia|done].
      * cbn [float_value half_ulp].
        assert (Hv : (inject_Z (if s then Z.neg (Z.to_pos (2 ^ 52))
                                else Z.pos (Z.to_pos (2 ^ 52)))
                      * 2 ^ (div_e1 n d + 1)
                      == (if s then - (inject_Z (2 ^ 53) * 2 ^ div_e1 n d)
                          else inject_Z (2 ^ 53) * 2 ^ div_e1 n d))%Q).
        { rewrite Qpow2_succ. destruct s.
          - change (inject_Z (Z.neg (Z.to_pos (2 ^ 52))))
              with (- inject_Z (2 ^ 52))%Q.
            change (inject_Z (2 ^ 53)) with (2 * inject_Z (2 ^ 52))%Q. ring.
          - change (inject_Z (Z.pos (Z.to_pos (2 ^ 52))))
              with (inject_Z (2 ^ 52))%Q.
            change (inject_Z (2 ^ 53)) with (2 * inject_Z (2 ^ 52))%Q. ring. }
        rewrite Hv, Hsign. rewrite E53 in Hval.
        eapply Qle_trans; [exact Hval|].
        replace (div_e1 n d + 1 - 1) with (div_e1 n d) by lia.
        rewrite Qpow2_pred. apply Qle_shift_div_r; [done|].
        pose proof (Qpow2_pos (div_e1 n d)) as Hp.
        rewrite <- (Qmult_1_r (2 ^ div_e1 n d)) at 1.
        apply Qmult_le_l; [done|]. done.
    + destruct (Z.leb_spec (div_e1 n d) 971) as [_|]; [|lia].
      split.
      * simpl. apply bounded_to_pos; [lia|lia|done].
      * cbn [float_value half_ulp].
        assert (Hv : (inject_Z (if s then Z.neg (Z.to_pos (div_mr n d))
                                else Z.pos (Z.to_pos (div_mr n d)))
                      * 2 ^ div_e1 n d
                      == (if s then - (inject_Z (div_mr n d) * 2 ^ div_e1 n d)
                          else inject_Z (div_mr n d) * 2 ^ div_e1 n d))%Q).
        { destruct (div_mr n d) as [|p|p] eqn:Ep; try lia. destruct s.
          - change (inject_Z (Z.neg (Z.to_pos (Z.pos p))))
              with (- inject_Z (Z.pos p))%Q.
            ring.
          - reflexivity. }
        rewrite Hv, Hsign. exact Hval.
Qed.

(** ** Comparing doubles is comparing their values *)

Lemma bounded_bounds m e : bounded 53 1024 m e = true ->
  -1074 <= e <= 971 /\ Z.pos m < 2 ^ 53 /\ (-1074 < e -> 2 ^ 52 <= Z.pos m).
Proof.
  unfold bounded, canonical_mantissa. rewrite fexp64.
  intros [Hc He]%andb_prop. apply Z.eqb_eq in Hc. apply Z.leb_le in He.
  simpl in He.
  change (Z.pos (digits2_pos m)) with (Zdigits2 (Z.pos m)) in Hc.
  pose proof (Zdigits2_bounds (Z.pos m) ltac:(lia)) as [Hlo Hhi].
  split; [lia|]. split.
  - apply Zdigits2_le_iff; lia.
  - intros Hn. replace (Zdigits2 (Z.pos m)) with 53 in Hlo by lia. exact Hlo.
Qed.

Lemma Qcompare_scale (a b : Z) (c : Q) : (0 < c)%Q ->
  (inject_Z a * c ?= inject_Z b * c)%Q = (a ?= b).
Proof.
  intros Hc. destruct (Z.compare_spec a b) as [->|Hlt|Hgt].
  - apply Qeq_alt. reflexivity.
  - apply Qlt_alt. apply Qmult_lt_compat_r; [done|]. by rewrite <- Zlt_Qlt.
  - apply Qgt_alt. apply Qmult_lt_compat_r; [done|]. by rewrite <- Zlt_Qlt.
Qed.

Lemma Qpow2_shift (z e e0 : Z) : e0 <= e ->
  (inject_Z z * 2 ^ e == inject_Z (z * 2 ^ (e - e0)) * 2 ^ e0)%Q.
Proof.
  intros He. rewrite inject_Z_mult, Zpower_Qpower by lia.
  rewrite <- Qmult_assoc, <- Qpower_plus by done.
  replace (e - e0 + e0) with e by lia. reflexivity.
Qed.

Lemma canonical_lt m1 e1 m2 e2 :
  bounded 53 1024 m1 e1 = true -> bounded 53 1024 m2 e2 = true ->
  e1 < e2 -> Z.pos m1 < Z.pos m2 * 2 ^ (e2 - e1).
Proof.
  intros (He1 & Hm1 & _)%bounded_bounds (He2 & _ & Hm2)%bounded_bounds Hlt.
  specialize (Hm2 ltac:(lia)).
  assert (H2 : 2 ^ 1 <= 2 ^ (e2 - e1)) by (apply Z.pow_le_mono_r; lia).
  change (2 ^ 53) with (2 ^ 52 * 2 ^ 1) in Hm1.
  assert (0 < 2 ^ 52) by (by apply pow2_pos).
  assert (2 ^ 52 * 2 ^ 1 <= Z.pos m2 * 2 ^ (e2 - e1))
    by (apply Z.mul_le_mono_nonneg; lia).
  lia.
Qed.

Lemma float_compare_pos m1 e1 m2 e2 :
  bounded 53 1024 m1 e1 = true -> bounded 53 1024 m2 e2 = true ->
  (inject_Z (Z.pos m1) * 2 ^ e1 ?= inject_Z (Z.pos m2) * 2 ^ e2)%Q
  = match e1 ?= e2 with
    | Lt => Lt
    | Gt => Gt
    | Eq => Pos.compare_cont Eq m1 m2
    end.
Proof.
  intros H1 H2. destruct (Z.compare_spec e1 e2) as [->|Hlt|Hgt].
  - rewrite Qcompare_scale by apply Qpow2_pos. reflexivity.
  - rewrite (Qpow2_shift (Z.pos m2) e2 e1) by lia.
    rewrite Qcompare_scale by apply Qpow2_pos.
    apply Z.compare_lt_iff. by apply canonical_lt.
  - rewrite (Qpow2_shift (Z.pos m1) e1 e2) by lia.
    rewrite Qcompare_scale by apply Qpow2_pos.
    apply Z.compare_gt_iff. by apply canonical_lt.
Qed.

Lemma Qcompare_opp (x y : Q) : (- x ?= - y)%Q = CompOpp (x ?= y)%Q.
Proof.
  unfold Qcompare. simpl. rewrite !Z.mul_opp_l, Z.compare_opp.
  apply Z.compare_antisym.
Qed.

Lemma float_value_sign s m e :
  (float_value (S754_finite s m e)
   == if s then - (inject_Z (Z.pos m) * 2 ^ e)
      else inject_Z (Z.pos m) * 2 ^ e)%Q.
Proof.
  destruct s; simpl; [|reflexivity].
  change (inject_Z (Z.neg m)) with (- inject_Z (Z.pos m))%Q. ring.
Qed.

Lemma float_value_pos m e : (0 < inject_Z (Z.pos m) * 2 ^ e)%Q.
Proof.
  apply Qmult_lt_0_compat; [by apply inject_Z_pos | apply Qpow2_pos].
Qed.

(** [SFcompare] orders doubles as their values are ordered. *)
Lemma SFcompare_value f g : is_double f -> is_double g ->
  SFcompare f g = Some (float_value f ?= float_value g)%Q.
Proof.
  destruct f as [sf| | |sf mf ef]; try done;
    destruct g as [sg| | |sg mg eg]; try done; intros Hf Hg.
  - unfold SFcompare. f_equal. symmetry.
    pose proof (float_value_pos mg eg) as Hp.
    rewrite float_value_sign. change (float_value (S754_zero sf)) with 0%Q.
    destruct sg.
    + apply Qgt_alt. apply Qopp_lt_compat in Hp. exact Hp.
    + by apply Qlt_alt.
  - unfold SFcompare. f_equal. symmetry.
    pose proof (float_value_pos mf ef) as Hp.
    rewrite float_value_sign. change (float_value (S754_zero sg)) with 0%Q.
    destruct sf.
    + apply Qlt_alt. apply Qopp_lt_compat in Hp. exact Hp.
    + by apply Qgt_alt.
  - unfold SFcompare. f_equal. symmetry.
    rewrite !float_value_sign.
    pose proof (float_value_pos mf ef) as Hpf.
    pose proof (float_value_pos mg eg) as Hpg.
    destruct sf, sg.
    + rewrite Qcompare_opp, float_compare_pos by done.
      by destruct (ef ?= eg).
    + apply Qlt_alt. apply Qopp_lt_compat in Hpf.
      eapply Qlt_trans; [exact Hpf|exact Hpg].
    + apply Qgt_alt. apply Qopp_lt_compat in Hpg.
      eapply Qlt_trans; [exact Hpg|exact Hpf].
    + by apply float_compare_pos.
Qed.

(** ** Rounding is monotone *)

Lemma Qdiv_lt_cross (n d P S : Z) : 0 < d -> 0 < S ->
  (inject_Z n / inject_Z d < inject_Z P / inject_Z S)%Q <-> n * S < P * d.
Proof.
  intros Hd HS.
  pose proof (inject_Z_pos d Hd) as Hdp. pose proof (inject_Z_pos S HS) as HSp.
  pose proof (inject_Z_pos_neq0 d Hd) as Hd0.
  pose proof (inject_Z_pos_neq0 S HS) as HS0.
  rewrite Zlt_Qlt, !inject_Z_mult. split; intros H.
  - apply (Qmult_lt_compat_r _ _ (inject_Z d * inject_Z S)) in H;
      [|by apply Qmult_lt_0_compat].
    assert (E1 : (inject_Z n / inject_Z d * (inject_Z d * inject_Z S)
                  == inject_Z n * inject_Z S)%Q) by (by field).
    assert (E2 : (inject_Z P / inject_Z S * (inject_Z d * inject_Z S)
                  == inject_Z P * inject_Z d)%Q) by (by field).
    by rewrite E1, E2 in H.
  - apply Qlt_shift_div_l; [done|].
    assert (E : (inject_Z n / inject_Z d * inject_Z S
                 == inject_Z n * inject_Z S / inject_Z d)%Q) by (by field).
    rewrite E. by apply Qlt_shift_div_r.
Qed.

Lemma Qdiv_le_cross (n d P S : Z) : 0 < d -> 0 < S ->
  (inject_Z n / inject_Z d <= inject_Z P / inject_Z S)%Q <-> n * S <= P * d.
Proof.
  intros Hd HS. split; intros H.
  - apply Z.le_ngt. intros Hlt. apply (Qdiv_lt_cross P S n d) in Hlt; [|done..].
    by apply Qlt_not_le in Hlt.
  - apply Qnot_lt_le. intros Hlt.
    apply (Qdiv_lt_cross P S n d) in Hlt; [|done..]. lia.
Qed.

(** The scaled quotient lies in the binade of the result's exponent. *)
Lemma div_scaled_bounds n d : 0 < n -> 0 < d ->
  div_N n d < 2 ^ 53 * (2 ^ div_n1 n d * d)
  /\ (-1074 < div_e1 n d -> 2 ^ 52 * (2 ^ div_n1 n d * d) <= div_N n d).
Proof.
  intros Hn Hd.
  pose proof (div_params n d Hn Hd) as (He' & HN & Hn1 & HD & Hmr & _).
  set (D := 2 ^ div_n1 n d * d) in *.
  pose proof (Z.div_mod (div_N n d) D ltac:(lia)) as Hdm.
  pose proof (Z.mod_pos_bound (div_N n d) D HD) as Hmod.
  assert (Hq : div_N n d / D = div_N n d / d / 2 ^ div_n1 n d).
  { unfold D. rewrite (Z.mul_comm (2 ^ _)), Z.div_div; [done|lia|].
    by apply pow2_pos. }
  split.
  - enough (div_N n d / D < 2 ^ 53) by nia.
    rewrite Hq. set (q := div_N n d / d).
    assert (Hq0 : 0 <= q) by (apply Z.div_pos; lia).
    apply Z.div_lt_upper_bound; [by apply pow2_pos|].
    rewrite <- pow2_split by lia.
    destruct (Z.eq_dec q 0) as [->|Hq1]; [apply pow2_pos; lia|].
    apply Zdigits2_le_iff; [lia|lia|]. unfold div_n1. fold q. lia.
  - intros He1.
    enough (2 ^ 52 <= div_N n d / D) by nia.
    rewrite Hq. set (q := div_N n d / d).
    assert (Hq0 : 0 <= q) by (apply Z.div_pos; lia).
    destruct (Z.eq_dec (div_n1 n d) 0) as [H0|H0].
    + rewrite H0, Z.pow_0_r, Z.div_1_r.
      apply div_q_normal; try done. unfold div_e1 in He1. lia.
    + destruct (div_n1_digits n d Hn Hd ltac:(lia)) as [Hqpos Hdig].
      fold q in Hqpos, Hdig.
      pose proof (Zdigits2_bounds q Hqpos) as [Hql _]. rewrite Hdig in Hql.
      replace (div_n1 n d + 53 - 1) with (52 + div_n1 n d) in Hql by lia.
      rewrite pow2_split in Hql by lia.
      apply Z.div_le_lower_bound; [by apply pow2_pos|]. lia.
Qed.

Lemma div_binade n d : 0 < n -> 0 < d ->
  (inject_Z n / inject_Z d < 2 ^ (div_e1 n d + 53))%Q
  /\ (-1074 < div_e1 n d ->
      (2 ^ (div_e1 n d + 52) <= inject_Z n / inject_Z d)%Q).
Proof.
  intros Hn Hd.
  pose proof (div_params n d Hn Hd) as (He' & HN & Hn1 & HD & Hmr & _).
  destruct (div_scaled_bounds n d Hn Hd) as [Hhi Hlo].
  set (E := - div_e' n d) in *. assert (HE : 0 <= E) by (unfold E; lia).
  assert (HNE : div_N n d = n * 2 ^ E) by reflexivity.
  pose proof (pow2_pos E HE) as HpE.
  split.
  - replace (div_e1 n d + 53) with (div_n1 n d + 53 - E)
      by (unfold div_e1, E; lia).
    rewrite Qpow2_sub by lia. apply Qdiv_lt_cross; [done..|].
    rewrite pow2_split by lia. lia.
  - intros He1. specialize (Hlo He1).
    replace (div_e1 n d + 52) with (div_n1 n d + 52 - E)
      by (unfold div_e1, E; lia).
    rewrite Qpow2_sub by lia. apply Qdiv_le_cross; [done..|].
    rewrite pow2_split by lia. lia.
Qed.

Lemma Qpow2_le a b : a <= b -> (2 ^ a <= 2 ^ b)%Q.
Proof. intros H. by apply Qpower_le_compat_l. Qed.

(** The rational the rounded quotient stands for, before the range check. *)
Lemma div_value_mono n1 d1 n2 d2 :
  0 < n1 -> 0 < d1 -> 0 < n2 -> 0 < d2 ->
  n1 * d2 <= n2 * d1 ->
  (inject_Z (div_mr n1 d1) * 2 ^ div_e1 n1 d1
   <= inject_Z (div_mr n2 d2) * 2 ^ div_e1 n2 d2)%Q.
Proof.
  intros Hn1 Hd1 Hn2 Hd2 Hle.
  pose proof (div_params n1 d1 Hn1 Hd1) as (He1' & HN1 & Hk1 & HD1 & Hmr1 & _).
  pose proof (div_params n2 d2 Hn2 Hd2) as (He2' & HN2 & Hk2 & HD2 & Hmr2 & _).
  destruct (div_binade n1 d1 Hn1 Hd1) as [Hhi1 Hlo1].
  destruct (div_binade n2 d2 Hn2 Hd2) as [Hhi2 Hlo2].
  assert (Hx : (inject_Z n1 / inject_Z d1 <= inject_Z n2 / inject_Z d2)%Q)
    by (by apply Qdiv_le_cross).
  (* the exponents are ordered *)
  assert (Hee : div_e1 n1 d1 <= div_e1 n2 d2).
  { destruct (Z.le_gt_cases (div_e1 n1 d1) (div_e1 n2 d2)) as [|Hgt]; [done|].
    exfalso. specialize (Hlo1 ltac:(unfold div_e1 in *; lia)).
    assert (Hp : (2 ^ (div_e1 n2 d2 + 53) <= 2 ^ (div_e1 n1 d1 + 52))%Q)
      by (apply Qpow2_le; lia).
    apply (Qlt_irrefl (inject_Z n2 / inject_Z d2)).
    eapply Qlt_le_trans; [exact Hhi2|].
    eapply Qle_trans; [exact Hp|]. by eapply Qle_trans. }
  destruct (Z.eq_dec (div_e1 n1 d1) (div_e1 n2 d2)) as [Heq|Hne].
  - (* same exponent: the significands are ordered *)
    rewrite Heq. apply Qmult_le_compat_r; [|apply Qlt_le_weak, Qpow2_pos].
    rewrite <- Zle_Qle. unfold div_mr. apply rhe_mono; [done..|].
    unfold div_N.
    set (E1 := - div_e' n1 d1) in *. set (E2 := - div_e' n2 d2) in *.
    assert (Ht : E1 + div_n1 n2 d2 = E2 + div_n1 n1 d1)
      by (unfold div_e1, E1, E2 in *; lia).
    transitivity (n1 * d2 * 2 ^ (E1 + div_n1 n2 d2)).
    { rewrite pow2_split by lia. lia. }
    transitivity (n2 * d1 * 2 ^ (E2 + div_n1 n1 d1)).
    { rewrite Ht. apply Z.mul_le_mono_nonneg_r; [|done].
      apply Z.lt_le_incl, pow2_pos. lia. }
    rewrite pow2_split by lia. lia.
  - (* a smaller exponent: a power of two lies between the results *)
    specialize (Hlo2 ltac:(unfold div_e1 in *; lia)).
    pose proof (div_mr_normal n2 d2 Hn2 Hd2 ltac:(unfold div_e1 in *; lia))
      as Hm2.
    apply Qle_trans with (inject_Z (2 ^ 53) * 2 ^ div_e1 n1 d1)%Q.
    { apply Qmult_le_compat_r; [|apply Qlt_le_weak, Qpow2_pos].
      rewrite <- Zle_Qle. lia. }
    apply Qle_trans with (inject_Z (2 ^ 52) * 2 ^ div_e1 n2 d2)%Q.
    { rewrite !Zpower_Qpower by lia.
      rewrite <- !Qpower_plus by done. apply Qpow2_le. lia. }
    apply Qmult_le_compat_r; [|apply Qlt_le_weak, Qpow2_pos].
    by rewrite <- Zle_Qle.
Qed.

(** ** A quotient that is a double is returned as it is *)

Lemma rhe_exact k D : 0 < D -> rhe (k * D) D = k.
Proof.
  intros HD. unfold rhe, loc_of_frac.
  rewrite Z.mod_mul, Z.div_mul by lia. reflexivity.
Qed.

Lemma Qdiv_eq_cross (n d P S : Z) : 0 < d -> 0 < S ->
  (inject_Z n / inject_Z d == inject_Z P / inject_Z S)%Q -> n * S = P * d.
Proof.
  intros Hd HS Heq. apply Z.le_antisymm.
  - apply (Qdiv_le_cross n d P S); [done..|]. rewrite Heq. apply Qle_refl.
  - apply (Qdiv_le_cross P S n d); [done..|]. rewrite Heq. apply Qle_refl.
Qed.

Lemma div_result_exact s n d m e : 0 < n -> 0 < d ->
  bounded 53 1024 m e = true ->
  (inject_Z n / inject_Z d == inject_Z (Z.pos m) * 2 ^ e)%Q ->
  div_result s n d = S754_finite s m e.
Proof.
  intros Hn Hd Hb Hx.
  destruct (bounded_bounds m e Hb) as (He & Hm53 & Hm52).
  pose proof (div_params n d Hn Hd) as (He' & HN & Hn1 & HD & Hmr & _).
  destruct (div_binade n d Hn Hd) as [Hhi Hlo].
  assert (He1 : -1074 <= div_e1 n d) by (unfold div_e1; lia).
  (* the value of [m * 2^e] lies in the binade of [e] *)
  assert (Hfhi : (inject_Z (Z.pos m) * 2 ^ e < 2 ^ (e + 53))%Q).
  { rewrite (Z.add_comm e), Qpower_plus by done.
    apply Qmult_lt_compat_r; [apply Qpow2_pos|].
    rewrite Zlt_Qlt, Zpower_Qpower in Hm53 by lia. exact Hm53. }
  assert (Hflo : -1074 < e -> (2 ^ (e + 52) <= inject_Z (Z.pos m) * 2 ^ e)%Q).
  { intros Hn'. rewrite (Z.add_comm e), Qpower_plus by done.
    apply Qmult_le_compat_r; [|apply Qlt_le_weak, Qpow2_pos].
    specialize (Hm52 Hn'). rewrite Zle_Qle, Zpower_Qpower in Hm52 by lia.
    exact Hm52. }
  (* so the two exponents agree *)
  assert (Hee : div_e1 n d = e).
  { destruct (Z.lt_trichotomy (div_e1 n d) e) as [Hlt|[Heq|Hgt]]; [|done|].
    - exfalso. specialize (Hflo ltac:(lia)). rewrite <- Hx in Hflo.
      apply (Qlt_irrefl (inject_Z n / inject_Z d)).
      eapply Qlt_le_trans; [exact Hhi|].
      eapply Qle_trans; [|exact Hflo]. apply Qpow2_le. lia.
    - exfalso. specialize (Hlo ltac:(lia)). rewrite Hx in Hlo.
      apply (Qlt_irrefl (inject_Z (Z.pos m) * 2 ^ e)).
      eapply Qlt_le_trans; [exact Hfhi|].
      eapply Qle_trans; [|exact Hlo]. apply Qpow2_le. lia. }
  (* and the scaled quotient is the integer [m] *)
  assert (Hmr' : div_mr n d = Z.pos m).
  { unfold div_mr.
    enough (div_N n d = Z.pos m * (2 ^ div_n1 n d * d)) as ->
      by (by apply rhe_exact).
    set (E := - div_e' n d) in *. assert (HE : 0 <= E) by (unfold E; lia).
    assert (HNE : div_N n d = n * 2 ^ E) by reflexivity.
    assert (Hpow : (2 ^ e == inject_Z (2 ^ div_n1 n d) / inject_Z (2 ^ E))%Q).
    { rewrite <- Hee. unfold div_e1. fold E.
      replace (div_e' n d + div_n1 n d) with (div_n1 n d - E)
        by (unfold E; lia).
      by apply Qpow2_sub. }
    rewrite Hpow in Hx.
    assert (Hx' : (inject_Z n / inject_Z d
                   == inject_Z (Z.pos m * 2 ^ div_n1 n d) / inject_Z (2 ^ E))%Q).
    { rewrite Hx, inject_Z_mult. field. apply inject_Z_pos_neq0.
      by apply pow2_pos. }
    apply Qdiv_eq_cross in Hx'; [|done|by apply pow2_pos].
    rewrite HNE. lia. }
  unfold div_result. rewrite Hmr', Hee.
  destruct (Z.eqb_spec (Z.pos m) 0) as [|_]; [lia|].
  destruct (Z.eqb_spec (Z.pos m) (2 ^ 53)) as [|_]; [lia|].
  destruct (Z.leb_spec e 971) as [_|]; [|lia].
  reflexivity.
Qed.

(** ** Averages *)

Lemma extend_all_concat acc lists : extend_all acc lists = acc ++ concat lists.
Proof.
  revert acc. induction lists as [|l lists IH]; intros acc; simpl.
  - by rewrite app_nil_r.
  - unfold extend_all in *. simpl. rewrite IH. by rewrite app_assoc.
Qed.

Lemma own_average_grade_flat d :
  own_average_grade d = mean_or (VInt 0) (all_grades_of d).
Proof.
  unfold own_average_grade, all_grades_of.
  rewrite extend_all_concat. simpl. by destruct (concat (dict_values d)).
Qed.

Lemma concat_nil_Forall (ls : list (list Z)) :
  concat ls = [] <-> Forall (fun l => l = []) ls.
Proof.
  induction ls as [|l ls IH]; simpl.
  - split; [constructor | done].
  - split.
    + intros [-> H]%app_eq_nil. constructor; [done | by apply IH].
    + intros H. inversion H as [|?? -> H']; subst. simpl. by apply IH.
Qed.

(** ** The quotient of two integers *)

Lemma int_true_div_result a b : 0 < b ->
  int_true_div a b =
    if a =? 0 then Return (VFloat (S754_zero false))
    else match div_result (a <? 0) (Z.abs a) b with
         | S754_infinity _ => Raise OverflowError
         | q => Return (VFloat q)
         end.
Proof.
  intros Hb. unfold int_true_div.
  destruct (Z.eqb_spec b 0) as [|_]; [lia|].
  destruct (Z.ltb_spec b 0) as [|_]; [lia|].
  destruct (Z.eqb_spec a 0) as [|Ha]; [done|].
  unfold Float64.div, Float64.prec, Float64.emax.
  destruct b as [|pb|pb]; try lia.
  destruct a as [|pa|pa]; try lia; cbn [Float64.of_int_exact];
    rewrite SFdiv_int_closed, div_closed_result by lia; reflexivity.
Qed.

Lemma int_true_div_overflow a b : 0 < b ->
  overflow_threshold * b <= Z.abs a ->
  int_true_div a b = Raise OverflowError.
Proof.
  intros Hb Hge. rewrite int_true_div_result by done.
  assert (HT : 0 < overflow_threshold).
  { unfold overflow_threshold.
    assert (2 ^ 970 < 2 ^ 1024) by (apply Z.pow_lt_mono_r; lia). lia. }
  assert (Ha : 0 < Z.abs a) by nia.
  destruct (Z.eqb_spec a 0) as [|_]; [lia|].
  by rewrite div_result_overflow.
Qed.

Lemma int_true_div_rounds a b : 0 < b ->
  Z.abs a < overflow_threshold * b ->
  ∃ f, int_true_div a b = Return (VFloat f)
    ∧ rounds_to (inject_Z a / inject_Z b) f.
Proof.
  intros Hb Hlt. rewrite int_true_div_result by done.
  destruct (Z.eqb_spec a 0) as [->|Ha].
  - exists (S754_zero false). split; [done|]. split; [done|].
    cbn [float_value half_ulp].
    assert (H0 : (0 - inject_Z 0 / inject_Z b == 0)%Q)
      by (field; by apply inject_Z_pos_neq0).
    rewrite H0. change (Qabs 0) with 0%Q. apply Qlt_le_weak, Qpow2_pos.
  - destruct (div_result_rounds (a <? 0) (Z.abs a) b ltac:(lia) Hb Hlt)
      as [Hd Hv].
    assert (Hsigned : (if a <? 0 then - Z.abs a else Z.abs a) = a)
      by (destruct (Z.ltb_spec a 0); lia).
    rewrite Hsigned in Hv.
    destruct (div_result (a <? 0) (Z.abs a) b) as [s| | |s m e] eqn:Hr;
      try done; eexists; (split; [reflexivity|]); by split.
Qed.

Lemma div_result_value s n d : 0 < n -> 0 < d ->
  match div_result s n d with
  | S754_infinity _ => True
  | f => (float_value f
          == if s then - (inject_Z (div_mr n d) * 2 ^ div_e1 n d)
             else inject_Z (div_mr n d) * 2 ^ div_e1 n d)%Q
  end.
Proof.
  intros Hn Hd.
  pose proof (div_params n d Hn Hd) as (He' & HN & Hn1 & HD & Hmr & _).
  unfold div_result.
  destruct (Z.eqb_spec (div_mr n d) 0) as [H0|H0].
  - rewrite H0. cbn [float_value]. destruct s; ring.
  - destruct (Z.eqb_spec (div_mr n d) (2 ^ 53)) as [E53|N53].
    + destruct (Z.leb_spec (div_e1 n d + 1) 971); [|done].
      rewrite float_value_sign, E53.
      change (inject_Z (Z.pos (Z.to_pos (2 ^ 52)))) with (inject_Z (2 ^ 52)).
      change (inject_Z (2 ^ 53)) with (2 * inject_Z (2 ^ 52))%Q.
      destruct s; rewrite Qpow2_succ; ring.
    + destruct (Z.leb_spec (div_e1 n d) 971); [|done].
      rewrite float_value_sign. rewrite Z2Pos.id by lia. reflexivity.
Qed.

Lemma int_true_div_value a b v : 0 < b ->
  int_true_div a b = Return v -> (num_value v == rounded_quotient a b)%Q.
Proof.
  intros Hb. rewrite int_true_div_result by done. unfold rounded_quotient.
  destruct (Z.eqb_spec a 0) as [->|Ha]; [by intros [= <-]|].
  pose proof (div_result_value (a <? 0) (Z.abs a) b ltac:(lia) Hb) as Hv.
  destruct (div_result (a <? 0) (Z.abs a) b); try done;
    by intros [= <-].
Qed.

Lemma rounded_quotient_sign a b : 0 < b ->
  (0 <= a -> (0 <= rounded_quotient a b)%Q)
  /\ (a <= 0 -> (rounded_quotient a b <= 0)%Q).
Proof.
  intros Hb. unfold rounded_quotient.
  destruct (Z.eqb_spec a 0) as [->|Ha]; [done|].
  pose proof (div_params (Z.abs a) b ltac:(lia) Hb)
    as (_ & _ & _ & _ & Hmr & _).
  assert (Hv : (0 <= inject_Z (div_mr (Z.abs a) b) * 2 ^ div_e1 (Z.abs a) b)%Q).
  { apply Qmult_le_0_compat; [|apply Qlt_le_weak, Qpow2_pos].
    change 0%Q with (inject_Z 0). rewrite <- Zle_Qle. lia. }
  destruct (Z.ltb_spec a 0); split; intros; try lia; try done.
  apply Qopp_le_compat in Hv. exact Hv.
Qed.

Lemma rounded_quotient_mono a1 b1 a2 b2 : 0 < b1 -> 0 < b2 ->
  a1 * b2 <= a2 * b1 -> (rounded_quotient a1 b1 <= rounded_quotient a2 b2)%Q.
Proof.
  intros Hb1 Hb2 Hle.
  destruct (rounded_quotient_sign a1 b1 Hb1) as [Hp1 Hn1].
  destruct (rounded_quotient_sign a2 b2 Hb2) as [Hp2 Hn2].
  destruct (Z.lt_trichotomy a1 0) as [H1|[H1|H1]];
    destruct (Z.lt_trichotomy a2 0) as [H2|[H2|H2]];
    try (exfalso; nia);
    try (apply Qle_trans with 0%Q; [apply Hn1|apply Hp2]; lia).
  - (* both negative *)
    unfold rounded_quotient.
    destruct (Z.eqb_spec a1 0); [lia|]. destruct (Z.eqb_spec a2 0); [lia|].
    destruct (Z.ltb_spec a1 0); [|lia]. destruct (Z.ltb_spec a2 0); [|lia].
    apply Qopp_le_compat. apply div_value_mono; lia.
  - (* both positive *)
    unfold rounded_quotient.
    destruct (Z.eqb_spec a1 0); [lia|]. destruct (Z.eqb_spec a2 0); [lia|].
    destruct (Z.ltb_spec a1 0); [lia|]. destruct (Z.ltb_spec a2 0); [lia|].
    apply div_value_mono; lia.
Qed.

Lemma Qdiv_sign a b : 0 < b ->
  (0 < a -> (0 < inject_Z a / inject_Z b)%Q)
  /\ (a < 0 -> (inject_Z a / inject_Z b < 0)%Q).
Proof.
  intros Hb. pose proof (inject_Z_pos b Hb) as Hbp. split; intros Ha.
  - apply Qlt_shift_div_l; [done|]. rewrite Qmult_0_l. by apply inject_Z_pos.
  - apply Qlt_shift_div_r; [done|]. rewrite Qmult_0_l.
    change 0%Q with (inject_Z 0). by rewrite <- Zlt_Qlt.
Qed.

(** A quotient that is the value of a double is returned exactly. *)
Lemma int_true_div_exact a b f : 0 < b ->
  is_double f -> (float_value f == inject_Z a / inject_Z b)%Q ->
  ∃ f', int_true_div a b = Return (VFloat f')
    ∧ (float_value f' == inject_Z a / inject_Z b)%Q.
Proof.
  intros Hb Hf Hv. rewrite int_true_div_result by done.
  destruct (Qdiv_sign a b Hb) as [Hpos Hneg].
  destruct (Z.eqb_spec a 0) as [->|Ha].
  - exists (S754_zero false). split; [done|]. simpl.
    unfold Qdiv. by rewrite Qmult_0_l.
  - destruct f as [s| | |s m e]; try done.
    + (* zero is not the value of a nonzero quotient *)
      exfalso. change (float_value (S754_zero s)) with 0%Q in Hv.
      destruct (Z.lt_trichotomy a 0) as [H|[H|H]]; [|done|].
      * specialize (Hneg H). rewrite <- Hv in Hneg. by apply Qlt_irrefl in Hneg.
      * specialize (Hpos H). rewrite <- Hv in Hpos. by apply Qlt_irrefl in Hpos.
    + rewrite float_value_sign in Hv.
      pose proof (float_value_pos m e) as Hp.
      destruct (Z.ltb_spec a 0) as [Hlt|Hge].
      * (* a negative quotient *)
        specialize (Hneg Hlt). destruct s.
        -- assert (Hx : (inject_Z (Z.abs a) / inject_Z b
                         == inject_Z (Z.pos m) * 2 ^ e)%Q).
           { replace (Z.abs a) with (- a) by lia. rewrite inject_Z_opp.
             assert (E : (- inject_Z a / inject_Z b
                          == - (inject_Z a / inject_Z b))%Q)
               by (field; by apply inject_Z_pos_neq0).
             rewrite E, <- Hv. ring. }
           rewrite (div_result_exact true (Z.abs a) b m e) by (done || lia).
           exists (S754_finite true m e). split; [done|].
           by rewrite float_value_sign.
        -- exfalso. rewrite <- Hv in Hneg.
           apply (Qlt_irrefl 0). by eapply Qlt_trans.
      * (* a positive quotient *)
        specialize (Hpos ltac:(lia)). destruct s.
        -- exfalso. rewrite <- Hv in Hpos.
           apply Qopp_lt_compat in Hp. apply (Qlt_irrefl 0).
           eapply Qlt_trans; [exact Hpos|exact Hp].
        -- assert (Hx : (inject_Z (Z.abs a) / inject_Z b
                         == inject_Z (Z.pos m) * 2 ^ e)%Q).
           { replace (Z.abs a) with a by lia. by rewrite <- Hv. }
           rewrite (div_result_exact false (Z.abs a) b m e) by (done || lia).
           exists (S754_finite false m e). split; [done|].
           by rewrite float_value_sign.
Qed.

(** ** The mean of a list of grades *)

Lemma exact_mean_quotient (l : list Z) : l ≠ [] ->
  (exact_mean l == inject_Z (sum l) / inject_Z (len l))%Q.
Proof.
  intros Hl. unfold exact_mean, len.
  destruct l as [|x l]; [done|].
  rewrite Qmake_Qdiv. simpl length.
  rewrite Nat2Z.inj_succ, <- Pos.of_nat_succ, Zpos_P_of_succ_nat. reflexivity.
Qed.

Lemma len_pos {A} (l : list A) : l ≠ [] -> 0 < len l.
Proof. destruct l; [done|]. unfold len. simpl. lia. Qed.

Lemma in_double_range_quotient a b : 0 < b ->
  in_double_range (inject_Z a / inject_Z b)
  <-> Z.abs a < overflow_threshold * b.
Proof.
  intros Hb. unfold in_double_range.
  assert (Habs : (Qabs (inject_Z a / inject_Z b)
                  == inject_Z (Z.abs a) / inject_Z b)%Q).
  { unfold Qdiv. rewrite Qabs_Qmult.
    rewrite (Qabs_pos (/ inject_Z b)).
    - reflexivity.
    - apply Qlt_le_weak, Qinv_lt_0_compat. by apply inject_Z_pos. }
  rewrite Habs. split.
  - intros H.
    apply (Qmult_lt_compat_r _ _ (inject_Z b)) in H; [|by apply inject_Z_pos].
    assert (Hc : (inject_Z (Z.abs a) / inject_Z b * inject_Z b
                  == inject_Z (Z.abs a))%Q)
      by (field; by apply inject_Z_pos_neq0).
    rewrite Hc, <- inject_Z_mult, <- Zlt_Qlt in H. exact H.
  - intros H. apply Qlt_shift_div_r; [by apply inject_Z_pos|].
    rewrite <- inject_Z_mult, <- Zlt_Qlt. exact H.
Qed.

Lemma mean_or_rounds empty (l : list Z) :
  l ≠ [] -> in_double_range (exact_mean l) ->
  ∃ f, mean_or empty l = Return (VFloat f) ∧ rounds_to (exact_mean l) f.
Proof.
  intros Hl Hr. pose proof (len_pos l Hl) as Hlen.
  unfold in_double_range in Hr. rewrite exact_mean_quotient in Hr by done.
  apply in_double_range_quotient in Hr; [|done].
  destruct (int_true_div_rounds (sum l) (len l) Hlen Hr) as (f & Hf & Hd & Hv).
  exists f. split; [by destruct l|].
  split; [done|]. by rewrite exact_mean_quotient.
Qed.

Lemma mean_or_overflow empty (l : list Z) :
  l ≠ [] -> ¬ in_double_range (exact_mean l) ->
  mean_or empty l = Raise OverflowError.
Proof.
  intros Hl Hr. pose proof (len_pos l Hl) as Hlen.
  destruct l as [|x l']; [done|]. cbn [mean_or].
  apply int_true_div_overflow; [done|].
  destruct (Z.le_gt_cases (overflow_threshold * len (x :: l'))
              (Z.abs (sum (x :: l')))) as [|Hlt]; [done|].
  exfalso. apply Hr. unfold in_double_range.
  rewrite exact_mean_quotient by done.
  by apply in_double_range_quotient.
Qed.

Lemma mean_or_exact empty (l : list Z) f :
  l ≠ [] -> is_double f -> (float_value f == exact_mean l)%Q ->
  ∃ f', mean_or empty l = Return (VFloat f')
    ∧ (float_value f' == exact_mean l)%Q.
Proof.
  intros Hl Hf Hv. pose proof (len_pos l Hl) as Hlen.
  rewrite exact_mean_quotient in Hv by done.
  destruct (int_true_div_exact (sum l) (len l) f Hlen Hf Hv) as (f' & Hr & Hv').
  exists f'. split; [by destruct l|]. by rewrite exact_mean_quotient.
Qed.

(** C3: [own_average_grade] returns the integer 0 when the grade map has no
    grade at all (no course, or only empty lists).  Otherwise it divides the
    sum of all grades of all courses by their number: when the exact mean is
    below the overflow threshold the result is a double within half a unit
    in the last place of the mean, it is the mean itself when the mean is a
    double, and from the threshold on the call raises [OverflowError]. *)
Theorem own_average_grade_mean (grades : grades_dict) :
  (all_grades_of grades = []
   <-> grades = [] ∨ Forall (fun l => l = []) (dict_values grades))
  /\ (all_grades_of grades = [] -> own_average_grade grades = Return (VInt 0))
  /\ (all_grades_of grades ≠ [] ->
      in_double_range (exact_mean (all_grades_of grades)) ->
      ∃ f, own_average_grade grades = Return (VFloat f)
        ∧ rounds_to (exact_mean (all_grades_of grades)) f)
  /\ (∀ f, all_grades_of grades ≠ [] -> is_double f ->
      (float_value f == exact_mean (all_grades_of grades))%Q ->
      ∃ f', own_average_grade grades = Return (VFloat f')
        ∧ (float_value f' == exact_mean (all_grades_of grades))%Q)
  /\ (all_grades_of grades ≠ [] ->
      ¬ in_double_range (exact_mean (all_grades_of grades)) ->
      own_average_grade grades = Raise OverflowError).
Proof.
  rewrite own_average_grade_flat. repeat split.
  - intros H. right. by apply concat_nil_Forall.
  - intros [->|H]; [done|]. by apply concat_nil_Forall.
  - by intros ->.
  - apply mean_or_rounds.
  - intros f. apply mean_or_exact.
  - apply mean_or_overflow.
Qed.

Lemma own_average_grade_mean_witness :
  own_average_grade [] = Return (VInt 0)
  /\ own_average_grade [("Python", []); ("GIT", [])] = Return (VInt 0)
  /\ (∃ f, own_average_grade (s_grades Demo.ivan) = Return (VFloat f)
        ∧ rounds_to (exact_mean [9; 10]) f)
  /\ (∃ f, own_average_grade (s_grades Demo.ivan) = Return (VFloat f)
        ∧ (float_value f == exact_mean (all_grades_of (s_grades Demo.ivan)))%Q).
Proof.
  split; [|split; [|split]].
  - by apply (own_average_grade_mean []).
  - by apply (own_average_grade_mean [("Python", []); ("GIT", [])]).
  - apply (own_average_grade_mean (s_grades Demo.ivan)).
    + discriminate.
    + reflexivity.
  - apply (own_average_grade_mean (s_grades Demo.ivan))
      with (f := S754_finite false 5348024557502464 (-49)).
    + discriminate.
    + reflexivity.
    + reflexivity.
Defined.

(** C3, counterexample: one grade of [2^1024] has the mean [2^1024], and
    [own_average_grade] raises instead of returning it. *)
Lemma own_average_grade_overflow :
  own_average_grade (s_grades Demo.clara) = Raise OverflowError
  /\ (exact_mean (all_grades_of (s_grades Demo.clara))
      == inject_Z Demo.huge)%Q.
Proof. split; [by vm_compute | reflexivity]. Qed.

(** ** Comparing numbers is comparing their values *)

Lemma Qcompare_inject (a b : Z) : (inject_Z a ?= inject_Z b)%Q = (a ?= b).
Proof. unfold Qcompare. simpl. by rewrite !Z.mul_1_r. Qed.

Lemma compare_int_value f z : is_double f ->
  Float64.compare_int f z = Some (float_value f ?= inject_Z z)%Q.
Proof.
  destruct f as [s| | |s m e]; try done; intros Hf.
  - unfold Float64.compare_int. f_equal.
    change (float_value (S754_zero s)) with (inject_Z 0).
    by rewrite Qcompare_inject.
  - unfold Float64.compare_int. f_equal. cbn [float_value].
    set (sm := if s then Z.neg m else Z.pos m).
    destruct (Z.leb_spec 0 e) as [He|He].
    + assert (Hv : (inject_Z sm * 2 ^ e == inject_Z (sm * 2 ^ e))%Q)
        by (by rewrite inject_Z_mult, Zpower_Qpower).
      by rewrite Hv, Qcompare_inject.
    + assert (Hz : (inject_Z z == inject_Z (z * 2 ^ (- e)) * 2 ^ e)%Q).
      { rewrite <- (Qpow2_shift z 0 e) by lia.
        change (2 ^ 0)%Q with 1%Q. by rewrite Qmult_1_r. }
      rewrite Hz, Qcompare_scale by apply Qpow2_pos. reflexivity.
Qed.

Lemma num_compare x y : is_number x -> is_number y ->
  (num_lt x y = true <-> (num_value x < num_value y)%Q)
  /\ (num_eq x y = true <-> (num_value x == num_value y)%Q).
Proof.
  intros Hx Hy.
  destruct x as [| |a|f| |]; try done; destruct y as [| |b|g| |]; try done;
    cbn [num_lt num_eq num_value].
  - rewrite Z.ltb_lt, Z.eqb_eq, Zlt_Qlt. split; [done|].
    split; [by intros -> | apply inject_Z_injective].
  - rewrite (compare_int_value g a Hy), Qlt_alt, Qeq_alt.
    rewrite <- !(Qcompare_antisym (float_value g) (inject_Z a)).
    destruct (float_value g ?= inject_Z a)%Q; simpl; split; split; done.
  - rewrite (compare_int_value f b Hx), Qlt_alt, Qeq_alt.
    destruct (float_value f ?= inject_Z b)%Q; split; split; done.
  - unfold Float64.ltb, Float64.eqb, SFltb, SFeqb.
    rewrite (SFcompare_value f g Hx Hy), Qlt_alt, Qeq_alt.
    destruct (float_value f ?= float_value g)%Q; split; split; done.
Qed.

(** ** Averages over a course *)

Lemma getattr_grades_entry h course x g :
  getattr_grades h x = Return g -> course_entry h course x = dict_get course g.
Proof.
  unfold getattr_grades, course_entry. destruct x; try done.
  destruct (h !! l ≫= grades_of); [by intros [= ->] | done].
Qed.

Lemma extend_course_entries h course xs acc :
  Forall (fun x => ∃ g, getattr_grades h x = Return g) xs ->
  extend_course h course xs acc
  = Return (acc ++ concat (course_entries h course xs)).
Proof.
  intros Hxs. revert acc.
  induction Hxs as [|x xs [g Hg] _ IH]; intros acc; simpl.
  - by rewrite app_nil_r.
  - rewrite Hg. unfold course_entries. simpl.
    rewrite (getattr_grades_entry _ _ _ _ Hg).
    destruct (dict_get course g) as [grades|]; rewrite IH; simpl.
    + by rewrite app_assoc.
    + done.
Qed.

Lemma is_Student_grades h x :
  is_Student h x -> ∃ g, getattr_grades h x = Return g.
Proof. intros (l & s & -> & Hl). simpl. rewrite Hl. by eexists. Qed.

Lemma is_Lecturer_grades h x :
  is_Lecturer h x -> ∃ g, getattr_grades h x = Return g.
Proof. intros (l & m & g & -> & Hl). simpl. rewrite Hl. by eexists. Qed.

Lemma students_average_grade_mean_or h students course :
  Forall (is_Student h) students ->
  students_average_grade h students course
  = mean_or (VFloat (S754_zero false))
      (concat (course_entries h course students)).
Proof.
  intros Hs. unfold students_average_grade.
  rewrite extend_course_entries.
  - simpl. by destruct (concat _).
  - eapply Forall_impl; [exact Hs | apply is_Student_grades].
Qed.

Lemma mentors_average_grade_mean_or h lecturers course :
  Forall (is_Lecturer h) lecturers ->
  mentors_average_grade h lecturers course
  = mean_or (VFloat (S754_zero false))
      (concat (course_entries h course lecturers)).
Proof.
  intros Hs. unfold mentors_average_grade.
  rewrite extend_course_entries.
  - simpl. by destruct (concat _).
  - eapply Forall_impl; [exact Hs | apply is_Lecturer_grades].
Qed.

Lemma course_entries_skip h course xs1 x xs2 :
  course_entry h course x = None ->
  course_entries h course (xs1 ++ x :: xs2)
  = course_entries h course (xs1 ++ xs2).
Proof.
  intros Hx. unfold course_entries. rewrite !omap_app. simpl. by rewrite Hx.
Qed.

Lemma mean_or_cases empty (l : list Z) :
  (l = [] -> mean_or empty l = Return empty)
  /\ (l ≠ [] -> in_double_range (exact_mean l) ->
      ∃ f, mean_or empty l = Return (VFloat f) ∧ rounds_to (exact_mean l) f)
  /\ (∀ f, l ≠ [] -> is_double f -> (float_value f == exact_mean l)%Q ->
      ∃ f', mean_or empty l = Return (VFloat f')
        ∧ (float_value f' == exact_mean l)%Q)
  /\ (l ≠ [] -> ¬ in_double_range (exact_mean l) ->
      mean_or empty l = Raise OverflowError).
Proof.
  split; [by intros ->|].
  split; [apply mean_or_rounds|].
  split; [intros f; apply mean_or_exact | apply mean_or_overflow].
Qed.

(** C5: over a list of students, [students_average_grade] averages the
    concatenation of the course's grade lists of those students that have
    an entry for the course; a student without an entry can be dropped from
    the list without changing the result.  The result is the float 0.0 when
    there is no grade, a double within half a unit in the last place of the
    exact mean when the mean is below the overflow threshold (the mean
    itself when it is a double), and [OverflowError] from the threshold on.
    [mentors_average_grade] does the same over a list of lecturers. *)
Theorem course_average_grade_mean (h : heap) (course : string)
    (students lecturers : list pyval) :
  Forall (is_Student h) students ->
  Forall (is_Lecturer h) lecturers ->
  let sg := concat (course_entries h course students) in
  let lg := concat (course_entries h course lecturers) in
  ((sg = [] ->
    students_average_grade h students course
    = Return (VFloat (S754_zero false)))
   ∧ (sg ≠ [] -> in_double_range (exact_mean sg) ->
      ∃ f, students_average_grade h students course = Return (VFloat f)
        ∧ rounds_to (exact_mean sg) f)
   ∧ (∀ f, sg ≠ [] -> is_double f -> (float_value f == exact_mean sg)%Q ->
      ∃ f', students_average_grade h students course = Return (VFloat f')
        ∧ (float_value f' == exact_mean sg)%Q)
   ∧ (sg ≠ [] -> ¬ in_double_range (exact_mean sg) ->
      students_average_grade h students course = Raise OverflowError)
   ∧ (∀ xs1 x xs2, students = xs1 ++ x :: xs2 ->
      course_entry h course x = None ->
      students_average_grade h students course
      = students_average_grade h (xs1 ++ xs2) course))
  /\ ((lg = [] ->
    mentors_average_grade h lecturers course
    = Return (VFloat (S754_zero false)))
   ∧ (lg ≠ [] -> in_double_range (exact_mean lg) ->
      ∃ f, mentors_average_grade h lecturers course = Return (VFloat f)
        ∧ rounds_to (exact_mean lg) f)
   ∧ (∀ f, lg ≠ [] -> is_double f -> (float_value f == exact_mean lg)%Q ->
      ∃ f', mentors_average_grade h lecturers course = Return (VFloat f')
        ∧ (float_value f' == exact_mean lg)%Q)
   ∧ (lg ≠ [] -> ¬ in_double_range (exact_mean lg) ->
      mentors_average_grade h lecturers course = Raise OverflowError)
   ∧ (∀ xs1 x xs2, lecturers = xs1 ++ x :: xs2 ->
      course_entry h course x = None ->
      mentors_average_grade h lecturers course
      = mentors_average_grade h (xs1 ++ xs2) course)).
Proof.
  intros Hs Hl sg lg. split.
  - rewrite students_average_grade_mean_or by done. fold sg.
    destruct (mean_or_cases (VFloat (S754_zero false)) sg)
      as (H1 & H2 & H3 & H4).
    repeat split; try done.
    intros xs1 x xs2 -> Hx.
    rewrite students_average_grade_mean_or.
    + unfold sg. by rewrite course_entries_skip.
    + apply Forall_app in Hs as [Hs1 Hs2]. apply Forall_app. split; [done|].
      by apply Forall_cons_1 in Hs2 as [_ ?].
  - rewrite mentors_average_grade_mean_or by done. fold lg.
    destruct (mean_or_cases (VFloat (S754_zero false)) lg)
      as (H1 & H2 & H3 & H4).
    repeat split; try done.
    intros xs1 x xs2 -> Hx.
    rewrite mentors_average_grade_mean_or.
    + unfold lg. by rewrite course_entries_skip.
    + apply Forall_app in Hl as [Hl1 Hl2]. apply Forall_app. split; [done|].
      by apply Forall_cons_1 in Hl2 as [_ ?].
Qed.

Lemma course_average_grade_mean_witness :
  Forall (is_Student Demo.big_world) [VObj Demo.ma; VObj Demo.ni]
  /\ Forall (is_Lecturer Demo.big_world) [VObj Demo.lec]
  /\ (∃ f, students_average_grade Demo.big_world [VObj Demo.ma; VObj Demo.ni]
             "Python" = Return (VFloat f)
        ∧ rounds_to (exact_mean [9; 8]) f)
  /\ students_average_grade Demo.big_world [VObj Demo.ma; VObj Demo.ni] "Python"
     = students_average_grade Demo.big_world [VObj Demo.ma] "Python"
  /\ mentors_average_grade Demo.big_world [VObj Demo.lec] "GIT"
     = Return (VFloat (S754_zero false)).
Proof.
  assert (Hs : Forall (is_Student Demo.big_world) [VObj Demo.ma; VObj Demo.ni]).
  { repeat constructor.
    - by exists Demo.ma, Demo.maria.
    - by exists Demo.ni, Demo.nikita. }
  assert (Hl : Forall (is_Lecturer Demo.big_world) [VObj Demo.lec]).
  { repeat constructor. by exists Demo.lec, Demo.oleg, [("Python", [8])]. }
  pose proof (course_average_grade_mean Demo.big_world "Python" _ _ Hs Hl)
    as [(_ & Hmean & _ & _ & Hskip) _].
  pose proof (course_average_grade_mean Demo.big_world "GIT" _ _ Hs Hl)
    as [_ (Hzero & _)].
  split; [exact Hs|]. split; [exact Hl|]. split; [|split].
  - apply Hmean; [discriminate | reflexivity].
  - exact (Hskip [VObj Demo.ma] (VObj Demo.ni) [] eq_refl eq_refl).
  - exact (Hzero eq_refl).
Defined.

(** C5, counterexample: the only student of the list has the single grade
    [2^1024] for the course; the mean is [2^1024] and the call raises. *)
Lemma students_average_grade_overflow :
  students_average_grade Demo.big_world [VObj Demo.cl] "Python"
    = Raise OverflowError
  /\ concat (course_entries Demo.big_world "Python" [VObj Demo.cl])
     = [Demo.huge]
  /\ (exact_mean [Demo.huge] == inject_Z Demo.huge)%Q.
Proof. split; [by vm_compute|]. split; reflexivity. Qed.

(** ** Comparing students *)

Lemma compare_averages_means op g1 g2 h :
  compare_averages op g1 g2 h
  = (compare_means op (all_grades_of g1) (all_grades_of g2), h).
Proof.
  unfold compare_averages, compare_means. run_method.
  rewrite !own_average_grade_flat.
  destruct (mean_or (VInt 0) (all_grades_of g1)); [|done].
  by destruct (mean_or (VInt 0) (all_grades_of g2)).
Qed.

Lemma Student_compare_means h self other s1 s2 :
  h !! self = Some (OStudent s1) ->
  h !! other = Some (OStudent s2) ->
  Student_lt self (VObj other) h
  = (compare_means num_lt (all_grades_of (s_grades s1))
       (all_grades_of (s_grades s2)), h)
  /\ Student_eq self (VObj other) h
  = (compare_means num_eq (all_grades_of (s_grades s1))
       (all_grades_of (s_grades s2)), h).
Proof.
  intros H1 H2. unfold Student_lt, Student_eq.
  unfold get_student, as_Student, get_obj, mbind, M_bind, bind, ret.
  rewrite H1, H2. by rewrite !compare_averages_means.
Qed.

Lemma mean_or_rounded (l : list Z) :
  in_double_range (exact_mean l) ->
  ∃ v, mean_or (VInt 0) l = Return v ∧ rounded_mean l v ∧ is_number v.
Proof.
  intros Hr. destruct l as [|x l].
  - by exists (VInt 0).
  - destruct (mean_or_rounds (VInt 0) (x :: l) ltac:(done) Hr)
      as (f & Hf & Hd).
    exists (VFloat f). split; [done|]. split; [by exists f | apply Hd].
Qed.

Lemma exact_mean_max (l : list Z) :
  (exact_mean l == inject_Z (sum l) / inject_Z (Z.max 1 (len l)))%Q.
Proof.
  destruct l as [|x l].
  - reflexivity.
  - rewrite exact_mean_quotient by done.
    pose proof (len_pos (x :: l) ltac:(done)).
    by replace (Z.max 1 (len (x :: l))) with (len (x :: l)) by lia.
Qed.

Lemma mean_or_value (l : list Z) v :
  mean_or (VInt 0) l = Return v ->
  (num_value v == rounded_quotient (sum l) (Z.max 1 (len l)))%Q.
Proof.
  destruct l as [|x l].
  - by intros [= <-].
  - pose proof (len_pos (x :: l) ltac:(done)) as Hlen.
    replace (Z.max 1 (len (x :: l))) with (len (x :: l)) by lia.
    by apply int_true_div_value.
Qed.

Lemma mean_or_mono (l1 l2 : list Z) v1 v2 :
  mean_or (VInt 0) l1 = Return v1 ->
  mean_or (VInt 0) l2 = Return v2 ->
  (exact_mean l1 <= exact_mean l2)%Q ->
  (num_value v1 <= num_value v2)%Q.
Proof.
  intros H1 H2 Hle.
  rewrite (mean_or_value l1 v1 H1), (mean_or_value l2 v2 H2).
  rewrite (exact_mean_max l1), (exact_mean_max l2) in Hle.
  assert (Hb1 : 0 < Z.max 1 (len l1)) by lia.
  assert (Hb2 : 0 < Z.max 1 (len l2)) by lia.
  apply (proj1 (Qdiv_le_cross _ _ _ _ Hb1 Hb2)) in Hle.
  by apply rounded_quotient_mono.
Qed.

(** C6: for two students whose means are below the overflow threshold,
    [S1 < S2] and [S1 == S2] return booleans: with [v1] and [v2] the two
    values [own_average_grade] returns for the students' grade maps (0 for
    no grades, else a double within half a unit in the last place of the
    exact mean of all grades of all courses), [S1 < S2] is true exactly when
    [v1] is less than [v2], and [S1 == S2] exactly when they are equal.
    Rounding keeps the order of the exact means: [S1 < S2] is true only if
    the exact mean of [S1] is less than that of [S2], and [S1 == S2] is true
    whenever the exact means are equal. *)
Theorem student_order_by_rounded_mean (h : heap) (self other : loc)
    (s1 s2 : Student) :
  h !! self = Some (OStudent s1) ->
  h !! other = Some (OStudent s2) ->
  in_double_range (exact_mean (all_grades_of (s_grades s1))) ->
  in_double_range (exact_mean (all_grades_of (s_grades s2))) ->
  ∃ v1 v2 lt eq,
    own_average_grade (s_grades s1) = Return v1
    ∧ own_average_grade (s_grades s2) = Return v2
    ∧ rounded_mean (all_grades_of (s_grades s1)) v1
    ∧ rounded_mean (all_grades_of (s_grades s2)) v2
    ∧ Student_lt self (VObj other) h = (Return (VBool lt), h)
    ∧ Student_eq self (VObj other) h = (Return (VBool eq), h)
    ∧ (lt = true <-> (num_value v1 < num_value v2)%Q)
    ∧ (eq = true <-> (num_value v1 == num_value v2)%Q)
    ∧ (lt = true ->
       (exact_mean (all_grades_of (s_grades s1))
        < exact_mean (all_grades_of (s_grades s2)))%Q)
    ∧ ((exact_mean (all_grades_of (s_grades s1))
        == exact_mean (all_grades_of (s_grades s2)))%Q -> eq = true).
Proof.
  intros H1 H2 R1 R2.
  destruct (mean_or_rounded _ R1) as (v1 & Hv1 & Hm1 & Hn1).
  destruct (mean_or_rounded _ R2) as (v2 & Hv2 & Hm2 & Hn2).
  destruct (Student_compare_means h self other s1 s2 H1 H2) as [Hlt Heq].
  destruct (num_compare v1 v2 Hn1 Hn2) as [Hl He].
  exists v1, v2, (num_lt v1 v2), (num_eq v1 v2).
  rewrite !own_average_grade_flat, Hlt, Heq.
  unfold compare_means. rewrite Hv1, Hv2.
  do 8 (split; [done|]). split.
  - intros Ht. apply Hl in Ht. apply Qnot_le_lt. intros Hge.
    apply (mean_or_mono _ _ _ _ Hv2 Hv1) in Hge.
    by apply Qlt_not_le in Ht.
  - intros Hmeans. apply He. apply Qle_antisym.
    + apply (mean_or_mono _ _ _ _ Hv1 Hv2). rewrite Hmeans. apply Qle_refl.
    + apply (mean_or_mono _ _ _ _ Hv2 Hv1). rewrite Hmeans. apply Qle_refl.
Qed.

Lemma student_order_by_rounded_mean_witness :
  Demo.big_world !! Demo.ma = Some (OStudent Demo.maria)
  /\ Demo.big_world !! Demo.st = Some (OStudent Demo.ivan)
  /\ in_double_range (exact_mean [9; 8])
  /\ in_double_range (exact_mean [9; 10])
  /\ Student_lt Demo.ma (VObj Demo.st) Demo.big_world
     = (Return (VBool true), Demo.big_world)
  /\ Student_eq Demo.ma (VObj Demo.st) Demo.big_world
     = (Return (VBool false), Demo.big_world).
Proof.
  assert (H1 : Demo.big_world !! Demo.ma = Some (OStudent Demo.maria))
    by reflexivity.
  assert (H2 : Demo.big_world !! Demo.st = Some (OStudent Demo.ivan))
    by reflexivity.
  assert (R1 : in_double_range (exact_mean [9; 8])) by reflexivity.
  assert (R2 : in_double_range (exact_mean [9; 10])) by reflexivity.
  repeat (split; [assumption|]).
  destruct (student_order_by_rounded_mean Demo.big_world Demo.ma Demo.st
              Demo.maria Demo.ivan H1 H2 R1 R2)
    as (v1 & v2 & lt & eq & _ & _ & _ & _ & Hlt & Heq & _).
  rewrite Hlt, Heq. split.
  - assert (E : Student_lt Demo.ma (VObj Demo.st) Demo.big_world
                = (Return (VBool true), Demo.big_world)) by reflexivity.
    rewrite E in Hlt. injection Hlt as <-. reflexivity.
  - assert (E : Student_eq Demo.ma (VObj Demo.st) Demo.big_world
                = (Return (VBool false), Demo.big_world)) by reflexivity.
    rewrite E in Heq. injection Heq as <-. reflexivity.
Defined.

(** C6, counterexample: Anna's only grade is [2^53] and Boris's is
    [2^53 + 1]; Anna's mean is less than Boris's, yet [Anna < Boris] is
    false and [Anna == Boris] is true, because both means round to the
    same double. *)
Lemma student_order_rounding_collision :
  Student_lt Demo.an (VObj Demo.bo) Demo.big_world
    = (Return (VBool false), Demo.big_world)
  /\ Student_eq Demo.an (VObj Demo.bo) Demo.big_world
    = (Return (VBool true), Demo.big_world)
  /\ (exact_mean (all_grades_of (s_grades Demo.anna))
      < exact_mean (all_grades_of (s_grades Demo.boris)))%Q.
Proof. split; [by vm_compute|]. split; [by vm_compute | reflexivity]. Qed.

(** ** The examples of the specification *)

(** The rating with 8 succeeds and the rating with 12 is refused, so the
    lecturer has one grade; the homework grades 9 and 8 average to 8.5, and
    so does the course over both students, the second having no entry. *)
Example specification_session :
  fst (Demo.session ∅)
  = Return [VNone; VStr "ERROR!"; VNone; VNone;
            VFloat (S754_finite false 4785074604081152 (-49));
            VFloat (S754_finite false 4785074604081152 (-49));
            VInt 1].
Proof. by vm_compute. Qed.

(** The true quotient at a few points: a third, a tie rounded to even, the
    largest double, and the first quotient that does not fit. *)
Example int_true_div_third :
  int_true_div 1 3 = Return (VFloat (S754_finite false 6004799503160661 (-54))).
Proof. by vm_compute. Qed.

Example int_true_div_tie :
  int_true_div Demo.big_odd 1
  = Return (VFloat (S754_finite false 4503599627370496 1)).
Proof. by vm_compute. Qed.

Example int_true_div_largest :
  int_true_div (overflow_threshold - 1) 1
  = Return (VFloat (S754_finite false 9007199254740991 971)).
Proof. by vm_compute. Qed.

Example int_true_div_threshold :
  int_true_div overflow_threshold 1 = Raise OverflowError.
Proof. by vm_compute. Qed.

(** * Further properties *)

(** ** What one call does to the heap *)

Lemma rate_lecture_update h self lecturer course grade :
  snd (rate_lecture self lecturer course grade h) = h
  ∨ ∃ l m g, h !! l = Some (OLecturer m g)
      ∧ course ∈ courses_attached m ∧ 0 <= grade <= 10
      ∧ snd (rate_lecture self lecturer course grade h)
        = <[l := OLecturer m (record_grade course grade g)]> h.
Proof.
  unfold rate_lecture. run_method.
  destruct (h !! self) as [[s| | |]|] eqn:Hs; try by left.
  destruct lecturer as [| | | | |l]; try by left.
  destruct (h !! l) as [[| |m g|]|] eqn:Hl; try by left.
  destruct (bool_decide (course ∈ courses_attached m)) eqn:Ha;
    simpl; [|by left].
  destruct (bool_decide (course ∈ courses_in_progress s)); simpl; [|by left].
  destruct (Z.leb_spec 0 grade); simpl; [|by left].
  destruct (Z.leb_spec grade 10); simpl; [|by left].
  right. exists l, m, g. apply bool_decide_eq_true in Ha. by repeat split.
Qed.

Lemma rate_hw_update h self student course grade :
  snd (rate_hw self student course grade h) = h
  ∨ ∃ l s, h !! l = Some (OStudent s)
      ∧ course ∈ courses_in_progress s
      ∧ snd (rate_hw self student course grade h)
        = <[l := OStudent
              (with_grades s (record_grade course grade (s_grades s)))]> h.
Proof.
  unfold rate_hw. run_method.
  destruct (h !! self) as [[| | |r]|] eqn:Hr; try by left.
  destruct student as [| | | | |l]; try by left.
  destruct (h !! l) as [[s| | |]|] eqn:Hl; try by left.
  destruct (bool_decide (course ∈ courses_attached r)); simpl; [|by left].
  destruct (bool_decide (course ∈ courses_in_progress s)) eqn:Hp;
    simpl; [|by left].
  right. exists l, s. apply bool_decide_eq_true in Hp. by repeat split.
Qed.

(** A call leaves the heap as it is, or adds a new object, or updates one
    object in one of the five ways. *)
Lemma run_cases c h :
  snd (run c h) = h
  ∨ (∃ l o, h !! l = None ∧ new_obj o ∧ snd (run c h) = <[l := o]> h)
  ∨ (∃ l o o', h !! l = Some o ∧ obj_update o o'
       ∧ snd (run c h) = <[l := o']> h).
Proof.
  destruct c as [n s g|n s|n s|n s|self c|self c|self c|self v c g|self v c g];
    simpl.
  all: try (right; left; eexists _, _; split; [apply alloc_fresh|];
            by split; [constructor|]).
  - destruct (h !! self) as [[s| | |]|] eqn:Hs;
      try (left; unfold add_finished_course; run_method; by rewrite Hs).
    rewrite (add_finished_course_run _ _ _ _ Hs).
    case_decide; [by left|]. right; right. simpl.
    eexists _, _, _. split; [done|]. split; [|done]. by constructor.
  - destruct (h !! self) as [[s| | |]|] eqn:Hs;
      try (left; unfold add_courses_in_progress; run_method; by rewrite Hs).
    rewrite (add_courses_in_progress_run _ _ _ _ Hs).
    case_decide; [by left|]. right; right. simpl.
    eexists _, _, _. split; [done|]. split; [|done]. by constructor.
  - destruct (h !! self) as [o|] eqn:Ho;
      [|left; unfold mentor_add_course; run_method; by rewrite Ho].
    destruct (mentor_of o) as [m|] eqn:Hm;
      [|left; unfold mentor_add_course; run_method; by rewrite Ho, Hm].
    rewrite (mentor_add_course_run _ _ _ _ _ Ho Hm).
    case_decide; [by left|]. right; right. simpl.
    eexists _, _, _. split; [done|]. split; [|done]. by constructor.
  - destruct (rate_lecture_update h self v c g)
      as [->|(l & m & d & Hl & Ha & Hg & ->)]; [by left|].
    right; right. eexists _, _, _. split; [done|]. split; [|done].
    by constructor.
  - destruct (rate_hw_update h self v c g) as [->|(l & s & Hl & Hp & ->)];
      [by left|].
    right; right. eexists _, _, _. split; [done|]. split; [|done].
    by constructor.
Qed.

(** A property that new objects have and updates keep holds throughout
    every heap a call sequence reaches. *)
Lemma run_heap_all (P : obj -> Prop) c h :
  (∀ o, new_obj o -> P o) ->
  (∀ o o', obj_update o o' -> P o -> P o') ->
  heap_all P h -> heap_all P (snd (run c h)).
Proof.
  intros Hnew Hupd Hh.
  destruct (run_cases c h)
    as [->|[(l & o & Hl & Ho & ->)|(l & o & o' & Hl & Ho & ->)]]; [done|..];
    intros l' o1; rewrite lookup_insert; case_decide; subst.
  - intros [= <-]. by apply Hnew.
  - apply Hh.
  - intros [= <-]. eapply Hupd; [done|]. by eapply Hh.
  - apply Hh.
Qed.

Lemma run_all_heap_all (P : obj -> Prop) cs h :
  (∀ o, new_obj o -> P o) ->
  (∀ o o', obj_update o o' -> P o -> P o') ->
  heap_all P h -> heap_all P (run_all cs h).
Proof.
  intros Hnew Hupd. revert h.
  induction cs as [|c cs IH]; intros h Hh; [done|].
  simpl. apply IH. by apply run_heap_all.
Qed.

(** A reflexive and transitive relation that every update respects relates
    each object to what it is after any call sequence. *)
Lemma run_heap_rel (R : obj -> obj -> Prop) c h :
  (∀ o, R o o) ->
  (∀ o o', obj_update o o' -> R o o') ->
  heap_rel R h (snd (run c h)).
Proof.
  intros Hrefl Hupd.
  destruct (run_cases c h)
    as [->|[(l & o & Hl & Ho & ->)|(l & o & o' & Hl & Ho & ->)]];
    intros l' o1 Hl'.
  - by exists o1.
  - exists o1. rewrite lookup_insert_ne by congruence. done.
  - destruct (decide (l = l')) as [->|Hne].
    + exists o'. rewrite lookup_insert_eq. simplify_eq. split; [done|].
      by apply Hupd.
    + exists o1. by rewrite lookup_insert_ne.
Qed.

Lemma run_all_heap_rel (R : obj -> obj -> Prop) cs h :
  (∀ o, R o o) ->
  (∀ o1 o2 o3, R o1 o2 -> R o2 o3 -> R o1 o3) ->
  (∀ o o', obj_update o o' -> R o o') ->
  heap_rel R h (run_all cs h).
Proof.
  intros Hrefl Htrans Hupd. revert h.
  induction cs as [|c cs IH]; intros h l o Hl; [by exists o|].
  simpl. destruct (run_heap_rel R c h Hrefl Hupd l o Hl) as (o1 & Hl1 & H1).
  destruct (IH _ l o1 Hl1) as (o2 & Hl2 & H2).
  exists o2. split; [done|]. by eapply Htrans.
Qed.

(** ** Grades after a rating *)

Lemma fold_left_add (l : list Z) a : fold_left Z.add l a = a + sum l.
Proof.
  unfold sum. revert a. induction l as [|x l IH]; intros a; simpl; [lia|].
  rewrite (IH (a + x)), (IH (0 + x)). lia.
Qed.

Lemma sum_cons x (l : list Z) : sum (x :: l) = x + sum l.
Proof. unfold sum at 1. simpl. apply fold_left_add. Qed.

Lemma sum_permutation (l1 l2 : list Z) : l1 ≡ₚ l2 -> sum l1 = sum l2.
Proof.
  induction 1 as [|x l1 l2 _ IH|x y l|l1 l2 l3 _ IH1 _ IH2].
  - done.
  - by rewrite !sum_cons, IH.
  - rewrite !sum_cons. lia.
  - congruence.
Qed.

Lemma all_grades_set_some course l x d :
  dict_get course d = Some l ->
  all_grades_of (dict_set course (l ++ [x]) d) ≡ₚ x :: all_grades_of d.
Proof.
  unfold all_grades_of, dict_values.
  induction d as [|[k v] d IH]; [done|]. simpl.
  destruct (decide (course = k)) as [->|Hne].
  - intros [= ->]. simpl. rewrite <- app_assoc. simpl.
    by rewrite <- Permutation_middle.
  - intros Hd. simpl. rewrite (IH Hd). by rewrite <- Permutation_middle.
Qed.

Lemma all_grades_set_none course x d :
  dict_get course d = None ->
  all_grades_of (dict_set course [x] d) ≡ₚ x :: all_grades_of d.
Proof.
  unfold all_grades_of, dict_values.
  induction d as [|[k v] d IH]; [done|]. simpl.
  destruct (decide (course = k)) as [->|Hne]; [done|].
  intros Hd. simpl. rewrite (IH Hd). by rewrite <- Permutation_middle.
Qed.

(** A rating adds one grade to the grades of the map and nothing else. *)
Lemma all_grades_record course x d :
  all_grades_of (record_grade course x d) ≡ₚ x :: all_grades_of d.
Proof.
  unfold record_grade. destruct (dict_get course d) as [l|] eqn:Hd.
  - by apply all_grades_set_some.
  - by apply all_grades_set_none.
Qed.

Lemma elem_of_dict_set k v d c l :
  (c, l) ∈ dict_set k v d -> (c, l) ∈ d ∨ (c, l) = (k, v).
Proof.
  induction d as [|[k' v'] d IH]; simpl.
  - intros ->%list_elem_of_singleton. by right.
  - destruct (decide (k = k')) as [->|Hne].
    + intros [->|H]%elem_of_cons; [by right|]. left.
      by apply elem_of_cons; right.
    + intros [->|H]%elem_of_cons; [left; by apply elem_of_cons; left|].
      destruct (IH H) as [?|?]; [|by right].
      left. by apply elem_of_cons; right.
Qed.

Lemma elem_of_record_grade course x d c l :
  (c, l) ∈ record_grade course x d ->
  (c, l) ∈ d ∨ (c = course ∧ ∃ old, l = old ++ [x]).
Proof.
  unfold record_grade. destruct (dict_get course d) as [old|];
    intros [?|[= -> ->]]%elem_of_dict_set; try by left.
  - right. split; [done|]. by exists old.
  - right. split; [done|]. by exists [].
Qed.

(** ** Lecture grades stay between 0 and 10 *)

Lemma new_obj_lecture_grades o : new_obj o -> lecture_grades_in_range o.
Proof. intros []; simpl; try done. constructor. Qed.

Lemma obj_update_lecture_grades o o' :
  obj_update o o' -> lecture_grades_in_range o -> lecture_grades_in_range o'.
Proof.
  intros [s c Hc|s c Hc|o1 m c Hm Hc|m g c x Hc Hx|s c x Hc]; simpl; try done.
  - by destruct o1.
  - intros Hg. unfold grades_within. rewrite all_grades_record.
    by constructor.
Qed.

(** X1: [rate_lecture] is the only writer of a lecturer's grades and checks
    [0 <= grade <= 10] before it writes, so when the grades of all lecturers
    lie between 0 and 10 they still do after any sequence of calls; this is
    so whenever the objects were made by the constructors. *)
Theorem lecture_grades_stay_in_range (cs : list call) (h : heap) :
  heap_all lecture_grades_in_range h ->
  heap_all lecture_grades_in_range (run_all cs h).
Proof.
  apply run_all_heap_all.
  - apply new_obj_lecture_grades.
  - apply obj_update_lecture_grades.
Qed.

Lemma heap_all_empty (P : obj -> Prop) : heap_all P ∅.
Proof. intros l o. by rewrite lookup_empty. Qed.

Lemma lecture_grades_stay_in_range_witness :
  heap_all lecture_grades_in_range ∅
  /\ heap_all lecture_grades_in_range
       (run_all [Call_Student "Ivan" "Ivanov" "M";
                 Call_Lecturer "Oleg" "Bulygin";
                 Call_add_courses_in_progress 0%nat "Python";
                 Call_mentor_add_course 1%nat "Python";
                 Call_rate_lecture 0%nat (VObj 1%nat) "Python" 8;
                 Call_rate_lecture 0%nat (VObj 1%nat) "Python" 12] ∅).
Proof.
  split; [apply heap_all_empty|].
  apply lecture_grades_stay_in_range, heap_all_empty.
Defined.

(** ** Graded courses are courses taken or taught *)

Lemma entries_known_mono courses courses' d :
  courses ⊆ courses' -> entries_known courses d -> entries_known courses' d.
Proof. intros Hsub Hd c l Hc. destruct (Hd c l Hc). split; [auto|done]. Qed.

Lemma entries_known_record courses course x d :
  course ∈ courses -> entries_known courses d ->
  entries_known courses (record_grade course x d).
Proof.
  intros Hc Hd c l [H|[-> [old ->]]]%elem_of_record_grade; [by apply Hd|].
  split; [done|]. by destruct old.
Qed.

Lemma new_obj_graded o : new_obj o -> graded_courses_known o.
Proof. intros []; simpl; try done; intros c l H; by apply elem_of_nil in H. Qed.

Lemma obj_update_graded o o' :
  obj_update o o' -> graded_courses_known o -> graded_courses_known o'.
Proof.
  intros [s c Hc|s c Hc|o1 m c Hm Hc|m g c x Hc Hx|s c x Hc]; simpl; try done.
  - apply entries_known_mono. intros y Hy. apply elem_of_app. by left.
  - destruct o1; simplify_eq/=; try done.
    apply entries_known_mono. intros y Hy. apply elem_of_app. by left.
  - by apply entries_known_record.
  - by apply entries_known_record.
Qed.

Lemma int_true_div_not_int a b z : int_true_div a b ≠ Return (VInt z).
Proof.
  unfold int_true_div. destruct (b =? 0); [done|]. destruct (a =? 0); [done|].
  by destruct (Float64.div _ _).
Qed.

Lemma own_average_grade_zero courses d :
  entries_known courses d ->
  own_average_grade d = Return (VInt 0) <-> d = [].
Proof.
  intros Hd. split; [|by intros ->].
  rewrite own_average_grade_flat. destruct d as [|[c l] d]; [done|].
  destruct (Hd c l) as [_ Hl]; [by apply elem_of_cons; left|].
  unfold all_grades_of. simpl. destruct l as [|x l]; [done|]. simpl.
  intros H. by apply int_true_div_not_int in H.
Qed.

(** X2: a student has grades only for courses in progress, a lecturer only
    for attached courses, and no grade list is empty: if this holds of a
    heap (an empty heap, say) it holds after any sequence of calls.  In
    such a heap [own_average_grade] returns the integer 0 for a grade map
    exactly when the map has no entry. *)
Theorem graded_courses_stay_known (cs : list call) (h : heap) :
  heap_all graded_courses_known h ->
  heap_all graded_courses_known (run_all cs h)
  ∧ ∀ l o g, run_all cs h !! l = Some o -> grades_of o = Some g ->
      (own_average_grade g = Return (VInt 0) <-> g = []).
Proof.
  intros Hh.
  assert (Hall : heap_all graded_courses_known (run_all cs h)).
  { revert Hh. apply run_all_heap_all.
    - apply new_obj_graded.
    - apply obj_update_graded. }
  split; [done|]. intros l o g Hl Hg. specialize (Hall l o Hl).
  destruct o as [s|m|m g'|m]; simplify_eq/=;
    by eapply own_average_grade_zero.
Qed.

Lemma graded_courses_stay_known_witness :
  heap_all graded_courses_known ∅
  /\ heap_all graded_courses_known
       (run_all [Call_Student "Ivan" "Ivanov" "M";
                 Call_Reviewer "Vladimir" "Smirnov";
                 Call_add_courses_in_progress 0%nat "Python";
                 Call_mentor_add_course 1%nat "Python";
                 Call_rate_hw 1%nat (VObj 0%nat) "Python" 9] ∅).
Proof.
  split; [apply heap_all_empty|].
  apply graded_courses_stay_known, heap_all_empty.
Defined.

(** ** Names are kept and course lists only grow *)

Lemma obj_grows_refl o : obj_grows o o.
Proof. destruct o; simpl; by repeat split. Qed.

Lemma obj_grows_trans o1 o2 o3 :
  obj_grows o1 o2 -> obj_grows o2 o3 -> obj_grows o1 o3.
Proof.
  destruct o1, o2; try done; destruct o3; try done; simpl;
    intros H12 H23; destruct_and!; repeat split;
    (congruence || by etrans).
Qed.

Lemma obj_update_grows o o' : obj_update o o' -> obj_grows o o'.
Proof.
  intros [s c Hc|s c Hc|o1 m c Hm Hc|m g c x Hc Hx|s c x Hc]; simpl;
    try (by repeat split; try apply prefix_app_r).
  destruct o1; simplify_eq/=; by repeat split; try apply prefix_app_r.
Qed.

Lemma run_all_grows cs h : heap_rel obj_grows h (run_all cs h).
Proof.
  apply run_all_heap_rel.
  - apply obj_grows_refl.
  - apply obj_grows_trans.
  - apply obj_update_grows.
Qed.

(** X3: no sequence of calls removes an object, changes its class, or
    changes a name, surname or gender, and every course list (finished, in
    progress, attached) of the heap is a prefix of the list the object has
    afterwards: courses are appended and never removed or reordered. *)
Theorem course_lists_only_grow (cs : list call) (h : heap) (l : loc) (o : obj) :
  h !! l = Some o ->
  ∃ o', run_all cs h !! l = Some o' ∧ obj_grows o o'.
Proof. apply run_all_grows. Qed.

Lemma course_lists_only_grow_witness :
  ∃ o', run_all [Call_add_courses_in_progress Demo.st "GIT";
                 Call_mentor_add_course Demo.lec "GIT"] Demo.world
          !! Demo.st = Some o'
        ∧ obj_grows (OStudent Demo.ivan) o'.
Proof.
  apply (course_lists_only_grow _ Demo.world Demo.st (OStudent Demo.ivan)).
  reflexivity.
Defined.

Lemma Student_properties_run h self s :
  h !! self = Some (OStudent s) ->
  Student_name self h = (Return (VStr (s_name s)), h)
  ∧ Student_surname self h = (Return (VStr (s_surname s)), h)
  ∧ Student_gender self h = (Return (VStr (s_gender s)), h).
Proof.
  intros Hs. unfold Student_name, Student_surname, Student_gender.
  run_method. by rewrite Hs.
Qed.

Lemma Mentor_properties_run h self o m :
  h !! self = Some o -> mentor_of o = Some m ->
  Mentor_name self h = (Return (VStr (m_name m)), h)
  ∧ Mentor_surname self h = (Return (VStr (m_surname m)), h).
Proof.
  intros Ho Hm. unfold Mentor_name, Mentor_surname, get_mentor.
  run_method. by rewrite Ho, Hm.
Qed.

Lemma obj_grows_mentor o o' m :
  obj_grows o o' -> mentor_of o = Some m ->
  ∃ m', mentor_of o' = Some m' ∧ m_name m' = m_name m
    ∧ m_surname m' = m_surname m.
Proof.
  destruct o, o'; try done; simpl; intros (? & ? & _) [= <-];
    by eexists.
Qed.

Lemma alloc_grows cs (h : heap) o :
  ∃ o', run_all cs (<[fresh (dom h) := o]> h) !! fresh (dom h) = Some o'
    ∧ obj_grows o o'.
Proof. apply run_all_grows, lookup_insert_eq. Qed.

(** X4: the read-only properties return what the constructor was given,
    whatever calls were made in between: [name], [surname] and [gender] of
    a student, [name] and [surname] of a mentor, a lecturer and a
    reviewer. *)
Theorem properties_return_constructor_arguments
    (name surname gender : string) (h : heap) (cs : list call) :
  (∃ l h', new_Student name surname gender h = (Return l, h')
     ∧ Student_name l (run_all cs h')
       = (Return (VStr name), run_all cs h')
     ∧ Student_surname l (run_all cs h')
       = (Return (VStr surname), run_all cs h')
     ∧ Student_gender l (run_all cs h')
       = (Return (VStr gender), run_all cs h'))
  /\ (∀ new, new ∈ [new_Mentor; new_Lecturer; new_Reviewer] ->
      ∃ l h', new name surname h = (Return l, h')
        ∧ Mentor_name l (run_all cs h')
          = (Return (VStr name), run_all cs h')
        ∧ Mentor_surname l (run_all cs h')
          = (Return (VStr surname), run_all cs h')).
Proof.
  split.
  - eexists _, _. split; [reflexivity|].
    destruct (alloc_grows cs h
                (OStudent (mkStudent name surname gender [] [] [])))
      as (o' & Ho' & Hg).
    destruct o' as [s'| | |]; try done. simpl in Hg.
    destruct Hg as (Hn & Hs & Hg & _).
    destruct (Student_properties_run _ _ _ Ho') as (-> & -> & ->).
    by rewrite Hn, Hs, Hg.
  - intros new Hnew.
    assert (Hall : ∀ o, mentor_of o = Some (mkMentor name surname []) ->
      Mentor_name (fresh (dom h)) (run_all cs (<[fresh (dom h) := o]> h))
      = (Return (VStr name), run_all cs (<[fresh (dom h) := o]> h))
      ∧ Mentor_surname (fresh (dom h))
          (run_all cs (<[fresh (dom h) := o]> h))
        = (Return (VStr surname), run_all cs (<[fresh (dom h) := o]> h))).
    { intros o Ho. destruct (alloc_grows cs h o) as (o' & Ho' & Hg).
      destruct (obj_grows_mentor _ _ _ Hg Ho) as (m' & Hm' & Hn & Hs).
      destruct (Mentor_properties_run _ _ _ _ Ho' Hm') as (-> & ->).
      simpl in *. by rewrite Hn, Hs. }
    repeat apply elem_of_cons in Hnew as [->|Hnew];
      [..|by apply elem_of_nil in Hnew];
      eexists _, _; (split; [reflexivity|]); by apply Hall.
Qed.

Lemma properties_return_constructor_arguments_witness :
  ∃ l h', new_Lecturer "Oleg" "Bulygin" Demo.world = (Return l, h')
    ∧ Mentor_name l
        (run_all [Call_mentor_add_course 3%nat "Python"] h')
      = (Return (VStr "Oleg"),
         run_all [Call_mentor_add_course 3%nat "Python"] h')
    ∧ Mentor_surname l
        (run_all [Call_mentor_add_course 3%nat "Python"] h')
      = (Return (VStr "Bulygin"),
         run_all [Call_mentor_add_course 3%nat "Python"] h').
Proof.
  apply (proj2 (properties_return_constructor_arguments "Oleg" "Bulygin" ""
                  Demo.world [Call_mentor_add_course 3%nat "Python"])
           new_Lecturer).
  apply elem_of_cons; right. apply elem_of_cons; left. reflexivity.
Defined.

(** ** A rating that was possible stays possible *)

Lemma rate_hw_run h self r student course grade :
  h !! self = Some (OReviewer r) ->
  (∀ l s, student = VObj l -> h !! l = Some (OStudent s) ->
     course ∈ courses_attached r -> course ∈ courses_in_progress s ->
     rate_hw self student course grade h
     = (Return VNone,
        <[l := OStudent
            (with_grades s (record_grade course grade (s_grades s)))]> h))
  ∧ (¬ hw_gate h r student course ->
     rate_hw self student course grade h
     = (Return (VStr "rate_hw function ERROR"), h)).
Proof.
  intros Hr. split.
  - intros l s -> Hl Ha Hp. unfold rate_hw. run_method. rewrite Hr, Hl.
    by rewrite !bool_decide_eq_true_2.
  - intros Hgate. unfold rate_hw. run_method. rewrite Hr.
    destruct student as [| | | | |l]; try done.
    destruct (h !! l) as [[s| | |]|] eqn:Hl; try done.
    destruct (bool_decide_reflect (course ∈ courses_attached r)); [|done].
    destruct (bool_decide_reflect (course ∈ courses_in_progress s)); [|done].
    destruct Hgate. by exists l, s.
Qed.

Lemma rate_hw_ok h self student course grade :
  fst (rate_hw self student course grade h) = Return VNone
  <-> ∃ r, h !! self = Some (OReviewer r) ∧ hw_gate h r student course.
Proof.
  split.
  - unfold rate_hw. run_method.
    destruct (h !! self) as [[| | |r]|] eqn:Hr; try done.
    intros H. exists r. split; [done|].
    destruct student as [| | | | |l]; try done.
    destruct (h !! l) as [[s| | |]|] eqn:Hl; try done.
    destruct (bool_decide_reflect (course ∈ courses_attached r)); [|done].
    destruct (bool_decide_reflect (course ∈ courses_in_progress s)); [|done].
    by exists l, s.
  - intros (r & Hr & l & s & -> & Hl & Ha & Hp).
    by rewrite (proj1 (rate_hw_run h self r (VObj l) course grade Hr) l s).
Qed.

Lemma rate_lecture_run h self s lecturer course grade :
  h !! self = Some (OStudent s) ->
  (∀ l m g, lecturer = VObj l -> h !! l = Some (OLecturer m g) ->
     course ∈ courses_attached m -> course ∈ courses_in_progress s ->
     0 <= grade <= 10 ->
     rate_lecture self lecturer course grade h
     = (Return VNone, <[l := OLecturer m (record_grade course grade g)]> h))
  ∧ (¬ lecture_gate h s lecturer course grade ->
     rate_lecture self lecturer course grade h = (Return (VStr "ERROR!"), h)).
Proof.
  intros Hs. split.
  - intros l m g -> Hl Ha Hp Hg. unfold rate_lecture. run_method.
    rewrite Hs, Hl. rewrite !bool_decide_eq_true_2 by done. simpl.
    destruct (Z.leb_spec 0 grade); [|lia].
    by destruct (Z.leb_spec grade 10); [|lia].
  - intros Hgate. unfold rate_lecture. run_method. rewrite Hs.
    destruct lecturer as [| | | | |l]; try done.
    destruct (h !! l) as [[| |m g|]|] eqn:Hl; try done.
    destruct (bool_decide_reflect (course ∈ courses_attached m)); [|done].
    destruct (bool_decide_reflect (course ∈ courses_in_progress s)); [|done].
    simpl.
    destruct (Z.leb_spec 0 grade); [|done].
    destruct (Z.leb_spec grade 10); [|done].
    destruct Hgate. by exists l, m, g.
Qed.

Lemma rate_lecture_ok h self lecturer course grade :
  fst (rate_lecture self lecturer course grade h) = Return VNone
  <-> ∃ s, h !! self = Some (OStudent s)
        ∧ lecture_gate h s lecturer course grade.
Proof.
  split.
  - unfold rate_lecture. run_method.
    destruct (h !! self) as [[s| | |]|] eqn:Hs; try done.
    intros H. exists s. split; [done|].
    destruct lecturer as [| | | | |l]; try done.
    destruct (h !! l) as [[| |m g|]|] eqn:Hl; try done.
    destruct (bool_decide_reflect (course ∈ courses_attached m)); [|done].
    destruct (bool_decide_reflect (course ∈ courses_in_progress s)); [|done].
    simpl in H.
    destruct (Z.leb_spec 0 grade); [|done].
    destruct (Z.leb_spec grade 10); [|done].
    by exists l, m, g.
  - intros (s & Hs & l & m & g & -> & Hl & Ha & Hp & Hg).
    by rewrite (proj1 (rate_lecture_run h self s (VObj l) course grade Hs)
                  l m g).
Qed.

Lemma prefix_elem_of {A} (l1 l2 : list A) x :
  l1 `prefix_of` l2 -> x ∈ l1 -> x ∈ l2.
Proof. intros [k ->] Hx. apply elem_of_app. by left. Qed.

Lemma hw_gate_grows h h' self r student course :
  heap_rel obj_grows h h' ->
  h !! self = Some (OReviewer r) -> hw_gate h r student course ->
  ∃ r', h' !! self = Some (OReviewer r') ∧ hw_gate h' r' student course.
Proof.
  intros Hrel Hr (l & s & -> & Hl & Ha & Hp).
  destruct (Hrel _ _ Hr) as ([| | |r'] & Hr' & Hgr); try done.
  destruct (Hrel _ _ Hl) as ([s'| | |] & Hl' & Hgs); try done.
  simpl in *. destruct Hgr as (_ & _ & Hpre).
  destruct Hgs as (_ & _ & _ & _ & Hpre').
  exists r'. split; [done|]. exists l, s'.
  repeat split; try done; by eapply prefix_elem_of.
Qed.

Lemma lecture_gate_grows h h' self s lecturer course grade :
  heap_rel obj_grows h h' ->
  h !! self = Some (OStudent s) -> lecture_gate h s lecturer course grade ->
  ∃ s', h' !! self = Some (OStudent s')
    ∧ lecture_gate h' s' lecturer course grade.
Proof.
  intros Hrel Hs (l & m & g & -> & Hl & Ha & Hp & Hg).
  destruct (Hrel _ _ Hs) as ([s'| | |] & Hs' & Hgs); try done.
  destruct (Hrel _ _ Hl) as ([| |m' g'|] & Hl' & Hgl); try done.
  simpl in *. destruct Hgl as (_ & _ & Hpre).
  destruct Hgs as (_ & _ & _ & _ & Hpre').
  exists s'. split; [done|]. exists l, m', g'.
  repeat split; try done; try lia; by eapply prefix_elem_of.
Qed.

(** X5: no method removes a course, so a rating that succeeded can be
    repeated at any later time: once [rate_hw] has returned [None] for a
    reviewer, a student and a course it returns [None] for them after any
    further calls, with any grade; once [rate_lecture] has returned [None]
    for a student, a lecturer and a course it does so after any further
    calls, with any grade between 0 and 10. *)
Theorem rating_stays_possible (h : heap) (self : loc) (x : pyval)
    (course : string) (grade grade' : Z) (cs : list call) :
  (fst (rate_hw self x course grade h) = Return VNone ->
   fst (rate_hw self x course grade' (run_all cs h)) = Return VNone)
  /\ (fst (rate_lecture self x course grade h) = Return VNone ->
      0 <= grade' <= 10 ->
      fst (rate_lecture self x course grade' (run_all cs h)) = Return VNone).
Proof.
  split.
  - intros (r & Hr & Hgate)%rate_hw_ok. apply rate_hw_ok.
    by eapply hw_gate_grows; [apply run_all_grows|..].
  - intros (s & Hs & l & m & g & -> & Hl & Ha & Hp & _)%rate_lecture_ok Hg.
    apply rate_lecture_ok.
    eapply lecture_gate_grows; [apply run_all_grows|done|].
    by exists l, m, g.
Qed.

Lemma rating_stays_possible_witness :
  fst (rate_hw Demo.rev (VObj Demo.st) "Python" 7
         (run_all [Call_rate_hw Demo.rev (VObj Demo.st) "Python" 9;
                   Call_add_finished_course Demo.st "Python"] Demo.world))
  = Return VNone
  /\ fst (rate_lecture Demo.st (VObj Demo.lec) "Python" 10
            (run_all [Call_mentor_add_course Demo.lec "GIT"] Demo.world))
     = Return VNone.
Proof.
  split.
  - apply (rating_stays_possible Demo.world Demo.rev (VObj Demo.st)
             "Python" 9 7). reflexivity.
  - apply (rating_stays_possible Demo.world Demo.st (VObj Demo.lec)
             "Python" 8 10); [reflexivity | lia].
Defined.

(** ** Enrolling, attaching and then rating *)

Lemma add_courses_in_progress_enrolls h self s course :
  h !! self = Some (OStudent s) ->
  ∃ s', snd (add_courses_in_progress self course h) !! self
        = Some (OStudent s')
    ∧ course ∈ courses_in_progress s' ∧ s_grades s' = s_grades s
    ∧ ∀ l, l ≠ self ->
        snd (add_courses_in_progress self course h) !! l = h !! l.
Proof.
  intros Hs. rewrite (add_courses_in_progress_run _ _ _ _ Hs).
  case_decide; simpl.
  - by exists s.
  - eexists. rewrite lookup_insert_eq. split; [done|]. simpl.
    split; [apply elem_of_app; right; by apply list_elem_of_singleton|].
    split; [done|]. intros l Hl. by rewrite lookup_insert_ne.
Qed.

Lemma mentor_add_course_attaches h self o m course :
  h !! self = Some o -> mentor_of o = Some m ->
  ∃ m', snd (mentor_add_course self course h) !! self
        = Some (with_mentor o m')
    ∧ course ∈ courses_attached m'
    ∧ ∀ l, l ≠ self -> snd (mentor_add_course self course h) !! l = h !! l.
Proof.
  intros Ho Hm. rewrite (mentor_add_course_run _ _ _ _ _ Ho Hm).
  case_decide; simpl.
  - exists m. split; [|done]. rewrite Ho. by destruct o; simplify_eq/=.
  - eexists. rewrite lookup_insert_eq. split; [done|]. simpl.
    split; [apply elem_of_app; right; by apply list_elem_of_singleton|].
    intros l Hl. by rewrite lookup_insert_ne.
Qed.

(** X6: after [student.add_courses_in_progress(course)] and
    [reviewer.mentor_add_course(course)], whatever these two calls
    returned, [reviewer.rate_hw(student, course, grade)] succeeds for every
    grade and appends it to the student's grades for the course. *)
Theorem enroll_attach_rate_hw (h : heap) (st rev : loc) (s : Student)
    (r : Mentor) (course : string) (grade : Z) :
  h !! st = Some (OStudent s) ->
  h !! rev = Some (OReviewer r) ->
  ∃ s' h',
    rate_hw rev (VObj st) course grade
      (snd (mentor_add_course rev course
              (snd (add_courses_in_progress st course h))))
    = (Return VNone, h')
    ∧ h' !! st = Some (OStudent s')
    ∧ course_grades course (s_grades s')
      = course_grades course (s_grades s) ++ [grade].
Proof.
  intros Hs Hr. assert (Hne : rev ≠ st) by congruence.
  destruct (add_courses_in_progress_enrolls h st s course Hs)
    as (s1 & Hs1 & Hp & Hg & Hframe1).
  set (h1 := snd (add_courses_in_progress st course h)) in *.
  assert (Hr1 : h1 !! rev = Some (OReviewer r)) by (by rewrite Hframe1).
  destruct (mentor_add_course_attaches h1 rev _ r course Hr1 eq_refl)
    as (r2 & Hr2 & Ha & Hframe2).
  set (h2 := snd (mentor_add_course rev course h1)) in *.
  assert (Hs2 : h2 !! st = Some (OStudent s1)) by (by rewrite Hframe2).
  eexists _, _.
  rewrite (proj1 (rate_hw_run h2 rev r2 (VObj st) course grade Hr2) st s1)
    by done.
  split; [done|]. rewrite lookup_insert_eq. split; [done|]. simpl.
  rewrite Hg. unfold course_grades at 1. by rewrite record_grade_eq.
Qed.

Lemma enroll_attach_rate_hw_witness :
  ∃ s' h',
    rate_hw Demo.rev (VObj Demo.st) "GIT" 42
      (snd (mentor_add_course Demo.rev "GIT"
              (snd (add_courses_in_progress Demo.st "GIT" Demo.world))))
    = (Return VNone, h')
    ∧ h' !! Demo.st = Some (OStudent s')
    ∧ course_grades "GIT" (s_grades s')
      = course_grades "GIT" (s_grades Demo.ivan) ++ [42].
Proof.
  apply (enroll_attach_rate_hw Demo.world Demo.st Demo.rev Demo.ivan
           Demo.vladimir "GIT" 42); reflexivity.
Defined.

(** X7: after [student.add_courses_in_progress(course)] and
    [lecturer.mentor_add_course(course)], whatever these two calls
    returned, [student.rate_lecture(lecturer, course, grade)] succeeds for
    every grade between 0 and 10 and appends it to the lecturer's grades
    for the course. *)
Theorem enroll_attach_rate_lecture (h : heap) (st lec : loc) (s : Student)
    (m : Mentor) (g : grades_dict) (course : string) (grade : Z) :
  h !! st = Some (OStudent s) ->
  h !! lec = Some (OLecturer m g) ->
  0 <= grade <= 10 ->
  ∃ m' g' h',
    rate_lecture st (VObj lec) course grade
      (snd (mentor_add_course lec course
              (snd (add_courses_in_progress st course h))))
    = (Return VNone, h')
    ∧ h' !! lec = Some (OLecturer m' g')
    ∧ course_grades course g' = course_grades course g ++ [grade].
Proof.
  intros Hs Hl Hgrade. assert (Hne : lec ≠ st) by congruence.
  destruct (add_courses_in_progress_enrolls h st s course Hs)
    as (s1 & Hs1 & Hp & Hg & Hframe1).
  set (h1 := snd (add_courses_in_progress st course h)) in *.
  assert (Hl1 : h1 !! lec = Some (OLecturer m g)) by (by rewrite Hframe1).
  destruct (mentor_add_course_attaches h1 lec _ m course Hl1 eq_refl)
    as (m2 & Hl2 & Ha & Hframe2).
  set (h2 := snd (mentor_add_course lec course h1)) in *.
  assert (Hs2 : h2 !! st = Some (OStudent s1)) by (by rewrite Hframe2).
  simpl in Hl2. eexists _, _, _.
  rewrite (proj1 (rate_lecture_run h2 st s1 (VObj lec) course grade Hs2)
             lec m2 g) by done.
  split; [done|]. rewrite lookup_insert_eq. split; [done|].
  unfold course_grades at 1. by rewrite record_grade_eq.
Qed.

Lemma enroll_attach_rate_lecture_witness :
  ∃ m' g' h',
    rate_lecture Demo.st (VObj Demo.lec) "GIT" 10
      (snd (mentor_add_course Demo.lec "GIT"
              (snd (add_courses_in_progress Demo.st "GIT" Demo.world))))
    = (Return VNone, h')
    ∧ h' !! Demo.lec = Some (OLecturer m' g')
    ∧ course_grades "GIT" g' = course_grades "GIT" [("Python", [8])] ++ [10].
Proof.
  apply (enroll_attach_rate_lecture Demo.world Demo.st Demo.lec Demo.ivan
           Demo.oleg [("Python", [8])] "GIT" 10); [reflexivity..|lia].
Defined.

(** ** The average depends on the grades, not on their order *)

Lemma mean_or_perm empty (l1 l2 : list Z) :
  l1 ≡ₚ l2 -> mean_or empty l1 = mean_or empty l2.
Proof.
  intros Hp. pose proof (sum_permutation _ _ Hp) as Hsum.
  pose proof (Permutation_length Hp) as Hlen.
  destruct l1 as [|x l1], l2 as [|y l2]; try done.
  unfold mean_or, len. by rewrite Hsum, Hlen.
Qed.

Lemma concat_perm {A} (ls1 ls2 : list (list A)) :
  ls1 ≡ₚ ls2 -> concat ls1 ≡ₚ concat ls2.
Proof.
  induction 1 as [|x l1 l2 _ IH|x y l|l1 l2 l3 _ IH1 _ IH2]; simpl.
  - done.
  - by rewrite IH.
  - by rewrite !app_assoc, (Permutation_app_comm x y).
  - by etrans.
Qed.

(** X8: [own_average_grade] depends only on which grades the map holds and
    how often, not on where: two maps whose grades are the same up to
    order have the same average (the same float, or both the integer 0, or
    both an [OverflowError]); so reordering the courses of a map, or moving
    a grade to another course, changes nothing. *)
Theorem own_average_grade_order_irrelevant (g1 g2 : grades_dict) :
  (all_grades_of g1 ≡ₚ all_grades_of g2 ->
   own_average_grade g1 = own_average_grade g2)
  /\ (g1 ≡ₚ g2 -> own_average_grade g1 = own_average_grade g2).
Proof.
  rewrite !own_average_grade_flat. split.
  - apply mean_or_perm.
  - intros Hp. apply mean_or_perm. unfold all_grades_of, dict_values.
    apply concat_perm. by rewrite Hp.
Qed.

Lemma own_average_grade_order_irrelevant_witness :
  own_average_grade [("Python", [9; 8]); ("GIT", [10])]
  = own_average_grade [("GIT", [8; 10; 9])]
  /\ own_average_grade [("Python", [9; 8]); ("GIT", [10])]
     = own_average_grade [("GIT", [10]); ("Python", [9; 8])].
Proof.
  split.
  - apply (proj1 (own_average_grade_order_irrelevant
                    [("Python", [9; 8]); ("GIT", [10])]
                    [("GIT", [8; 10; 9])])).
    apply (Permutation_cons_app (l := [8; 10]) [8; 10] [] 9). reflexivity.
  - apply (proj2 (own_average_grade_order_irrelevant
                    [("Python", [9; 8]); ("GIT", [10])]
                    [("GIT", [10]); ("Python", [9; 8])])).
    apply perm_swap.
Defined.

(** ** Course averages over any list of values *)

Lemma has_grades_getattr h x :
  has_grades h x <-> ∃ g, getattr_grades h x = Return g.
Proof.
  split.
  - intros [H|H]; [by apply is_Student_grades | by apply is_Lecturer_grades].
  - intros [g Hg]. destruct x as [| | | | |l]; try done. simpl in Hg.
    destruct (h !! l) as [[s|m|m g'|m]|] eqn:Hl; try done.
    + left. by exists l, s.
    + right. by exists l, m, g'.
Qed.

Lemma getattr_grades_cases h x :
  (∃ g, getattr_grades h x = Return g)
  ∨ getattr_grades h x = Raise AttributeError.
Proof.
  destruct x as [| | | | |l]; try by right. simpl.
  destruct (h !! l ≫= grades_of); [left; by eexists | by right].
Qed.

Lemma no_grades_getattr h x :
  ¬ has_grades h x <-> getattr_grades h x = Raise AttributeError.
Proof.
  rewrite has_grades_getattr.
  destruct (getattr_grades_cases h x) as [[g Hg]|Hr]; rewrite ?Hg, ?Hr.
  - split; [intros []; by eexists | done].
  - split; [done | by intros _ [g Hg]].
Qed.

Lemma has_grades_cases h xs :
  Forall (has_grades h) xs ∨ Exists (fun x => ¬ has_grades h x) xs.
Proof.
  induction xs as [|x xs [IH|IH]].
  - left. constructor.
  - destruct (getattr_grades_cases h x) as [Hg|Hr].
    + left. constructor; [by apply has_grades_getattr | done].
    + right. apply Exists_cons_hd. by apply no_grades_getattr.
  - right. by apply Exists_cons_tl.
Qed.

Lemma extend_course_has_grades h course xs acc :
  Forall (has_grades h) xs ->
  extend_course h course xs acc
  = Return (acc ++ concat (course_entries h course xs)).
Proof.
  intros Hxs. apply extend_course_entries.
  eapply Forall_impl; [done|]. intros x. by apply has_grades_getattr.
Qed.

Lemma extend_course_no_grades h course xs acc :
  Exists (fun x => ¬ has_grades h x) xs ->
  extend_course h course xs acc = Raise AttributeError.
Proof.
  intros Hxs. revert acc.
  induction Hxs as [x xs Hx|x xs _ IH]; intros acc; simpl.
  - apply no_grades_getattr in Hx. by rewrite Hx.
  - destruct (getattr_grades_cases h x) as [[g ->]| ->]; [|done].
    by destruct (dict_get course g).
Qed.

Lemma course_average_has_grades h xs course :
  Forall (has_grades h) xs ->
  students_average_grade h xs course
  = mean_or (VFloat (S754_zero false)) (concat (course_entries h course xs))
  ∧ mentors_average_grade h xs course
    = mean_or (VFloat (S754_zero false))
        (concat (course_entries h course xs)).
Proof.
  intros Hxs. unfold students_average_grade, mentors_average_grade.
  rewrite extend_course_has_grades by done. simpl.
  by destruct (concat _).
Qed.

Lemma course_average_no_grades h xs course :
  Exists (fun x => ¬ has_grades h x) xs ->
  students_average_grade h xs course = Raise AttributeError
  ∧ mentors_average_grade h xs course = Raise AttributeError.
Proof.
  intros Hxs. unfold students_average_grade, mentors_average_grade.
  by rewrite extend_course_no_grades.
Qed.

(** X9: the two course averages accept any list of values.  When every
    member is a student or a lecturer (in any mix: the functions only read
    the attribute [grades]) both functions return the mean of the members'
    grades for the course, and so agree with each other.  When some member
    is anything else (a reviewer, a plain mentor, a number, [None]) both
    raise [AttributeError], also when the grades read so far could not be
    averaged. *)
Theorem course_average_duck_typing (h : heap) (xs : list pyval)
    (course : string) :
  (Forall (has_grades h) xs ->
   students_average_grade h xs course
   = mean_or (VFloat (S754_zero false))
       (concat (course_entries h course xs))
   ∧ mentors_average_grade h xs course
     = students_average_grade h xs course)
  /\ (Exists (fun x => ¬ has_grades h x) xs ->
      students_average_grade h xs course = Raise AttributeError
      ∧ mentors_average_grade h xs course = Raise AttributeError).
Proof.
  split.
  - intros Hxs. destruct (course_average_has_grades h xs course Hxs)
      as [-> ->]. done.
  - apply course_average_no_grades.
Qed.

Lemma course_average_duck_typing_witness :
  (students_average_grade Demo.big_world [VObj Demo.lec; VObj Demo.ma]
     "Python"
   = mean_or (VFloat (S754_zero false)) [8; 9; 8]
   ∧ mentors_average_grade Demo.big_world [VObj Demo.lec; VObj Demo.ma]
       "Python"
     = students_average_grade Demo.big_world [VObj Demo.lec; VObj Demo.ma]
         "Python")
  /\ (students_average_grade Demo.big_world
        [VObj Demo.cl; VObj Demo.rev; VInt 5] "Python"
      = Raise AttributeError
      ∧ mentors_average_grade Demo.big_world
          [VObj Demo.cl; VObj Demo.rev; VInt 5] "Python"
        = Raise AttributeError).
Proof.
  split.
  - apply (proj1 (course_average_duck_typing Demo.big_world
                    [VObj Demo.lec; VObj Demo.ma] "Python")).
    constructor; [|constructor; [|constructor]].
    + right. by exists Demo.lec, Demo.oleg, [("Python", [8])].
    + left. by exists Demo.ma, Demo.maria.
  - apply (proj2 (course_average_duck_typing Demo.big_world
                    [VObj Demo.cl; VObj Demo.rev; VInt 5] "Python")).
    apply Exists_cons_tl, Exists_cons_hd.
    intros [(l & s & [= <-] & Hl)|(l & m & g & [= <-] & Hl)];
      discriminate Hl.
Defined.

(** X10: the course averages do not depend on the order of the list: two
    lists that are permutations of each other give the same result, be it
    a float or an exception. *)
Theorem course_average_order_irrelevant (h : heap) (xs ys : list pyval)
    (course : string) :
  xs ≡ₚ ys ->
  students_average_grade h xs course = students_average_grade h ys course
  /\ mentors_average_grade h xs course = mentors_average_grade h ys course.
Proof.
  intros Hp. destruct (has_grades_cases h xs) as [Hxs|Hxs].
  - assert (Hys : Forall (has_grades h) ys) by (by rewrite <- Hp).
    destruct (course_average_has_grades h xs course Hxs) as [-> ->].
    destruct (course_average_has_grades h ys course Hys) as [-> ->].
    assert (Hc : concat (course_entries h course xs)
                 ≡ₚ concat (course_entries h course ys)).
    { apply concat_perm. unfold course_entries. by rewrite Hp. }
    by rewrite (mean_or_perm _ _ _ Hc).
  - assert (Hys : Exists (fun x => ¬ has_grades h x) ys) by (by rewrite <- Hp).
    destruct (course_average_no_grades h xs course Hxs) as [-> ->].
    by destruct (course_average_no_grades h ys course Hys) as [-> ->].
Qed.

Lemma course_average_order_irrelevant_witness :
  students_average_grade Main.world [VObj 0%nat; VObj 1%nat] "Python"
  = students_average_grade Main.world [VObj 1%nat; VObj 0%nat] "Python"
  /\ mentors_average_grade Main.world [VObj 0%nat; VObj 1%nat] "Python"
     = mentors_average_grade Main.world [VObj 1%nat; VObj 0%nat] "Python".
Proof.
  apply (course_average_order_irrelevant Main.world
           [VObj 0%nat; VObj 1%nat] [VObj 1%nat; VObj 0%nat] "Python").
  apply perm_swap.
Defined.

(** ** A call changes the averages of the rated course only *)

Lemma run_grades c h l :
  is_constructor c = false ->
  snd (run c h) !! l ≫= grades_of = h !! l ≫= grades_of
  ∨ ∃ course grade d, rated_course c = Some course
      ∧ h !! l ≫= grades_of = Some d
      ∧ snd (run c h) !! l ≫= grades_of
        = Some (record_grade course grade d).
Proof.
  destruct c as [n s g|n s|n s|n s|self c|self c|self c|self v c g|self v c g];
    try done; intros _; simpl.
  - left. destruct (h !! self) as [[s| | |]|] eqn:Hs;
      try (unfold add_finished_course; run_method; by rewrite Hs).
    rewrite (add_finished_course_run _ _ _ _ Hs). case_decide; [done|].
    simpl. destruct (decide (self = l)) as [->|Hne].
    + by rewrite lookup_insert_eq, Hs.
    + by rewrite lookup_insert_ne.
  - left. destruct (h !! self) as [[s| | |]|] eqn:Hs;
      try (unfold add_courses_in_progress; run_method; by rewrite Hs).
    rewrite (add_courses_in_progress_run _ _ _ _ Hs). case_decide; [done|].
    simpl. destruct (decide (self = l)) as [->|Hne].
    + by rewrite lookup_insert_eq, Hs.
    + by rewrite lookup_insert_ne.
  - left. destruct (h !! self) as [o|] eqn:Ho;
      [|unfold mentor_add_course; run_method; by rewrite Ho].
    destruct (mentor_of o) as [m|] eqn:Hm;
      [|unfold mentor_add_course; run_method; by rewrite Ho, Hm].
    rewrite (mentor_add_course_run _ _ _ _ _ Ho Hm). case_decide; [done|].
    simpl. destruct (decide (self = l)) as [->|Hne].
    + rewrite lookup_insert_eq, Ho. by destruct o.
    + by rewrite lookup_insert_ne.
  - destruct (rate_lecture_update h self v c g)
      as [->|(l' & m & d & Hl & _ & _ & ->)]; [by left|].
    destruct (decide (l' = l)) as [->|Hne].
    + right. exists c, g, d. rewrite lookup_insert_eq, Hl. done.
    + left. by rewrite lookup_insert_ne.
  - destruct (rate_hw_update h self v c g) as [->|(l' & s & Hl & _ & ->)];
      [by left|].
    destruct (decide (l' = l)) as [->|Hne].
    + right. exists c, g, (s_grades s). rewrite lookup_insert_eq, Hl. done.
    + left. by rewrite lookup_insert_ne.
Qed.

Lemma run_getattr_grades c h x course :
  is_constructor c = false -> rated_course c ≠ Some course ->
  match getattr_grades h x with
  | Return g =>
      ∃ g', getattr_grades (snd (run c h)) x = Return g'
        ∧ dict_get course g' = dict_get course g
  | Raise e => getattr_grades (snd (run c h)) x = Raise e
  end.
Proof.
  intros Hc Hr. destruct x as [| | | | |l]; try done. simpl.
  destruct (run_grades c h l Hc) as [->|(rc & g & d & Hrc & -> & ->)].
  - destruct (h !! l ≫= grades_of); [by eexists | done].
  - eexists. split; [done|]. apply record_grade_ne. congruence.
Qed.

Lemma run_extend_course c h course xs acc :
  is_constructor c = false -> rated_course c ≠ Some course ->
  extend_course (snd (run c h)) course xs acc = extend_course h course xs acc.
Proof.
  intros Hc Hr. revert acc. induction xs as [|x xs IH]; intros acc; [done|].
  simpl. pose proof (run_getattr_grades c h x course Hc Hr) as Hx.
  destruct (getattr_grades h x) as [g|e].
  - destruct Hx as (g' & -> & ->). by destruct (dict_get course g).
  - by rewrite Hx.
Qed.

(** X11: a call of a method changes course averages for the rated course
    only: after [add_finished_course], [add_courses_in_progress] or
    [mentor_add_course], and after a rating for another course, both course
    averages of every list are what they were before the call. *)
Theorem course_average_frame (c : call) (h : heap) (xs : list pyval)
    (course : string) :
  is_constructor c = false ->
  rated_course c ≠ Some course ->
  students_average_grade (snd (run c h)) xs course
  = students_average_grade h xs course
  /\ mentors_average_grade (snd (run c h)) xs course
     = mentors_average_grade h xs course.
Proof.
  intros Hc Hr. unfold students_average_grade, mentors_average_grade.
  by rewrite run_extend_course.
Qed.

Lemma course_average_frame_witness :
  students_average_grade
    (snd (run (Call_rate_hw 4%nat (VObj 0%nat) "JavaScript" 3) Main.world))
    [VObj 0%nat; VObj 1%nat] "Python"
  = students_average_grade Main.world [VObj 0%nat; VObj 1%nat] "Python"
  /\ mentors_average_grade
       (snd (run (Call_rate_hw 4%nat (VObj 0%nat) "JavaScript" 3)
               Main.world))
       [VObj 0%nat; VObj 1%nat] "Python"
     = mentors_average_grade Main.world [VObj 0%nat; VObj 1%nat] "Python".
Proof.
  apply (course_average_frame
           (Call_rate_hw 4%nat (VObj 0%nat) "JavaScript" 3) Main.world
           [VObj 0%nat; VObj 1%nat] "Python"); [reflexivity | discriminate].
Defined.

(** ** The average after a rating *)

Lemma exact_mean_cons x (l : list Z) :
  (exact_mean (x :: l) == inject_Z (sum l + x) / inject_Z (len l + 1))%Q.
Proof.
  rewrite exact_mean_quotient by done. rewrite sum_cons.
  replace (len (x :: l)) with (len l + 1) by (unfold len; simpl; lia).
  by rewrite (Z.add_comm x).
Qed.

Lemma exact_mean_perm (l1 l2 : list Z) :
  l1 ≡ₚ l2 -> exact_mean l1 = exact_mean l2.
Proof.
  intros Hp. unfold exact_mean.
  by rewrite (sum_permutation _ _ Hp), (Permutation_length Hp).
Qed.

(** X12: a successful [rate_hw] adds the grade, and nothing else, to the
    grades that [own_average_grade] averages for the student: the new
    average is the quotient of the old sum plus the grade by the old count
    plus one, computed as [own_average_grade] computes every mean. *)
Theorem rate_hw_updates_average (h h' : heap) (self : loc) (student : pyval)
    (course : string) (grade : Z) :
  rate_hw self student course grade h = (Return VNone, h') ->
  ∃ l s s', student = VObj l ∧ h !! l = Some (OStudent s)
    ∧ h' !! l = Some (OStudent s')
    ∧ all_grades_of (s_grades s') ≡ₚ grade :: all_grades_of (s_grades s)
    ∧ own_average_grade (s_grades s')
      = mean_or (VInt 0) (grade :: all_grades_of (s_grades s))
    ∧ (exact_mean (all_grades_of (s_grades s'))
       == inject_Z (sum (all_grades_of (s_grades s)) + grade)
          / inject_Z (len (all_grades_of (s_grades s)) + 1))%Q.
Proof.
  intros (r & l & s & Hr & -> & Hl & ->)%rate_hw_success.
  eexists l, s, _. split; [done|]. split; [done|].
  rewrite lookup_insert_eq. split; [done|]. cbn [s_grades with_grades].
  pose proof (all_grades_record course grade (s_grades s)) as Hp.
  split; [done|]. split.
  - rewrite own_average_grade_flat. by apply mean_or_perm.
  - rewrite (exact_mean_perm _ _ Hp). apply exact_mean_cons.
Qed.

Lemma rate_hw_updates_average_witness :
  ∃ l s s', VObj Demo.st = VObj l ∧ Demo.world !! l = Some (OStudent s)
    ∧ snd (rate_hw Demo.rev (VObj Demo.st) "Python" 5 Demo.world) !! l
      = Some (OStudent s')
    ∧ all_grades_of (s_grades s') ≡ₚ 5 :: all_grades_of (s_grades s)
    ∧ own_average_grade (s_grades s')
      = mean_or (VInt 0) (5 :: all_grades_of (s_grades s))
    ∧ (exact_mean (all_grades_of (s_grades s'))
       == inject_Z (sum (all_grades_of (s_grades s)) + 5)
          / inject_Z (len (all_grades_of (s_grades s)) + 1))%Q.
Proof.
  apply (rate_hw_updates_average Demo.world _ Demo.rev (VObj Demo.st)
           "Python" 5).
  reflexivity.
Defined.

(** X13: a successful [rate_lecture] adds the grade, and nothing else, to the
    grades that [own_average_grade] averages for the lecturer. *)
Theorem rate_lecture_updates_average (h h' : heap) (self : loc)
    (lecturer : pyval) (course : string) (grade : Z) :
  rate_lecture self lecturer course grade h = (Return VNone, h') ->
  ∃ l m g g', lecturer = VObj l ∧ h !! l = Some (OLecturer m g)
    ∧ h' !! l = Some (OLecturer m g')
    ∧ all_grades_of g' ≡ₚ grade :: all_grades_of g
    ∧ own_average_grade g' = mean_or (VInt 0) (grade :: all_grades_of g)
    ∧ (exact_mean (all_grades_of g')
       == inject_Z (sum (all_grades_of g) + grade)
          / inject_Z (len (all_grades_of g) + 1))%Q.
Proof.
  intros (s & l & m & g & Hs & -> & Hl & ->)%rate_lecture_success.
  eexists l, m, g, _. split; [done|]. split; [done|].
  rewrite lookup_insert_eq. split; [done|].
  pose proof (all_grades_record course grade g) as Hp.
  split; [done|]. split.
  - rewrite own_average_grade_flat. by apply mean_or_perm.
  - rewrite (exact_mean_perm _ _ Hp). apply exact_mean_cons.
Qed.

Lemma rate_lecture_updates_average_witness :
  ∃ l m g g', VObj Demo.lec = VObj l
    ∧ Demo.world !! l = Some (OLecturer m g)
    ∧ snd (rate_lecture Demo.st (VObj Demo.lec) "Python" 5 Demo.world) !! l
      = Some (OLecturer m g')
    ∧ all_grades_of g' ≡ₚ 5 :: all_grades_of g
    ∧ own_average_grade g' = mean_or (VInt 0) (5 :: all_grades_of g)
    ∧ (exact_mean (all_grades_of g')
       == inject_Z (sum (all_grades_of g) + 5)
          / inject_Z (len (all_grades_of g) + 1))%Q.
Proof.
  apply (rate_lecture_updates_average Demo.world _ Demo.st (VObj Demo.lec)
           "Python" 5).
  reflexivity.
Defined.

(** ** The average lies between the least and the greatest grade *)

(** An integer of at most 53 bits is a double. *)
Lemma small_pos_double z : 0 < z < 2 ^ 53 ->
  ∃ m e, bounded 53 1024 m e = true
    ∧ (inject_Z (Z.pos m) * 2 ^ e == inject_Z z)%Q.
Proof.
  intros Hz. pose proof (Zdigits2_bounds z ltac:(lia)) as [Hlo Hhi].
  pose proof (Zdigits2_pos z ltac:(lia)) as Hd.
  assert (Hd53 : Zdigits2 z <= 53) by (apply Zdigits2_le_iff; lia).
  set (k := 53 - Zdigits2 z).
  assert (Hpow : 2 ^ (Zdigits2 z - 1) * 2 ^ k = 2 ^ 52).
  { rewrite <- Z.pow_add_r by lia. f_equal. lia. }
  assert (Hpow' : 2 ^ Zdigits2 z * 2 ^ k = 2 ^ 53).
  { rewrite <- Z.pow_add_r by lia. f_equal. lia. }
  assert (Hk : 0 < 2 ^ k) by (apply pow2_pos; lia).
  assert (Hm : 2 ^ 52 <= z * 2 ^ k < 2 ^ 53).
  { rewrite <- Hpow, <- Hpow'. split.
    - by apply Z.mul_le_mono_nonneg_r; [lia|].
    - by apply Z.mul_lt_mono_pos_r. }
  exists (Z.to_pos (z * 2 ^ k)), (- k). split.
  - apply bounded_to_pos; lia.
  - rewrite Z2Pos.id by lia.
    pose proof (Qpow2_shift z 0 (- k) ltac:(lia)) as Hs.
    replace (0 - - k) with k in Hs by lia.
    rewrite <- Hs. change (2 ^ 0)%Q with 1%Q. ring.
Qed.

Lemma small_int_double z : Z.abs z < 2 ^ 53 ->
  ∃ f, is_double f ∧ (float_value f == inject_Z z)%Q.
Proof.
  intros Hz. destruct (Z.lt_trichotomy z 0) as [Hneg|[->|Hpos]].
  - destruct (small_pos_double (- z) ltac:(lia)) as (m & e & Hb & Hv).
    exists (S754_finite true m e). split; [done|].
    rewrite float_value_sign, Hv, inject_Z_opp. ring.
  - by exists (S754_zero false).
  - destruct (small_pos_double z ltac:(lia)) as (m & e & Hb & Hv).
    exists (S754_finite false m e). split; [done|].
    by rewrite float_value_sign.
Qed.

Lemma Qdiv_one (x : Q) : (x / inject_Z 1 == x)%Q.
Proof. field. Qed.

(** Such an integer divided by 1 is itself. *)
Lemma rounded_quotient_int z : Z.abs z < 2 ^ 53 ->
  (rounded_quotient z 1 == inject_Z z)%Q.
Proof.
  intros Hz. destruct (small_int_double z Hz) as (f & Hf & Hv).
  assert (Hq : (float_value f == inject_Z z / inject_Z 1)%Q).
  { by rewrite Hv, Qdiv_one. }
  destruct (int_true_div_exact z 1 f ltac:(lia) Hf Hq) as (f' & Hr & Hv').
  rewrite <- (int_true_div_value z 1 (VFloat f') ltac:(lia) Hr).
  simpl. by rewrite Hv', Qdiv_one.
Qed.

Lemma sum_within lo hi (l : list Z) :
  grades_within lo hi l -> lo * len l <= sum l <= hi * len l.
Proof.
  unfold len. induction 1 as [|x l Hx _ IH]; [unfold sum; simpl; lia|].
  rewrite sum_cons. simpl length. rewrite Nat2Z.inj_succ. lia.
Qed.

Lemma mean_or_within empty lo hi (l : list Z) :
  l ≠ [] -> Z.abs lo < 2 ^ 53 -> Z.abs hi < 2 ^ 53 ->
  grades_within lo hi l ->
  ∃ f, mean_or empty l = Return (VFloat f) ∧ is_double f
    ∧ (inject_Z lo <= float_value f <= inject_Z hi)%Q.
Proof.
  intros Hl Hlo Hhi Hin. pose proof (len_pos l Hl) as Hlen.
  pose proof (sum_within lo hi l Hin) as [Hs1 Hs2].
  assert (HT : 2 ^ 53 <= overflow_threshold) by (by apply Z.leb_le).
  assert (Hr : Z.abs (sum l) < overflow_threshold * len l).
  { remember overflow_threshold as T. remember (2 ^ 53) as B.
    apply Z.lt_le_trans with (B * len l).
    - nia.
    - by apply Z.mul_le_mono_nonneg_r; [lia|]. }
  destruct (int_true_div_rounds (sum l) (len l) Hlen Hr) as (f & Hf & Hd & _).
  exists f. split; [by destruct l|]. split; [done|].
  pose proof (int_true_div_value _ _ _ Hlen Hf) as Hv. simpl in Hv.
  rewrite Hv, <- (rounded_quotient_int lo Hlo).
  rewrite <- (rounded_quotient_int hi Hhi).
  split; apply rounded_quotient_mono; lia.
Qed.

(** X14: when every grade of the map lies between two integers [lo] and
    [hi] of magnitude below [2^53], [own_average_grade] does not raise and
    the float it returns lies between [lo] and [hi]: rounding never moves
    the mean out of the range of the grades.  In particular the average of
    equal grades is that grade. *)
Theorem own_average_between_grades (lo hi : Z) (grades : grades_dict) :
  Z.abs lo < 2 ^ 53 -> Z.abs hi < 2 ^ 53 ->
  all_grades_of grades ≠ [] ->
  grades_within lo hi (all_grades_of grades) ->
  ∃ f, own_average_grade grades = Return (VFloat f) ∧ is_double f
    ∧ (inject_Z lo <= float_value f <= inject_Z hi)%Q.
Proof.
  intros Hlo Hhi Hne Hin. rewrite own_average_grade_flat.
  by apply mean_or_within.
Qed.

Lemma own_average_between_grades_witness :
  ∃ f, own_average_grade (s_grades Demo.ivan) = Return (VFloat f)
    ∧ is_double f ∧ (inject_Z 9 <= float_value f <= inject_Z 10)%Q.
Proof.
  apply (own_average_between_grades 9 10 (s_grades Demo.ivan)).
  - reflexivity.
  - reflexivity.
  - discriminate.
  - repeat constructor; lia.
Defined.

(** X15: the same for the course averages: over students and lecturers
    whose grades for the course lie between [lo] and [hi], both of
    magnitude below [2^53], and are not all missing, both functions return
    a float between [lo] and [hi]. *)
Theorem course_average_between_grades (lo hi : Z) (h : heap)
    (xs : list pyval) (course : string) :
  Z.abs lo < 2 ^ 53 -> Z.abs hi < 2 ^ 53 ->
  Forall (has_grades h) xs ->
  concat (course_entries h course xs) ≠ [] ->
  grades_within lo hi (concat (course_entries h course xs)) ->
  ∃ f, students_average_grade h xs course = Return (VFloat f)
    ∧ mentors_average_grade h xs course = Return (VFloat f)
    ∧ is_double f ∧ (inject_Z lo <= float_value f <= inject_Z hi)%Q.
Proof.
  intros Hlo Hhi Hxs Hne Hin.
  destruct (course_average_has_grades h xs course Hxs) as [-> ->].
  destruct (mean_or_within (VFloat (S754_zero false)) lo hi _ Hne Hlo Hhi Hin)
    as (f & Hf & Hd & Hb).
  by exists f.
Qed.

Lemma course_average_between_grades_witness :
  ∃ f, students_average_grade Main.world [VObj 0%nat; VObj 1%nat] "Python"
       = Return (VFloat f)
    ∧ mentors_average_grade Main.world [VObj 0%nat; VObj 1%nat] "Python"
      = Return (VFloat f)
    ∧ is_double f ∧ (inject_Z 8 <= float_value f <= inject_Z 9)%Q.
Proof.
  apply (course_average_between_grades 8 9 Main.world
           [VObj 0%nat; VObj 1%nat] "Python").
  - reflexivity.
  - reflexivity.
  - constructor; [|constructor; [|constructor]]; left.
    + by eexists 0%nat, _.
    + by eexists 1%nat, _.
  - discriminate.
  - repeat constructor; lia.
Defined.

(** ** Lecturers in a heap built by calls *)

Lemma lecturer_average h l m g :
  heap_all lecture_grades_in_range h ->
  h !! l = Some (OLecturer m g) ->
  ∃ v, own_average_grade g = Return v ∧ is_number v
    ∧ (inject_Z 0 <= num_value v <= inject_Z 10)%Q.
Proof.
  intros Hh Hl. specialize (Hh l _ Hl). simpl in Hh.
  rewrite own_average_grade_flat.
  destruct (all_grades_of g) as [|x grades] eqn:Hg.
  - exists (VInt 0). by repeat split.
  - rewrite <- Hg in *.
    destruct (mean_or_within (VInt 0) 0 10 (all_grades_of g))
      as (f & Hf & Hd & Hb); [by rewrite Hg|done|done|done|].
    by exists (VFloat f).
Qed.

(** X16: in a heap reached by calls from one where lecture grades lie
    between 0 and 10 (an empty heap, say), [own_average_grade] of a
    lecturer's grades never raises, and what it returns (the integer 0, or
    a float) lies between 0 and 10. *)
Theorem lecturer_average_in_range (cs : list call) (h : heap) (l : loc)
    (m : Mentor) (g : grades_dict) :
  heap_all lecture_grades_in_range h ->
  run_all cs h !! l = Some (OLecturer m g) ->
  ∃ v, own_average_grade g = Return v ∧ is_number v
    ∧ (inject_Z 0 <= num_value v <= inject_Z 10)%Q.
Proof.
  intros Hh. apply lecturer_average.
  revert Hh. apply run_all_heap_all.
  - apply new_obj_lecture_grades.
  - apply obj_update_lecture_grades.
Qed.

Lemma lecturer_average_in_range_witness :
  ∃ v, own_average_grade [("Python", [8; 10])] = Return v ∧ is_number v
    ∧ (inject_Z 0 <= num_value v <= inject_Z 10)%Q.
Proof.
  apply (lecturer_average_in_range
           [Call_Student "Ivan" "Ivanov" "M";
            Call_Lecturer "Oleg" "Bulygin";
            Call_add_courses_in_progress 0%nat "Python";
            Call_mentor_add_course 1%nat "Python";
            Call_rate_lecture 0%nat (VObj 1%nat) "Python" 8;
            Call_rate_lecture 0%nat (VObj 1%nat) "Python" 12;
            Call_rate_lecture 0%nat (VObj 1%nat) "Python" 10] ∅ 1%nat
           (mkMentor "Oleg" "Bulygin" ["Python"])).
  - apply heap_all_empty.
  - reflexivity.
Defined.

(** ** The comparisons that [total_ordering] and [object] supply *)

Lemma compare_means_values op (l1 l2 : list Z) v1 v2 :
  mean_or (VInt 0) l1 = Return v1 -> mean_or (VInt 0) l2 = Return v2 ->
  compare_means op l1 l2 = Return (VBool (op v1 v2)).
Proof. intros H1 H2. unfold compare_means. by rewrite H1, H2. Qed.

Lemma in_double_range_nil : in_double_range (exact_mean []).
Proof. reflexivity. Qed.

Lemma compare_means_overflow op (l1 l2 : list Z) :
  ¬ in_double_range (exact_mean l1) ∨ ¬ in_double_range (exact_mean l2) ->
  compare_means op l1 l2 = Raise OverflowError.
Proof.
  intros Hout. unfold compare_means.
  destruct (Qlt_le_dec (Qabs (exact_mean l1)) (inject_Z overflow_threshold))
    as [Hin|Hge].
  - destruct (mean_or_rounded l1 Hin) as (v1 & -> & _).
    destruct Hout as [Hout|Hout]; [done|].
    rewrite mean_or_overflow; [done| |done].
    intros ->. apply Hout, in_double_range_nil.
  - rewrite mean_or_overflow; [done|..].
    + intros ->. by apply Qle_not_lt in Hge.
    + by apply Qle_not_lt.
Qed.

Section derived.
Variables eq lt : loc -> pyval -> M pyval.
Variables (h : heap) (self : loc) (other : pyval) (l1 l2 : list Z).
Hypothesis lt_means : lt self other h = (compare_means num_lt l1 l2, h).
Hypothesis eq_means : eq self other h = (compare_means num_eq l1 l2, h).

Lemma derived_values v1 v2 :
  mean_or (VInt 0) l1 = Return v1 -> mean_or (VInt 0) l2 = Return v2 ->
  gt_from_lt eq lt self other h
  = (Return (VBool (negb (num_lt v1 v2) && negb (num_eq v1 v2))), h)
  ∧ ge_from_lt lt self other h = (Return (VBool (negb (num_lt v1 v2))), h)
  ∧ le_from_lt eq lt self other h
    = (Return (VBool (num_lt v1 v2 || num_eq v1 v2)), h)
  ∧ ne_from_eq eq self other h = (Return (VBool (negb (num_eq v1 v2))), h).
Proof.
  intros H1 H2.
  unfold gt_from_lt, ge_from_lt, le_from_lt, ne_from_eq, mbind, M_bind, bind.
  rewrite lt_means, eq_means, !(compare_means_values _ _ _ _ _ H1 H2).
  simpl. destruct (num_lt v1 v2); simpl; by rewrite ?eq_means,
    ?(compare_means_values _ _ _ _ _ H1 H2).
Qed.

Lemma derived_overflow :
  ¬ in_double_range (exact_mean l1) ∨ ¬ in_double_range (exact_mean l2) ->
  lt self other h = (Raise OverflowError, h)
  ∧ eq self other h = (Raise OverflowError, h)
  ∧ gt_from_lt eq lt self other h = (Raise OverflowError, h)
  ∧ ge_from_lt lt self other h = (Raise OverflowError, h)
  ∧ le_from_lt eq lt self other h = (Raise OverflowError, h)
  ∧ ne_from_eq eq self other h = (Raise OverflowError, h).
Proof.
  intros Hout.
  unfold gt_from_lt, ge_from_lt, le_from_lt, ne_from_eq, mbind, M_bind, bind.
  by rewrite lt_means, eq_means, !compare_means_overflow.
Qed.

End derived.

Lemma num_order x y : is_number x -> is_number y ->
  (negb (num_lt x y) && negb (num_eq x y) = true
   <-> (num_value y < num_value x)%Q)
  ∧ (negb (num_lt x y) = true <-> (num_value y <= num_value x)%Q)
  ∧ (num_lt x y || num_eq x y = true <-> (num_value x <= num_value y)%Q)
  ∧ (negb (num_eq x y) = true <-> ¬ (num_value x == num_value y)%Q).
Proof.
  intros Hx Hy. destruct (num_compare x y Hx Hy) as [Hlt Heq].
  rewrite andb_true_iff, orb_true_iff, !negb_true_iff.
  rewrite <- !not_true_iff_false, Hlt, Heq.
  set (a := num_value x). set (b := num_value y).
  split; [|split; [|split]].
  - split.
    + intros [H1 H2]. apply Qnot_le_lt. intros Hle.
      apply Qle_lteq in Hle as [?|?]; [by apply H1 | by apply H2].
    + intros H. split.
      * intros H'. apply (Qlt_irrefl a). by eapply Qlt_trans.
      * intros He. rewrite He in H. by apply Qlt_irrefl in H.
  - split; [apply Qnot_lt_le|]. intros Hle Hlt'. by apply Qle_not_lt in Hle.
  - symmetry. apply Qle_lteq.
  - done.
Qed.

(** X17: for two students whose means are below the overflow threshold,
    the four comparisons that the class does not define itself return
    booleans that agree with the order of the two values [v1] and [v2]
    that [own_average_grade] returns: [S1 > S2] is true exactly when [v2]
    is less than [v1], [S1 >= S2] when [v2] is at most [v1], [S1 <= S2]
    when [v1] is at most [v2], and [S1 != S2] when the values differ. *)
Theorem student_derived_comparisons (h : heap) (self other : loc)
    (s1 s2 : Student) :
  h !! self = Some (OStudent s1) ->
  h !! other = Some (OStudent s2) ->
  in_double_range (exact_mean (all_grades_of (s_grades s1))) ->
  in_double_range (exact_mean (all_grades_of (s_grades s2))) ->
  ∃ v1 v2 gt ge le ne,
    own_average_grade (s_grades s1) = Return v1
    ∧ own_average_grade (s_grades s2) = Return v2
    ∧ Student_gt self (VObj other) h = (Return (VBool gt), h)
    ∧ Student_ge self (VObj other) h = (Return (VBool ge), h)
    ∧ Student_le self (VObj other) h = (Return (VBool le), h)
    ∧ Student_ne self (VObj other) h = (Return (VBool ne), h)
    ∧ (gt = true <-> (num_value v2 < num_value v1)%Q)
    ∧ (ge = true <-> (num_value v2 <= num_value v1)%Q)
    ∧ (le = true <-> (num_value v1 <= num_value v2)%Q)
    ∧ (ne = true <-> ¬ (num_value v1 == num_value v2)%Q).
Proof.
  intros H1 H2 R1 R2.
  destruct (mean_or_rounded _ R1) as (v1 & Hv1 & _ & Hn1).
  destruct (mean_or_rounded _ R2) as (v2 & Hv2 & _ & Hn2).
  destruct (Student_compare_means h self other s1 s2 H1 H2) as [Hlt Heq].
  destruct (derived_values Student_eq Student_lt _ _ _ _ _ Hlt Heq v1 v2
              Hv1 Hv2) as (Hgt & Hge & Hle & Hne).
  destruct (num_order v1 v2 Hn1 Hn2) as (Ogt & Oge & Ole & One).
  eexists v1, v2, _, _, _, _. rewrite !own_average_grade_flat.
  unfold Student_gt, Student_ge, Student_le, Student_ne.
  rewrite Hgt, Hge, Hle, Hne. by do 9 (split; [done|]).
Qed.

Lemma student_derived_comparisons_witness :
  ∃ v1 v2 gt ge le ne,
    own_average_grade (s_grades Demo.maria) = Return v1
    ∧ own_average_grade (s_grades Demo.ivan) = Return v2
    ∧ Student_gt Demo.ma (VObj Demo.st) Demo.big_world
      = (Return (VBool gt), Demo.big_world)
    ∧ Student_ge Demo.ma (VObj Demo.st) Demo.big_world
      = (Return (VBool ge), Demo.big_world)
    ∧ Student_le Demo.ma (VObj Demo.st) Demo.big_world
      = (Return (VBool le), Demo.big_world)
    ∧ Student_ne Demo.ma (VObj Demo.st) Demo.big_world
      = (Return (VBool ne), Demo.big_world)
    ∧ (gt = true <-> (num_value v2 < num_value v1)%Q)
    ∧ (ge = true <-> (num_value v2 <= num_value v1)%Q)
    ∧ (le = true <-> (num_value v1 <= num_value v2)%Q)
    ∧ (ne = true <-> ¬ (num_value v1 == num_value v2)%Q).
Proof.
  apply (student_derived_comparisons Demo.big_world Demo.ma Demo.st
           Demo.maria Demo.ivan); reflexivity.
Defined.

(** X18: when the mean of either student is at or beyond the overflow
    threshold, each of the six comparisons [<], [==], [>], [>=], [<=] and
    [!=] of the two students raises [OverflowError]; none returns a
    boolean. *)
Theorem student_comparison_overflow (h : heap) (self other : loc)
    (s1 s2 : Student) :
  h !! self = Some (OStudent s1) ->
  h !! other = Some (OStudent s2) ->
  ¬ in_double_range (exact_mean (all_grades_of (s_grades s1)))
  ∨ ¬ in_double_range (exact_mean (all_grades_of (s_grades s2))) ->
  Student_lt self (VObj other) h = (Raise OverflowError, h)
  ∧ Student_eq self (VObj other) h = (Raise OverflowError, h)
  ∧ Student_gt self (VObj other) h = (Raise OverflowError, h)
  ∧ Student_ge self (VObj other) h = (Raise OverflowError, h)
  ∧ Student_le self (VObj other) h = (Raise OverflowError, h)
  ∧ Student_ne self (VObj other) h = (Raise OverflowError, h).
Proof.
  intros H1 H2 Hout.
  destruct (Student_compare_means h self other s1 s2 H1 H2) as [Hlt Heq].
  exact (derived_overflow Student_eq Student_lt _ _ _ _ _ Hlt Heq Hout).
Qed.

Lemma student_comparison_overflow_witness :
  Student_lt Demo.ma (VObj Demo.cl) Demo.big_world
  = (Raise OverflowError, Demo.big_world)
  ∧ Student_eq Demo.ma (VObj Demo.cl) Demo.big_world
    = (Raise OverflowError, Demo.big_world)
  ∧ Student_gt Demo.ma (VObj Demo.cl) Demo.big_world
    = (Raise OverflowError, Demo.big_world)
  ∧ Student_ge Demo.ma (VObj Demo.cl) Demo.big_world
    = (Raise OverflowError, Demo.big_world)
  ∧ Student_le Demo.ma (VObj Demo.cl) Demo.big_world
    = (Raise OverflowError, Demo.big_world)
  ∧ Student_ne Demo.ma (VObj Demo.cl) Demo.big_world
    = (Raise OverflowError, Demo.big_world).
Proof.
  apply (student_comparison_overflow Demo.big_world Demo.ma Demo.cl
           Demo.maria Demo.clara); [reflexivity..|].
  right. by vm_compute.
Defined.

(** ** Comparing lecturers *)

Lemma Lecturer_compare_means h self other m1 g1 m2 g2 :
  h !! self = Some (OLecturer m1 g1) ->
  h !! other = Some (OLecturer m2 g2) ->
  Lecturer_lt self (VObj other) h
  = (compare_means num_lt (all_grades_of g1) (all_grades_of g2), h)
  /\ Lecturer_eq self (VObj other) h
  = (compare_means num_eq (all_grades_of g1) (all_grades_of g2), h).
Proof.
  intros H1 H2. unfold Lecturer_lt, Lecturer_eq.
  unfold get_lecturer, as_Lecturer, get_obj, mbind, M_bind, bind, ret.
  rewrite H1, H2. simpl. by rewrite !compare_averages_means.
Qed.

(** X19: two lecturers are ordered by the values [own_average_grade]
    returns for their lecture grades, flattened over all courses.  In a
    heap where lecture grades lie between 0 and 10 (every heap built by
    calls) none of the six comparisons raises: each returns the boolean
    that the order of the two values [v1] and [v2] gives.  Rounding keeps
    the order of the exact means: [L1 < L2] is true only if the exact mean
    of [L1] is less than that of [L2], and [L1 == L2] is true whenever the
    exact means are equal. *)
Theorem lecturer_order_by_rounded_mean (h : heap) (self other : loc)
    (m1 m2 : Mentor) (g1 g2 : grades_dict) :
  heap_all lecture_grades_in_range h ->
  h !! self = Some (OLecturer m1 g1) ->
  h !! other = Some (OLecturer m2 g2) ->
  ∃ v1 v2 lt eq gt ge le ne,
    own_average_grade g1 = Return v1
    ∧ own_average_grade g2 = Return v2
    ∧ rounded_mean (all_grades_of g1) v1
    ∧ rounded_mean (all_grades_of g2) v2
    ∧ Lecturer_lt self (VObj other) h = (Return (VBool lt), h)
    ∧ Lecturer_eq self (VObj other) h = (Return (VBool eq), h)
    ∧ Lecturer_gt self (VObj other) h = (Return (VBool gt), h)
    ∧ Lecturer_ge self (VObj other) h = (Return (VBool ge), h)
    ∧ Lecturer_le self (VObj other) h = (Return (VBool le), h)
    ∧ Lecturer_ne self (VObj other) h = (Return (VBool ne), h)
    ∧ (lt = true <-> (num_value v1 < num_value v2)%Q)
    ∧ (eq = true <-> (num_value v1 == num_value v2)%Q)
    ∧ (gt = true <-> (num_value v2 < num_value v1)%Q)
    ∧ (ge = true <-> (num_value v2 <= num_value v1)%Q)
    ∧ (le = true <-> (num_value v1 <= num_value v2)%Q)
    ∧ (ne = true <-> ¬ (num_value v1 == num_value v2)%Q)
    ∧ (lt = true ->
       (exact_mean (all_grades_of g1) < exact_mean (all_grades_of g2))%Q)
    ∧ ((exact_mean (all_grades_of g1) == exact_mean (all_grades_of g2))%Q ->
       eq = true).
Proof.
  intros Hh H1 H2.
  assert (Hrange : ∀ l m g, h !! l = Some (OLecturer m g) ->
            in_double_range (exact_mean (all_grades_of g))).
  { intros l m g Hl. specialize (Hh l _ Hl). simpl in Hh.
    destruct (all_grades_of g) as [|x grades] eqn:Hg;
      [apply in_double_range_nil|].
    rewrite <- Hg in *. unfold in_double_range.
    rewrite exact_mean_quotient by (by rewrite Hg).
    pose proof (len_pos (all_grades_of g) ltac:(by rewrite Hg)) as Hlen.
    apply in_double_range_quotient; [done|].
    pose proof (sum_within 0 10 _ Hh) as [Hs1 Hs2].
    assert (HT : 2 ^ 53 <= overflow_threshold) by (by apply Z.leb_le).
    remember overflow_threshold as T. remember (2 ^ 53) as B.
    apply Z.lt_le_trans with (B * len (all_grades_of g)).
    - subst B. lia.
    - by apply Z.mul_le_mono_nonneg_r; [lia|]. }
  pose proof (Hrange _ _ _ H1) as R1. pose proof (Hrange _ _ _ H2) as R2.
  destruct (mean_or_rounded _ R1) as (v1 & Hv1 & Hm1 & Hn1).
  destruct (mean_or_rounded _ R2) as (v2 & Hv2 & Hm2 & Hn2).
  destruct (Lecturer_compare_means h self other m1 g1 m2 g2 H1 H2)
    as [Hlt Heq].
  destruct (derived_values Lecturer_eq Lecturer_lt _ _ _ _ _ Hlt Heq v1 v2
              Hv1 Hv2) as (Hgt & Hge & Hle & Hne).
  destruct (num_order v1 v2 Hn1 Hn2) as (Ogt & Oge & Ole & One).
  destruct (num_compare v1 v2 Hn1 Hn2) as [Olt Oeq].
  eexists v1, v2, _, _, _, _, _, _. rewrite !own_average_grade_flat.
  unfold Lecturer_gt, Lecturer_ge, Lecturer_le, Lecturer_ne.
  rewrite Hgt, Hge, Hle, Hne, Hlt, Heq.
  rewrite !(compare_means_values _ _ _ _ _ Hv1 Hv2).
  do 16 (split; [done|]). split.
  - intros Ht. apply Olt in Ht. apply Qnot_le_lt. intros Hge'.
    apply (mean_or_mono _ _ _ _ Hv2 Hv1) in Hge'.
    by apply Qlt_not_le in Ht.
  - intros Hmeans. apply Oeq. apply Qle_antisym.
    + apply (mean_or_mono _ _ _ _ Hv1 Hv2). rewrite Hmeans. apply Qle_refl.
    + apply (mean_or_mono _ _ _ _ Hv2 Hv1). rewrite Hmeans. apply Qle_refl.
Qed.

(** ** The script *)

(** The script names its objects 0 to 5, and the list of its calls builds
    the heap the script builds. *)
Example main_script_objects :
  fst (Main.setup ∅) = Return Main.names
  /\ run_all Main.calls ∅ = Main.world.
Proof. split; by vm_compute. Qed.

(** What the script prints: lecturer 1 is not better than lecturer 2 (8.0
    against 10.0), student 1 is better than student 2 (9.5 against 8.5),
    the homework average for Python is 8.5 and the lecture average 9.0. *)
Example main_script_report :
  fst (Main.report ∅)
  = Return [VBool false;
            VFloat (S754_finite false 4503599627370496 (-49));
            VFloat (S754_finite false 5629499534213120 (-49));
            VBool true;
            VFloat (S754_finite false 5348024557502464 (-49));
            VFloat (S754_finite false 4785074604081152 (-49));
            VFloat (S754_finite false 4785074604081152 (-49));
            VFloat (S754_finite false 5066549580791808 (-49))].
Proof. by vm_compute. Qed.

Lemma main_world_lecture_grades : heap_all lecture_grades_in_range Main.world.
Proof.
  rewrite <- (proj2 main_script_objects).
  apply run_all_heap_all;
    [apply new_obj_lecture_grades | apply obj_update_lecture_grades
    | apply heap_all_empty].
Qed.

Lemma lecturer_order_by_rounded_mean_witness :
  ∃ v1 v2 lt eq gt ge le ne,
    own_average_grade [("Python", [8])] = Return v1
    ∧ own_average_grade [("Python", [10])] = Return v2
    ∧ rounded_mean [8] v1
    ∧ rounded_mean [10] v2
    ∧ Lecturer_lt 2%nat (VObj 3%nat) Main.world
      = (Return (VBool lt), Main.world)
    ∧ Lecturer_eq 2%nat (VObj 3%nat) Main.world
      = (Return (VBool eq), Main.world)
    ∧ Lecturer_gt 2%nat (VObj 3%nat) Main.world
      = (Return (VBool gt), Main.world)
    ∧ Lecturer_ge 2%nat (VObj 3%nat) Main.world
      = (Return (VBool ge), Main.world)
    ∧ Lecturer_le 2%nat (VObj 3%nat) Main.world
      = (Return (VBool le), Main.world)
    ∧ Lecturer_ne 2%nat (VObj 3%nat) Main.world
      = (Return (VBool ne), Main.world)
    ∧ (lt = true <-> (num_value v1 < num_value v2)%Q)
    ∧ (eq = true <-> (num_value v1 == num_value v2)%Q)
    ∧ (gt = true <-> (num_value v2 < num_value v1)%Q)
    ∧ (ge = true <-> (num_value v2 <= num_value v1)%Q)
    ∧ (le = true <-> (num_value v1 <= num_value v2)%Q)
    ∧ (ne = true <-> ¬ (num_value v1 == num_value v2)%Q)
    ∧ (lt = true -> (exact_mean [8%Z] < exact_mean [10%Z])%Q)
    ∧ ((exact_mean [8%Z] == exact_mean [10%Z])%Q -> eq = true).
Proof.
  apply (lecturer_order_by_rounded_mean Main.world 2%nat 3%nat
           (mkMentor "Олег" "Булыгин" ["Python"; "C++"])
           (mkMentor "Тимур" "Анвартдинов" ["Python"; "JavaScript"])
           [("Python", [8])] [("Python", [10])]).
  - exact main_world_lecture_grades.
  - by vm_compute.
  - by vm_compute.
Defined.

(** ** [__str__] *)

Lemma own_average_grade_cases (g : grades_dict) :
  (in_double_range (exact_mean (all_grades_of g)) ->
   ∃ v, own_average_grade g = Return v)
  ∧ (¬ in_double_range (exact_mean (all_grades_of g)) ->
     own_average_grade g = Raise OverflowError).
Proof.
  rewrite own_average_grade_flat. split.
  - intros Hin. destruct (mean_or_rounded _ Hin) as (v & Hv & _).
    by exists v.
  - intros Hout. apply mean_or_overflow; [|done].
    intros Hnil. rewrite Hnil in Hout. apply Hout, in_double_range_nil.
Qed.

(** X20: [str(student)] and [str(lecturer)] compute the average they show
    with [own_average_grade] and fail as it fails: below the overflow
    threshold they return a string and leave the heap alone, from the
    threshold on they raise [OverflowError].  In a heap where lecture
    grades lie between 0 and 10 [str(lecturer)] always returns a string;
    [str(reviewer)] shows no average and always returns a string.  This
    holds whatever text the language prints for a float. *)
Theorem str_raises_only_on_overflow (float_str : spec_float -> string)
    (h : heap) (self : loc) :
  (∀ s, h !! self = Some (OStudent s) ->
     (in_double_range (exact_mean (all_grades_of (s_grades s))) ->
      ∃ text, Student_str float_str self h = (Return (VStr text), h))
     ∧ (¬ in_double_range (exact_mean (all_grades_of (s_grades s))) ->
        Student_str float_str self h = (Raise OverflowError, h)))
  /\ (∀ m g, h !! self = Some (OLecturer m g) ->
     (in_double_range (exact_mean (all_grades_of g)) ->
      ∃ text, Lecturer_str float_str self h = (Return (VStr text), h))
     ∧ (¬ in_double_range (exact_mean (all_grades_of g)) ->
        Lecturer_str float_str self h = (Raise OverflowError, h))
     ∧ (heap_all lecture_grades_in_range h ->
        ∃ text, Lecturer_str float_str self h = (Return (VStr text), h)))
  /\ (∀ r, h !! self = Some (OReviewer r) ->
     ∃ text, Reviewer_str self h = (Return (VStr text), h)).
Proof.
  split; [|split].
  - intros s Hs.
    destruct (own_average_grade_cases (s_grades s)) as [Hin Hout].
    unfold Student_str. run_method. rewrite Hs. split.
    + intros [v ->]%Hin. by eexists.
    + by intros ->%Hout.
  - intros m g Hl.
    destruct (own_average_grade_cases g) as [Hin Hout].
    unfold Lecturer_str. run_method. rewrite Hl. simpl.
    split; [|split].
    + intros [v ->]%Hin. by eexists.
    + by intros ->%Hout.
    + intros Hh. destruct (lecturer_average h self m g Hh Hl) as (v & -> & _).
      by eexists.
  - intros r Hr. unfold Reviewer_str. run_method. rewrite Hr. by eexists.
Qed.

Lemma str_raises_only_on_overflow_witness :
  (∃ text, Student_str (fun _ => "9.5") Demo.st Demo.big_world
           = (Return (VStr text), Demo.big_world))
  /\ Student_str (fun _ => "9.5") Demo.cl Demo.big_world
     = (Raise OverflowError, Demo.big_world)
  /\ (∃ text, Lecturer_str (fun _ => "8.0") 2%nat Main.world
              = (Return (VStr text), Main.world))
  /\ (∃ text, Reviewer_str Demo.rev Demo.world
              = (Return (VStr text), Demo.world)).
Proof.
  split; [|split; [|split]].
  - apply (proj1 (str_raises_only_on_overflow (fun _ => "9.5")
                    Demo.big_world Demo.st) Demo.ivan); reflexivity.
  - apply (proj1 (str_raises_only_on_overflow (fun _ => "9.5")
                    Demo.big_world Demo.cl) Demo.clara);
      [reflexivity | by vm_compute].
  - apply (proj1 (proj2 (str_raises_only_on_overflow (fun _ => "8.0")
                           Main.world 2%nat))
             (mkMentor "Олег" "Булыгин" ["Python"; "C++"])
             [("Python", [8])]); [by vm_compute|].
    exact main_world_lecture_grades.
  - apply (proj2 (proj2 (str_raises_only_on_overflow (fun _ => "")
                           Demo.world Demo.rev)) Demo.vladimir).
    reflexivity.
Defined.

(** ** The lecture average of a course *)

Lemma dict_get_within lo hi course (g : grades_dict) l :
  grades_within lo hi (all_grades_of g) -> dict_get course g = Some l ->
  grades_within lo hi l.
Proof.
  unfold grades_within, all_grades_of, dict_values.
  induction g as [|[k v] g IH]; [done|]. simpl.
  intros [Hv Hg]%Forall_app. destruct (decide (course = k)).
  - by intros [= <-].
  - by apply IH.
Qed.

Lemma lecture_entries_within h course xs :
  heap_all lecture_grades_in_range h -> Forall (is_Lecturer h) xs ->
  grades_within 0 10 (concat (course_entries h course xs)).
Proof.
  intros Hh Hxs. unfold course_entries.
  induction Hxs as [|x xs (l & m & g & -> & Hl) _ IH]; [constructor|].
  simpl. rewrite Hl. simpl.
  destruct (dict_get course g) as [grades|] eqn:Hg; [|done].
  simpl. apply Forall_app. split; [|done].
  eapply dict_get_within; [|done]. exact (Hh l _ Hl).
Qed.

(** X21: in a heap where lecture grades lie between 0 and 10 (every heap
    built by calls), [mentors_average_grade] over lecturers never raises,
    and the float it returns lies between 0 and 10. *)
Theorem lecture_course_average_in_range (h : heap) (xs : list pyval)
    (course : string) :
  heap_all lecture_grades_in_range h ->
  Forall (is_Lecturer h) xs ->
  ∃ f, mentors_average_grade h xs course = Return (VFloat f)
    ∧ is_double f ∧ (inject_Z 0 <= float_value f <= inject_Z 10)%Q.
Proof.
  intros Hh Hxs.
  pose proof (lecture_entries_within h course xs Hh Hxs) as Hin.
  rewrite mentors_average_grade_mean_or by done.
  destruct (concat (course_entries h course xs)) as [|x l] eqn:Hc.
  - exists (S754_zero false). by repeat split.
  - rewrite <- Hc in *. apply mean_or_within; try done. by rewrite Hc.
Qed.

Lemma lecture_course_average_in_range_witness :
  ∃ f, mentors_average_grade Main.world [VObj 2%nat; VObj 3%nat] "Python"
       = Return (VFloat f)
    ∧ is_double f ∧ (inject_Z 0 <= float_value f <= inject_Z 10)%Q.
Proof.
  apply (lecture_course_average_in_range Main.world
           [VObj 2%nat; VObj 3%nat] "Python").
  - exact main_world_lecture_grades.
  - constructor; [|constructor; [|constructor]].
    + by eexists 2%nat, _, _.
    + by eexists 3%nat, _, _.
Defined.

(** ** The order of students *)

Lemma student_values (h : heap) (a : loc) s :
  h !! a = Some (OStudent s) ->
  in_double_range (exact_mean (all_grades_of (s_grades s))) ->
  ∃ v, mean_or (VInt 0) (all_grades_of (s_grades s)) = Return v
    ∧ is_number v.
Proof.
  intros _ Hin. destruct (mean_or_rounded _ Hin) as (v & Hv & _ & Hn).
  by exists v.
Qed.

Lemma Student_compare_values h a b sa sb va vb :
  h !! a = Some (OStudent sa) -> h !! b = Some (OStudent sb) ->
  mean_or (VInt 0) (all_grades_of (s_grades sa)) = Return va ->
  mean_or (VInt 0) (all_grades_of (s_grades sb)) = Return vb ->
  Student_lt a (VObj b) h = (Return (VBool (num_lt va vb)), h)
  ∧ Student_eq a (VObj b) h = (Return (VBool (num_eq va vb)), h)
  ∧ Student_gt a (VObj b) h
    = (Return (VBool (negb (num_lt va vb) && negb (num_eq va vb))), h)
  ∧ Student_ge a (VObj b) h = (Return (VBool (negb (num_lt va vb))), h)
  ∧ Student_le a (VObj b) h
    = (Return (VBool (num_lt va vb || num_eq va vb)), h)
  ∧ Student_ne a (VObj b) h = (Return (VBool (negb (num_eq va vb))), h).
Proof.
  intros Ha Hb Hva Hvb.
  destruct (Student_compare_means h a b sa sb Ha Hb) as [Hlt Heq].
  destruct (derived_values Student_eq Student_lt _ _ _ _ _ Hlt Heq va vb
              Hva Hvb) as (Hgt & Hge & Hle & Hne).
  rewrite Hlt, Heq, !(compare_means_values _ _ _ _ _ Hva Hvb).
  by repeat split.
Qed.

(** X22: for two students whose means are below the overflow threshold the
    comparisons are converse to each other as the operators suggest:
    [S1 > S2] returns what [S2 < S1] returns, [S1 >= S2] what [S2 <= S1]
    returns, and [==] and [!=] do not depend on the order of the
    operands. *)
Theorem student_comparison_converse (h : heap) (a b : loc)
    (sa sb : Student) :
  h !! a = Some (OStudent sa) ->
  h !! b = Some (OStudent sb) ->
  in_double_range (exact_mean (all_grades_of (s_grades sa))) ->
  in_double_range (exact_mean (all_grades_of (s_grades sb))) ->
  Student_gt a (VObj b) h = Student_lt b (VObj a) h
  ∧ Student_ge a (VObj b) h = Student_le b (VObj a) h
  ∧ Student_eq a (VObj b) h = Student_eq b (VObj a) h
  ∧ Student_ne a (VObj b) h = Student_ne b (VObj a) h.
Proof.
  intros Ha Hb Ra Rb.
  destruct (student_values h a sa Ha Ra) as (va & Hva & Hna).
  destruct (student_values h b sb Hb Rb) as (vb & Hvb & Hnb).
  destruct (Student_compare_values h a b sa sb va vb Ha Hb Hva Hvb)
    as (_ & -> & -> & -> & _ & ->).
  destruct (Student_compare_values h b a sb sa vb va Hb Ha Hvb Hva)
    as (-> & -> & _ & _ & -> & ->).
  destruct (num_order va vb Hna Hnb) as (Ogt & Oge & _ & One).
  destruct (num_order vb va Hnb Hna) as (_ & _ & Ole' & One').
  destruct (num_compare va vb Hna Hnb) as [_ Oeq].
  destruct (num_compare vb va Hnb Hna) as [Olt' Oeq'].
  assert (E1 : negb (num_lt va vb) && negb (num_eq va vb) = num_lt vb va)
    by (apply eq_iff_eq_true; by rewrite Ogt, Olt').
  assert (E2 : negb (num_lt va vb) = num_lt vb va || num_eq vb va)
    by (apply eq_iff_eq_true; by rewrite Oge, Ole').
  assert (E3 : num_eq va vb = num_eq vb va).
  { apply eq_iff_eq_true. rewrite Oeq, Oeq'. split; intros H; by symmetry. }
  by rewrite E1, E2, E3.
Qed.

Lemma student_comparison_converse_witness :
  Student_gt Demo.st (VObj Demo.ma) Demo.big_world
  = Student_lt Demo.ma (VObj Demo.st) Demo.big_world
  ∧ Student_ge Demo.st (VObj Demo.ma) Demo.big_world
    = Student_le Demo.ma (VObj Demo.st) Demo.big_world
  ∧ Student_eq Demo.st (VObj Demo.ma) Demo.big_world
    = Student_eq Demo.ma (VObj Demo.st) Demo.big_world
  ∧ Student_ne Demo.st (VObj Demo.ma) Demo.big_world
    = Student_ne Demo.ma (VObj Demo.st) Demo.big_world.
Proof.
  apply (student_comparison_converse Demo.big_world Demo.st Demo.ma
           Demo.ivan Demo.maria); reflexivity.
Defined.

(** X23: on students whose means are below the overflow threshold [<] is a
    strict order and [==] an equivalence: no student is less than itself
    and each equals itself, [<] and [==] are transitive, and of [S1 < S2],
    [S1 == S2] and [S2 < S1] exactly one is true. *)
Theorem student_order_laws (h : heap) (a b c : loc) (sa sb sc : Student) :
  h !! a = Some (OStudent sa) ->
  h !! b = Some (OStudent sb) ->
  h !! c = Some (OStudent sc) ->
  in_double_range (exact_mean (all_grades_of (s_grades sa))) ->
  in_double_range (exact_mean (all_grades_of (s_grades sb))) ->
  in_double_range (exact_mean (all_grades_of (s_grades sc))) ->
  Student_lt a (VObj a) h = (Return (VBool false), h)
  ∧ Student_eq a (VObj a) h = (Return (VBool true), h)
  ∧ (Student_lt a (VObj b) h = (Return (VBool true), h) ->
     Student_lt b (VObj c) h = (Return (VBool true), h) ->
     Student_lt a (VObj c) h = (Return (VBool true), h))
  ∧ (Student_eq a (VObj b) h = (Return (VBool true), h) ->
     Student_eq b (VObj c) h = (Return (VBool true), h) ->
     Student_eq a (VObj c) h = (Return (VBool true), h))
  ∧ ∃ lt eq gt,
      Student_lt a (VObj b) h = (Return (VBool lt), h)
      ∧ Student_eq a (VObj b) h = (Return (VBool eq), h)
      ∧ Student_lt b (VObj a) h = (Return (VBool gt), h)
      ∧ (lt, eq, gt) ∈ [(true, false, false); (false, true, false);
                         (false, false, true)].
Proof.
  intros Ha Hb Hc Ra Rb Rc.
  destruct (student_values h a sa Ha Ra) as (va & Hva & Hna).
  destruct (student_values h b sb Hb Rb) as (vb & Hvb & Hnb).
  destruct (student_values h c sc Hc Rc) as (vc & Hvc & Hnc).
  destruct (Student_compare_values h a a sa sa va va Ha Ha Hva Hva)
    as (-> & -> & _).
  destruct (Student_compare_values h a b sa sb va vb Ha Hb Hva Hvb)
    as (-> & -> & _).
  destruct (Student_compare_values h b c sb sc vb vc Hb Hc Hvb Hvc)
    as (-> & -> & _).
  destruct (Student_compare_values h a c sa sc va vc Ha Hc Hva Hvc)
    as (-> & -> & _).
  destruct (Student_compare_values h b a sb sa vb va Hb Ha Hvb Hva)
    as (-> & _).
  destruct (num_compare va va Hna Hna) as [Laa Eaa].
  destruct (num_compare va vb Hna Hnb) as [Lab Eab].
  destruct (num_compare vb vc Hnb Hnc) as [Lbc Ebc].
  destruct (num_compare va vc Hna Hnc) as [Lac Eac].
  destruct (num_compare vb va Hnb Hna) as [Lba Eba].
  split; [|split; [|split; [|split]]].
  - f_equal. f_equal. f_equal. apply not_true_iff_false. rewrite Laa.
    apply Qlt_irrefl.
  - f_equal. f_equal. f_equal. apply Eaa. reflexivity.
  - intros [= H1] [= H2]. f_equal. f_equal. f_equal.
    apply Lac. apply Lab in H1. apply Lbc in H2. by eapply Qlt_trans.
  - intros [= H1] [= H2]. f_equal. f_equal. f_equal.
    apply Eac. apply Eab in H1. apply Ebc in H2. by eapply Qeq_trans.
  - eexists _, _, _. do 3 (split; [reflexivity|]).
    destruct (Q_dec (num_value va) (num_value vb)) as [[Hlt|Hgt]|Heq].
    + assert (num_lt va vb = true) as -> by (by apply Lab).
      assert (num_eq va vb = false) as ->.
      { apply not_true_iff_false. rewrite Eab. intros He.
        rewrite He in Hlt. by apply Qlt_irrefl in Hlt. }
      assert (num_lt vb va = false) as ->.
      { apply not_true_iff_false. rewrite Lba. intros H.
        apply (Qlt_irrefl (num_value va)). by eapply Qlt_trans. }
      apply elem_of_cons. by left.
    + assert (num_lt vb va = true) as -> by (by apply Lba).
      assert (num_eq va vb = false) as ->.
      { apply not_true_iff_false. rewrite Eab. intros He.
        rewrite He in Hgt. by apply Qlt_irrefl in Hgt. }
      assert (num_lt va vb = false) as ->.
      { apply not_true_iff_false. rewrite Lab. intros H.
        apply (Qlt_irrefl (num_value va)). by eapply Qlt_trans. }
      apply elem_of_cons; right. apply elem_of_cons; right.
      apply elem_of_cons. by left.
    + assert (num_eq va vb = true) as -> by (by apply Eab).
      assert (num_lt va vb = false) as ->.
      { apply not_true_iff_false. rewrite Lab. rewrite Heq.
        apply Qlt_irrefl. }
      assert (num_lt vb va = false) as ->.
      { apply not_true_iff_false. rewrite Lba. rewrite Heq.
        apply Qlt_irrefl. }
      apply elem_of_cons; right. apply elem_of_cons. by left.
Qed.

Lemma student_order_laws_witness :
  Student_lt Demo.ma (VObj Demo.ma) Demo.big_world
  = (Return (VBool false), Demo.big_world)
  ∧ Student_eq Demo.ma (VObj Demo.ma) Demo.big_world
    = (Return (VBool true), Demo.big_world)
  ∧ (Student_lt Demo.ma (VObj Demo.st) Demo.big_world
     = (Return (VBool true), Demo.big_world) ->
     Student_lt Demo.st (VObj Demo.an) Demo.big_world
     = (Return (VBool true), Demo.big_world) ->
     Student_lt Demo.ma (VObj Demo.an) Demo.big_world
     = (Return (VBool true), Demo.big_world))
  ∧ (Student_eq Demo.ma (VObj Demo.st) Demo.big_world
     = (Return (VBool true), Demo.big_world) ->
     Student_eq Demo.st (VObj Demo.an) Demo.big_world
     = (Return (VBool true), Demo.big_world) ->
     Student_eq Demo.ma (VObj Demo.an) Demo.big_world
     = (Return (VBool true), Demo.big_world))
  ∧ ∃ lt eq gt,
      Student_lt Demo.ma (VObj Demo.st) Demo.big_world
      = (Return (VBool lt), Demo.big_world)
      ∧ Student_eq Demo.ma (VObj Demo.st) Demo.big_world
        = (Return (VBool eq), Demo.big_world)
      ∧ Student_lt Demo.st (VObj Demo.ma) Demo.big_world
        = (Return (VBool gt), Demo.big_world)
      ∧ (lt, eq, gt) ∈ [(true, false, false); (false, true, false);
                         (false, false, true)].
Proof.
  apply (student_order_laws Demo.big_world Demo.ma Demo.st Demo.an
           Demo.maria Demo.ivan Demo.anna); reflexivity.
Defined.
